(** * arduino-mass-builder: the report engine

    A shallow embedding of [find_builds], [add_extra_info],
    [create_report_data], [add_delta_info], [build_report_row] and the
    [report] command of [arduino-mass-builder.py].

    Modelling choices:
    - Python exceptions that can escape a call are the constructors of
      [exn]; a call that may raise returns [result A].
    - A build record (a Python dict loaded from [build.json] and then
      mutated in place) is the record [build], with an [option] per key
      that may be missing; [build['k']] on a missing key raises [KeyError].
    - The dict [data] keyed by [(buildset, sketch_dir, board)] is an
      association list in insertion order; [dict_set] keeps the position of
      an existing key, as Python does. Every record object is stored under
      one key only, so mutating [build] in place is writing it back under
      its key.
    - The outside world (the [avr-size] process, reading the [.hex] file,
      SHA-1) is the record [env]. *)

From Stdlib Require Import String Ascii List ZArith Bool Sorting Permutation Lia.
Import ListNotations.
Open Scope string_scope.
Set Warnings "-register-all".

(** ** Exceptions and the error monad *)

Inductive exn :=
| CalledProcessError   (* subprocess.check_output: non-zero exit status *)
| FileNotFoundError    (* missing executable or missing file *)
| ValueError           (* int() on a malformed number *)
| KeyError             (* dict lookup of a missing key *)
| JSONDecodeError.     (* json.load on a malformed build.json *)

Inductive result (A : Type) :=
| Ok (a : A)
| Err (e : exn).
Arguments Ok {A} a.
Arguments Err {A} e.

Definition bind {A B} (m : result A) (f : A -> result B) : result B :=
  match m with
  | Ok a => f a
  | Err e => Err e
  end.

Notation "x <- m ;; k" := (bind m (fun x => k))
  (at level 61, m at next level, right associativity).

(** [d['k']]: a missing key raises [KeyError]. *)
Definition getitem {A} (o : option A) : result A :=
  match o with
  | Some a => Ok a
  | None => Err KeyError
  end.

(** ** Records *)

Definition path := list string.

(** The contents of [build.json] as [do_compile] writes it. *)
Record raw_build := {
  r_exit_code : Z;
  r_sketch_dir : string;
  r_sketch_name : string;
  r_board : string;
  r_buildset : string
}.

(** The values stored under ['status']. *)
Inductive status := OK | Failed_to_compile | Failed_to_get_size.

Definition status_str (s : status) : string :=
  match s with
  | OK => "OK"
  | Failed_to_compile => "Failed to compile"
  | Failed_to_get_size => "Failed to get size"
  end.

Definition status_eqb (a b : status) : bool :=
  String.eqb (status_str a) (status_str b).

(** The values stored under ['delta_status']. *)
Inductive delta_status :=
| Is_base | No_base | Identical | Modified | Fixed | Broken | Still_broken.

Definition delta_status_str (d : delta_status) : string :=
  match d with
  | Is_base => "Is base"
  | No_base => "No base"
  | Identical => "Identical"
  | Modified => "Modified"
  | Fixed => "Fixed"
  | Broken => "Broken"
  | Still_broken => "Still broken"
  end.

(** A build record during reporting; [is_base] holds ['Yes'] as [true] and
    ['No'] as [false]. *)
Record build := {
  exit_code : Z;
  sketch_dir : string;
  sketch_name : string;
  board : string;
  buildset : string;
  status_f : option status;
  program_size : option Z;
  data_size : option Z;
  hash : option string;
  is_base : option bool;
  delta_status_f : option delta_status;
  delta_program_size : option Z;
  delta_data_size : option Z
}.

Definition of_raw (r : raw_build) : build :=
  {| exit_code := r_exit_code r; sketch_dir := r_sketch_dir r;
     sketch_name := r_sketch_name r; board := r_board r;
     buildset := r_buildset r; status_f := None; program_size := None;
     data_size := None; hash := None; is_base := None;
     delta_status_f := None; delta_program_size := None;
     delta_data_size := None |}.

(** [build[k] = v] for each key that the program assigns. *)
Definition set_status (s : status) (b : build) : build :=
  {| exit_code := exit_code b; sketch_dir := sketch_dir b;
     sketch_name := sketch_name b; board := board b; buildset := buildset b;
     status_f := Some s; program_size := program_size b;
     data_size := data_size b; hash := hash b; is_base := is_base b;
     delta_status_f := delta_status_f b;
     delta_program_size := delta_program_size b;
     delta_data_size := delta_data_size b |}.

Definition set_program_size (z : Z) (b : build) : build :=
  {| exit_code := exit_code b; sketch_dir := sketch_dir b;
     sketch_name := sketch_name b; board := board b; buildset := buildset b;
     status_f := status_f b; program_size := Some z;
     data_size := data_size b; hash := hash b; is_base := is_base b;
     delta_status_f := delta_status_f b;
     delta_program_size := delta_program_size b;
     delta_data_size := delta_data_size b |}.

Definition set_data_size (z : Z) (b : build) : build :=
  {| exit_code := exit_code b; sketch_dir := sketch_dir b;
     sketch_name := sketch_name b; board := board b; buildset := buildset b;
     status_f := status_f b; program_size := program_size b;
     data_size := Some z; hash := hash b; is_base := is_base b;
     delta_status_f := delta_status_f b;
     delta_program_size := delta_program_size b;
     delta_data_size := delta_data_size b |}.

Definition set_hash (h : string) (b : build) : build :=
  {| exit_code := exit_code b; sketch_dir := sketch_dir b;
     sketch_name := sketch_name b; board := board b; buildset := buildset b;
     status_f := status_f b; program_size := program_size b;
     data_size := data_size b; hash := Some h; is_base := is_base b;
     delta_status_f := delta_status_f b;
     delta_program_size := delta_program_size b;
     delta_data_size := delta_data_size b |}.

Definition set_is_base (v : bool) (b : build) : build :=
  {| exit_code := exit_code b; sketch_dir := sketch_dir b;
     sketch_name := sketch_name b; board := board b; buildset := buildset b;
     status_f := status_f b; program_size := program_size b;
     data_size := data_size b; hash := hash b; is_base := Some v;
     delta_status_f := delta_status_f b;
     delta_program_size := delta_program_size b;
     delta_data_size := delta_data_size b |}.

Definition set_delta_status (d : delta_status) (b : build) : build :=
  {| exit_code := exit_code b; sketch_dir := sketch_dir b;
     sketch_name := sketch_name b; board := board b; buildset := buildset b;
     status_f := status_f b; program_size := program_size b;
     data_size := data_size b; hash := hash b; is_base := is_base b;
     delta_status_f := Some d;
     delta_program_size := delta_program_size b;
     delta_data_size := delta_data_size b |}.

Definition set_delta_program_size (z : Z) (b : build) : build :=
  {| exit_code := exit_code b; sketch_dir := sketch_dir b;
     sketch_name := sketch_name b; board := board b; buildset := buildset b;
     status_f := status_f b; program_size := program_size b;
     data_size := data_size b; hash := hash b; is_base := is_base b;
     delta_status_f := delta_status_f b;
     delta_program_size := Some z;
     delta_data_size := delta_data_size b |}.

Definition set_delta_data_size (z : Z) (b : build) : build :=
  {| exit_code := exit_code b; sketch_dir := sketch_dir b;
     sketch_name := sketch_name b; board := board b; buildset := buildset b;
     status_f := status_f b; program_size := program_size b;
     data_size := data_size b; hash := hash b; is_base := is_base b;
     delta_status_f := delta_status_f b;
     delta_program_size := delta_program_size b;
     delta_data_size := Some z |}.

(** ** Record store scanner: [find_builds]

    A directory has its regular files (name and what [json.load] makes of
    the contents: [Some r] for a well-formed record, [None] for malformed
    JSON) and its subdirectories, in the order [os.walk] lists them. *)
Inductive dir :=
| Dir (files : list (string * option raw_build)) (subdirs : list (string * dir)).

Definition dir_files (d : dir) := match d with Dir fs _ => fs end.
Definition dir_subdirs (d : dir) := match d with Dir _ ss => ss end.

Definition marker := "build.json".

(** ['build.json' in files], returning what [json.load] reads from it. *)
Fixpoint find_file (name : string) (fs : list (string * option raw_build))
  : option (option raw_build) :=
  match fs with
  | [] => None
  | (n, c) :: fs' => if String.eqb n name then Some c else find_file name fs'
  end.

(** [os.walk] top-down, with [subdirs[:] = []] when the marker is present.
    Each yielded element is the directory and the result of [json.load];
    the generator raises [JSONDecodeError] lazily, when the consumer asks for
    the element whose marker is malformed. *)
Fixpoint walk (p : path) (d : dir) : list (path * option raw_build) :=
  match d with
  | Dir files subdirs =>
      match find_file marker files with
      | Some c => [(p, c)]
      | None => flat_map (fun nd => walk (p ++ [fst nd])%list (snd nd)) subdirs
      end
  end.

Definition find_builds (result_dir : dir) := walk [] result_dir.

(** ** Artifact measurer: [add_extra_info] *)

(** The external world seen by [add_extra_info]: running [avr-size -C] on a
    path (its standard output already split by [splitlines()]), reading a
    file, and [hashlib.sha1(..).hexdigest()]. *)
Inductive proc_result :=
| ProcOk (stdout_lines : list string)   (* exit status 0 *)
| ProcNonZero                           (* non-zero exit status *)
| ProcNoExec.                           (* the executable is missing *)

Record env := {
  run_size : path -> proc_result;
  read_file : path -> option string;
  sha1_hexdigest : string -> string
}.

Fixpoint strip_prefix (pre s : string) : option string :=
  match pre, s with
  | EmptyString, _ => Some s
  | String c pre', String c' s' =>
      if Ascii.eqb c c' then strip_prefix pre' s' else None
  | String _ _, EmptyString => None
  end.

(** Leading spaces: how many, and what follows them. *)
Fixpoint skip_spaces (s : string) : nat * string :=
  match s with
  | String " " s' => let (n, r) := skip_spaces s' in (S n, r)
  | _ => (0%nat, s)
  end.

Definition is_digit (c : ascii) : bool :=
  (Nat.leb 48 (nat_of_ascii c) && Nat.leb (nat_of_ascii c) 57)%bool.

(** The longest prefix of digits, and the rest. *)
Fixpoint take_digits (s : string) : string * string :=
  match s with
  | String c s' =>
      if is_digit c then let (d, r) := take_digits s' in (String c d, r)
      else (EmptyString, s)
  | EmptyString => (EmptyString, EmptyString)
  end.

(** [re.match] of the size patterns of [add_extra_info] (the label
    [Program:] or [Data:]), giving group 1. A line matches when it is the label, any number of spaces, a possibly
    empty group of digits, then a space and [bytes] ending the line. Both
    repetitions are greedy; when the digit group is empty the regex
    backtracks one space out of the space repetition so that it can match
    the space before [bytes]. *)
Definition match_field (label line : string) : option string :=
  match strip_prefix label line with
  | None => None
  | Some r =>
      let (n, r1) := skip_spaces r in
      let (d, r2) := take_digits r1 in
      match d with
      | EmptyString =>
          if (Nat.ltb 0 n && String.eqb r1 "bytes")%bool then Some EmptyString
          else None
      | String _ _ => if String.eqb r2 " bytes" then Some d else None
      end
  end.

Fixpoint digits_value (acc : Z) (s : string) : Z :=
  match s with
  | EmptyString => acc
  | String c s' => digits_value (acc * 10 + (Z.of_nat (nat_of_ascii c) - 48)) s'
  end.

(** [int(group)] on a string of ASCII digits: [int(b'')] raises. *)
Definition py_int (d : string) : result Z :=
  match d with
  | EmptyString => Err ValueError
  | _ => Ok (digits_value 0 d)
  end.

(** One iteration of the loop over the lines of the [avr-size] output. *)
Definition scan_size_line (line : string) (b : build) : result build :=
  b1 <- match match_field "Program:" line with
        | Some g => v <- py_int g ;; Ok (set_program_size v b)
        | None => Ok b
        end ;;
  match match_field "Data:" line with
  | Some g => v <- py_int g ;; Ok (set_data_size v b1)
  | None => Ok b1
  end.

Fixpoint scan_size_lines (lines : list string) (b : build) : result build :=
  match lines with
  | [] => Ok b
  | l :: ls => b1 <- scan_size_line l b ;; scan_size_lines ls b1
  end.

Definition elffile (p : path) (b : build) : path :=
  (p ++ ["build"; (sketch_name b ++ ".cpp.elf")%string])%list.
Definition hexfile (p : path) (b : build) : path :=
  (p ++ ["build"; (sketch_name b ++ ".cpp.hex")%string])%list.

Definition add_extra_info (E : env) (p : path) (b : build) : result build :=
  match run_size E (elffile p b) with
  | ProcNonZero => Err CalledProcessError
  | ProcNoExec => Err FileNotFoundError
  | ProcOk lines =>
      b1 <- scan_size_lines lines b ;;
      match read_file E (hexfile p b) with
      | None => Err FileNotFoundError
      | Some contents => Ok (set_hash (sha1_hexdigest E contents) b1)
      end
  end.

(** ** Dataset builder: [create_report_data] *)

Definition key := (string * string * string)%type.
Definition dataset := list (key * build).

Definition key_of (b : build) : key := (buildset b, sketch_dir b, board b).

Definition key_eqb (k1 k2 : key) : bool :=
  match k1, k2 with
  | (a1, b1, c1), (a2, b2, c2) =>
      (String.eqb a1 a2 && String.eqb b1 b2 && String.eqb c1 c2)%bool
  end.

(** [data[k]] as an option. *)
Fixpoint dict_get (k : key) (d : dataset) : option build :=
  match d with
  | [] => None
  | (k', v) :: d' => if key_eqb k k' then Some v else dict_get k d'
  end.

(** [data[k] = v]: an existing key keeps its place, a new one goes last. *)
Fixpoint dict_set (k : key) (v : build) (d : dataset) : dataset :=
  match d with
  | [] => [(k, v)]
  | (k', v') :: d' =>
      if key_eqb k k' then (k', v) :: d' else (k', v') :: dict_set k v d'
  end.

(** [buildsets.add(s)] on a set kept as a duplicate-free list. *)
Definition set_add (s : string) (l : list string) : list string :=
  if existsb (String.eqb s) l then l else (l ++ [s])%list.

(** The body of the loop of [create_report_data] for one build. *)
Definition process_build (E : env) (p : path) (raw : raw_build) : result build :=
  let b0 := of_raw raw in
  let b1 := if negb (Z.eqb (exit_code b0) 0)
            then set_status Failed_to_compile b0 else b0 in
  b2 <- match status_f b1 with
        | None =>
            match add_extra_info E p b1 with
            | Ok b => Ok b
            | Err CalledProcessError => Ok (set_status Failed_to_get_size b1)
            | Err e => Err e
            end
        | Some _ => Ok b1
        end ;;
  Ok (match status_f b2 with
      | None => set_status OK b2
      | Some _ => b2
      end).

Fixpoint crd_loop (E : env) (entries : list (path * option raw_build))
  (data : dataset) (buildsets : list string)
  : result (dataset * list string) :=
  match entries with
  | [] => Ok (data, buildsets)
  | (_, None) :: _ => Err JSONDecodeError
  | (p, Some raw) :: rest =>
      b <- process_build E p raw ;;
      crd_loop E rest (dict_set (key_of b) b data) (set_add (buildset b) buildsets)
  end.

Definition create_report_data (E : env) (results_dir : dir)
  : result (dataset * list string) :=
  crd_loop E (find_builds results_dir) [] [].

(** ** Delta engine: [add_delta_info] *)

(** The warning written to [sys.stderr] for a build without a base. *)
Definition no_base_warning (b : build) : string :=
  buildset b ++ " / " ++ sketch_dir b ++ " / " ++ board b
  ++ ": No corresponding build in base buildset found, cannot compare"
  ++ String "010"%char EmptyString.

(** [b['status'] == 'OK'] *)
Definition is_ok (o : option status) : result bool :=
  s <- getitem o ;; Ok (status_eqb s OK).

(** [build['status'] == 'OK' and base_build['status'] == 'OK'], with the
    short circuit of [and]. *)
Definition both_ok (b bb : build) : result bool :=
  o1 <- is_ok (status_f b) ;;
  if o1 then is_ok (status_f bb) else Ok false.

(** The body of the loop of [add_delta_info] for one build [b0]: [lookup]
    reads [data] after the assignment of ['is_base']. Returns what is
    written to [sys.stderr] and the annotated build. *)
Definition annotate (base : string) (lookup : key -> option build) (b0 : build)
  : list string * result build :=
  let b := set_is_base (String.eqb (buildset b0) base) b0 in
  if String.eqb (buildset b) base then
    let b1 := set_delta_status Is_base b in
    ([], ok <- is_ok (status_f b1) ;;
         Ok (if ok then set_delta_data_size 0 (set_delta_program_size 0 b1)
             else b1))
  else
    match lookup (base, sketch_dir b, board b) with
    | None => ([no_base_warning b], Ok (set_delta_status No_base b))
    | Some bb =>
        ([],
         ok2 <- both_ok b bb ;;
         ds <- (if ok2 then
                  h1 <- getitem (hash b) ;; h2 <- getitem (hash bb) ;;
                  Ok (if String.eqb h1 h2 then Identical else Modified)
                else
                  o1 <- is_ok (status_f b) ;;
                  if o1 then Ok Fixed
                  else (o2 <- is_ok (status_f bb) ;;
                        Ok (if o2 then Broken else Still_broken))) ;;
         let b1 := set_delta_status ds b in
         ok3 <- both_ok b1 bb ;;
         if ok3 then
           p1 <- getitem (program_size b1) ;;
           p2 <- getitem (program_size bb) ;;
           let b1' := set_delta_program_size (p1 - p2) b1 in
           d1 <- getitem (data_size b1') ;;
           d2 <- getitem (data_size bb) ;;
           Ok (set_delta_data_size (d1 - d2) b1')
         else Ok b1)
    end.

(** One iteration of the loop of [add_delta_info], for the build stored
    under [k]. The build is mutated in place: the assignment of
    ['is_base'] is visible in [data] when the base build is looked up, and
    the annotated build is what [data] holds under [k] afterwards. *)
Definition delta_one (base : string) (k : key) (data : dataset)
  : list string * result dataset :=
  match dict_get k data with
  | None => ([], Err KeyError)
  | Some b0 =>
      let data1 := dict_set k (set_is_base (String.eqb (buildset b0) base) b0) data in
      let (w, r) := annotate base (fun k' => dict_get k' data1) b0 in
      (w, b <- r ;; Ok (dict_set k b data1))
  end.

Fixpoint delta_loop (base : string) (keys : list key) (data : dataset)
  : list string * result dataset :=
  match keys with
  | [] => ([], Ok data)
  | k :: ks =>
      let (w, r) := delta_one base k data in
      match r with
      | Err e => (w, Err e)
      | Ok data1 => let (w2, r2) := delta_loop base ks data1 in ((w ++ w2)%list, r2)
      end
  end.

(** [for (key, build) in data.items(): ...]: the keys do not change while
    the loop runs, the values are read live. *)
Definition add_delta_info (data : dataset) (base : string)
  : list string * result dataset :=
  delta_loop base (map fst data) data.

(** ** Report renderer *)

(** A cell value as handed to [csv.writer]. *)
Inductive pyval := PStr (s : string) | PInt (z : Z).

Definition report_attrs : list string :=
  ["buildset"; "sketch_dir"; "board"; "status"; "program_size"; "data_size"].
Definition delta_attrs : list string :=
  ["delta_status"; "delta_program_size"; "delta_data_size"; "is_base"].

Definition opt_map {A B} (f : A -> B) (o : option A) : option B :=
  match o with Some a => Some (f a) | None => None end.

(** [build.get(attr)] on the dict of a build. *)
Definition build_get (b : build) (attr : string) : option pyval :=
  if String.eqb attr "exit_code" then Some (PInt (exit_code b))
  else if String.eqb attr "sketch_dir" then Some (PStr (sketch_dir b))
  else if String.eqb attr "sketch_name" then Some (PStr (sketch_name b))
  else if String.eqb attr "board" then Some (PStr (board b))
  else if String.eqb attr "buildset" then Some (PStr (buildset b))
  else if String.eqb attr "status" then opt_map (fun s => PStr (status_str s)) (status_f b)
  else if String.eqb attr "program_size" then opt_map PInt (program_size b)
  else if String.eqb attr "data_size" then opt_map PInt (data_size b)
  else if String.eqb attr "hash" then opt_map PStr (hash b)
  else if String.eqb attr "is_base" then
    opt_map (fun v : bool => PStr (if v then "Yes" else "No")) (is_base b)
  else if String.eqb attr "delta_status" then
    opt_map (fun d => PStr (delta_status_str d)) (delta_status_f b)
  else if String.eqb attr "delta_program_size" then opt_map PInt (delta_program_size b)
  else if String.eqb attr "delta_data_size" then opt_map PInt (delta_data_size b)
  else None.

(** The UTF-8 bytes of the Greek capital delta. *)
Definition delta_sign : string := String "206"%char (String "148"%char EmptyString).

(** [report_headers.get(attr)] *)
Definition report_headers (attr : string) : option pyval :=
  if String.eqb attr "buildset" then Some (PStr "Buildset")
  else if String.eqb attr "sketch_dir" then Some (PStr "Sketch")
  else if String.eqb attr "board" then Some (PStr "Board")
  else if String.eqb attr "status" then Some (PStr "Status")
  else if String.eqb attr "program_size" then Some (PStr "Program size")
  else if String.eqb attr "data_size" then Some (PStr "Data size")
  else if String.eqb attr "delta_status" then Some (PStr (delta_sign ++ " status"))
  else if String.eqb attr "delta_program_size" then Some (PStr (delta_sign ++ " program size"))
  else if String.eqb attr "delta_data_size" then Some (PStr (delta_sign ++ " data size"))
  else if String.eqb attr "is_base" then Some (PStr "In base buildset")
  else None.

(** Python truthiness of [opts.base_set] ([None] or a string). *)
Definition truthy (o : option string) : bool :=
  match o with
  | Some s => negb (String.eqb s "")
  | None => false
  end.

Definition build_report_row (get : string -> option pyval) (delta : option string)
  : list pyval :=
  let cell a := match get a with Some v => v | None => PStr "" end in
  (map cell report_attrs ++ (if truthy delta then map cell delta_attrs else []))%list.

(** Tuple comparison of keys: lexicographic on the three strings. *)
Definition key_compare (k1 k2 : key) : comparison :=
  match k1, k2 with
  | (a1, b1, c1), (a2, b2, c2) =>
      match String.compare a1 a2 with
      | Eq => match String.compare b1 b2 with
              | Eq => String.compare c1 c2
              | c => c
              end
      | c => c
      end
  end.

(** [sorted(data.items())]. The keys of a dict are distinct, so the items
    are ordered by their keys alone and every stable sort gives the
    result of Python's; this one is insertion sort. *)
Fixpoint insert_item (kb : key * build) (l : dataset) : dataset :=
  match l with
  | [] => [kb]
  | kb' :: l' =>
      match key_compare (fst kb) (fst kb') with
      | Gt => kb' :: insert_item kb l'
      | _ => kb :: l
      end
  end.

Fixpoint sort_items (l : dataset) : dataset :=
  match l with
  | [] => []
  | kb :: l' => insert_item kb (sort_items l')
  end.

(** The rows written to [data.csv]: the header, then one row per item. *)
Definition render (data : dataset) (base_set : option string) : list (list pyval) :=
  build_report_row report_headers base_set
  :: map (fun kb => build_report_row (build_get (snd kb)) base_set) (sort_items data).

(** The automatic choice of the base buildset in [report]. *)
Definition select_base (base_set : option string) (buildsets : list string)
  : option string :=
  if (Nat.ltb 1 (length buildsets) && negb (truthy base_set)
      && existsb (String.eqb "base") buildsets)%bool
  then Some "base" else base_set.

(** The [report] command: what it writes to [sys.stderr], and the rows of
    [data.csv] or the exception that aborts it. *)
Definition report (E : env) (results_dir : dir) (base_set : option string)
  : list string * result (list (list pyval)) :=
  match create_report_data E results_dir with
  | Err e => ([], Err e)
  | Ok (data, buildsets) =>
      let base := select_base base_set buildsets in
      match base with
      | Some b =>
          if truthy base then
            let (w, r) := add_delta_info data b in
            (w, d <- r ;; Ok (render d base))
          else ([], Ok (render data base))
      | None => ([], Ok (render data base))
      end
  end.

(** A record read from [build.json] with the measurement keys given. *)
Definition measured (r : raw_build) (st : status) (ps ds : option Z)
  (h : option string) : build :=
  {| exit_code := r_exit_code r; sketch_dir := r_sketch_dir r;
     sketch_name := r_sketch_name r; board := r_board r;
     buildset := r_buildset r; status_f := Some st; program_size := ps;
     data_size := ds; hash := h; is_base := None;
     delta_status_f := None; delta_program_size := None;
     delta_data_size := None |}.

(** ** Sample inputs

    A result directory [base/blink/uno] and [next/blink/uno], as written by
    [do_compile] for the sketch [blink/blink.ino] and the board [uno], and
    environments with a given [avr-size] outcome and [.hex] contents. *)

Definition raw_blink (bs bd : string) (exit : Z) : raw_build :=
  {| r_exit_code := exit; r_sketch_dir := "blink"; r_sketch_name := "blink";
     r_board := bd; r_buildset := bs |}.

(** A finished build directory: [build.json], [build.log] and [build/]. *)
Definition record_dir (r : raw_build) : dir :=
  Dir [("build.json", Some r); ("build.log", None)] [("build", Dir [] [])].

Definition buildset_dir (r : raw_build) : dir :=
  Dir [] [("blink", Dir [("blink.ino", None)] [(r_board r, record_dir r)])].

Definition tree_base : dir :=
  Dir [] [("base", buildset_dir (raw_blink "base" "uno" 0))].

Definition tree_base_next : dir :=
  Dir [] [("base", buildset_dir (raw_blink "base" "uno" 0));
          ("next", buildset_dir (raw_blink "next" "uno" 0))].

(** The same build copied to a second place in the result directory. *)
Definition tree_copied : dir :=
  Dir [] [("base", buildset_dir (raw_blink "base" "uno" 0));
          ("old", Dir [] [("base", buildset_dir (raw_blink "base" "uno" 0))])].

Definition size_output : list string :=
  ["AVR Memory Usage"; "----------------"; "Device: Unknown"; "";
   "Program:     924 bytes"; "(.text + .data + .bootloader)"; "";
   "Data:          9 bytes"; "(.data + .bss + .noinit)"].

Definition sample_env (out : proc_result) (hex : option string) : env :=
  {| run_size := fun _ => out; read_file := fun _ => hex;
     sha1_hexdigest := fun _ => "5f1c" |}.

Definition good_env : env := sample_env (ProcOk size_output) (Some ":00000001FF").

(** The record [good_env] makes of a build with exit status 0. *)
Definition sample_build (bs bd : string) : build :=
  measured (raw_blink bs bd 0) OK (Some 924%Z) (Some 9%Z) (Some "5f1c").

Definition base_next_data : dataset :=
  [(("base", "blink", "uno"), sample_build "base" "uno");
   (("next", "blink", "uno"), sample_build "next" "uno")].

(** A build of [next] for a board that [base] was not built for. *)
Definition base_leonardo_data : dataset :=
  [(("base", "blink", "uno"), sample_build "base" "uno");
   (("next", "blink", "leonardo"), sample_build "next" "leonardo")].

(** ** The [build] command

    The command line of [build] ([re.split] of [--boards], the check of the
    sketch paths), the paths of [pathlib], the file system that
    [do_compile] works on and [do_compile] itself. *)

(** [re.split(p, s)] for a pattern [p] of the form [[C]+]: the matches are
    the maximal runs of characters of the class [C], and the result is the
    list of the pieces between them. The automaton reads [s] left to right:
    [cur] is the piece being read, [in_run] tells that the previous
    character belongs to a run. *)
Fixpoint split_runs (sep : ascii -> bool) (s cur : string) (in_run : bool)
  : list string :=
  match s with
  | EmptyString => [cur]
  | String c s' =>
      if sep c then
        if in_run then split_runs sep s' "" true
        else cur :: split_runs sep s' "" true
      else split_runs sep s' (cur ++ String c EmptyString) false
  end.

Definition re_split_runs (sep : ascii -> bool) (s : string) : list string :=
  split_runs sep s "" false.

(** The class [[\s,]] of Python's [re] on [str], on the code points
    0 to 255: the characters for which [str.isspace] holds, and the comma. *)
Definition is_board_sep (c : ascii) : bool :=
  let n := nat_of_ascii c in
  (((9 <=? n) && (n <=? 13)) || ((28 <=? n) && (n <=? 32))
  || (n =? 44) || (n =? 133) || (n =? 160))%nat.

(** [boardlist = re.split('[\s,]+', boards)] *)
Definition board_list (boards : string) : list string :=
  re_split_runs is_board_sep boards.

Fixpoint all_chars (f : ascii -> bool) (s : string) : bool :=
  match s with
  | EmptyString => true
  | String c s' => f c && all_chars f s'
  end.

(** The string [p0 ++ r1 ++ p1 ++ ... ++ rk ++ pk] for [rps = [(r1, p1); ...]]. *)
Fixpoint weave (p0 : string) (rps : list (string * string)) : string :=
  match rps with
  | [] => p0
  | (r, p) :: rest => p0 ++ r ++ weave p rest
  end.

(** The pieces contain no separator, the runs are non-empty and made of
    separators, and the pieces between two runs are non-empty. *)
Fixpoint weave_ok (sep : ascii -> bool) (p0 : string) (rps : list (string * string))
  : Prop :=
  all_chars (fun c => negb (sep c)) p0 = true /\
  match rps with
  | [] => True
  | (r, p) :: rest =>
      r <> "" /\ all_chars sep r = true
      /\ (rest <> [] -> p <> "") /\ weave_ok sep p rest
  end.

Definition starts_with_sep (sep : ascii -> bool) (s : string) : bool :=
  match s with String c _ => sep c | EmptyString => false end.

Fixpoint last_char (s : string) : option ascii :=
  match s with
  | EmptyString => None
  | String c s' => match last_char s' with Some c' => Some c' | None => Some c end
  end.

Definition ends_with_sep (sep : ascii -> bool) (s : string) : bool :=
  match last_char s with Some c => sep c | None => false end.


(** ** Paths: [pathlib.PurePosixPath] *)

(** [s.split(c)]: the pieces between the occurrences of [c]. *)
Fixpoint str_split_aux (c : ascii) (s cur : string) : list string :=
  match s with
  | EmptyString => [cur]
  | String x s' =>
      if Ascii.eqb x c then cur :: str_split_aux c s' ""
      else str_split_aux c s' (cur ++ String x EmptyString)
  end.

Definition str_split (c : ascii) (s : string) : list string := str_split_aux c s "".

(** A path: its anchor ([''], ['/'] or ['//']) and its components, none of
    them empty or ['.']. *)
Record ppath := { p_root : string; p_parts : list string }.

(** [PurePosixPath(s)]: [posixpath.splitroot], then the components of the
    rest, without the empty ones and ['.']. *)
Definition parse_path (s : string) : ppath :=
  let (root, rel) :=
    match s with
    | String "/" (String "/" (String "/" r)) => ("/", String "/" (String "/" r))
    | String "/" (String "/" r) => ("//", r)
    | String "/" r => ("/", r)
    | _ => ("", s)
    end in
  {| p_root := root;
     p_parts := filter (fun x => negb (String.eqb x "") && negb (String.eqb x "."))
                       (str_split "/" rel) |}.

(** [p / q] *)
Definition path_div (p q : ppath) : ppath :=
  if String.eqb (p_root q) "" then {| p_root := p_root p; p_parts := p_parts p ++ p_parts q |}
  else q.

(** [p / s] for a string [s] *)
Definition path_div_str (p : ppath) (s : string) : ppath := path_div p (parse_path s).

(** [str(p)] *)
Definition path_str (p : ppath) : string :=
  match p_root p, p_parts p with
  | EmptyString, [] => "."
  | r, parts => r ++ String.concat "/" parts
  end.

(** [p.parent] *)
Definition path_parent (p : ppath) : ppath :=
  match p_parts p with
  | [] => p
  | _ => {| p_root := p_root p; p_parts := removelast (p_parts p) |}
  end.

(** [p.name] *)
Definition path_name (p : ppath) : string := last (p_parts p) "".

(** [s.rfind(c)] *)
Fixpoint rfind (c : ascii) (s : string) : option nat :=
  match s with
  | EmptyString => None
  | String x s' =>
      match rfind c s' with
      | Some i => Some (S i)
      | None => if Ascii.eqb x c then Some 0 else None
      end
  end.

(** [p.stem] *)
Definition path_stem (p : ppath) : string :=
  let name := path_name p in
  match rfind "." name with
  | Some i => if (0 <? i)%nat && (i <? String.length name - 1)%nat
              then substring 0 i name else name
  | None => name
  end.

(** [p.parts] *)
Definition path_parts (p : ppath) : list string :=
  if String.eqb (p_root p) "" then p_parts p else p_root p :: p_parts p.

(** [p.is_absolute()] *)
Definition path_is_absolute (p : ppath) : bool := negb (String.eqb (p_root p) "").

(** ** The [build] command *)

Inductive cli_error := UsageError (msg : string) | IndexError.

Definition relative_msg : string :=
  "Sketch filenames must be relative paths, inside the current directory".

(** The first loop of [build]: [ctx.fail] on the first bad sketch. *)
Fixpoint check_sketches (sketches : list ppath) : option cli_error :=
  match sketches with
  | [] => None
  | s :: rest =>
      if path_is_absolute s then Some (UsageError relative_msg)
      else match path_parts s with
           | [] => Some IndexError
           | p0 :: _ => if String.eqb p0 ".." then Some (UsageError relative_msg)
                        else check_sketches rest
           end
  end.

(** The calls [do_compile(opts, sketch, board)] that [build] makes, in order. *)
Definition build_calls (sketches : list ppath) (boards : string)
  : cli_error + list (ppath * string) :=
  match check_sketches sketches with
  | Some e => inl e
  | None =>
      let boardlist := board_list boards in
      inr (flat_map (fun sketch => map (fun board => (sketch, board)) boardlist) sketches)
  end.

(** ** The file system seen by [do_compile]

    The whole tree from ['/'] is a [dir]; the contents of a file matter only
    through what [json.load] reads from it. A path is resolved by the kernel
    component by component. *)

(** The [OSError]s the file operations raise. *)
Module FS.
Inductive fs_exn := FileNotFoundError | NotADirectoryError | FileExistsError
                  | IsADirectoryError | OSError.
End FS.

Inductive node := NFile (c : option raw_build) | NDir (d : dir).

(** The subdirectory called [n] (names are unique in a directory). *)
Fixpoint dir_child (n : string) (ss : list (string * dir)) : option dir :=
  match ss with
  | [] => None
  | (m, d) :: ss' => if String.eqb m n then Some d else dir_child n ss'
  end.

Definition child_node (d : dir) (n : string) : option node :=
  match dir_child n (dir_subdirs d) with
  | Some d' => Some (NDir d')
  | None => match find_file n (dir_files d) with
            | Some c => Some (NFile c)
            | None => None
            end
  end.

(** The entry at the path from ['/'] given by its names: the kernel's walk
    along a path without ['..']. *)
Fixpoint fs_resolve (p : list string) (d : dir) : FS.fs_exn + node :=
  match p with
  | [] => inr (NDir d)
  | n :: p' =>
      match child_node d n with
      | Some (NDir d') => fs_resolve p' d'
      | Some (NFile c) => match p' with [] => inr (NFile c) | _ => inl FS.NotADirectoryError end
      | None => inl FS.FileNotFoundError
      end
  end.

(** Whether [fs_resolve] finds an entry. *)
Definition fs_exists (p : list string) (d : dir) : bool :=
  match fs_resolve p d with inr _ => true | inl _ => false end.

Fixpoint set_child (n : string) (d' : dir) (ss : list (string * dir)) : list (string * dir) :=
  match ss with
  | [] => [(n, d')]
  | (m, d) :: ss' => if String.eqb m n then (m, d') :: ss' else (m, d) :: set_child n d' ss'
  end.

Fixpoint remove_child (n : string) (ss : list (string * dir)) : list (string * dir) :=
  match ss with
  | [] => []
  | (m, d) :: ss' => if String.eqb m n then ss' else (m, d) :: remove_child n ss'
  end.

Fixpoint set_file (n : string) (c : option raw_build) (fs : list (string * option raw_build))
  : list (string * option raw_build) :=
  match fs with
  | [] => [(n, c)]
  | (m, c0) :: fs' => if String.eqb m n then (m, c) :: fs' else (m, c0) :: set_file n c fs'
  end.

(** Apply [f] to the directory at [p]; nothing changes if there is none. *)
Fixpoint fs_modify (f : dir -> dir) (p : list string) (d : dir) : dir :=
  match p with
  | [] => f d
  | n :: p' =>
      match d with
      | Dir fs ss =>
          match dir_child n ss with
          | Some d' => Dir fs (set_child n (fs_modify f p' d') ss)
          | None => d
          end
      end
  end.

(** A chain of new empty directories. *)
Fixpoint fresh_dirs (p : list string) : dir :=
  match p with
  | [] => Dir [] []
  | n :: p' => Dir [] [(n, fresh_dirs p')]
  end.

(** ** Paths and the system calls on them *)

(** [Path.resolve()]: [os.path.realpath] of the path seen from the working
    directory [cwd]. Without symbolic links it drops every ['..'] with the
    component before it, as text, whatever the tree holds. *)
Fixpoint norm_aux (acc : list string) (ps : list string) : list string :=
  match ps with
  | [] => rev acc
  | x :: ps' => if String.eqb x ".." then norm_aux (tl acc) ps' else norm_aux (x :: acc) ps'
  end.

Definition os_path (cwd : list string) (p : ppath) : list string :=
  norm_aux [] ((if String.eqb (p_root p) "" then cwd else []) ++ p_parts p).

(** Where the kernel starts the walk along [p]: the working directory
    [cwd] (its path from ['/'], as [os.getcwd()] gives it) for a relative
    path, ['/'] otherwise. *)
Definition path_anchor (cwd : list string) (p : ppath) : list string :=
  if String.eqb (p_root p) "" then cwd else [].

Definition path_comps (cwd : list string) (p : ppath) : list string :=
  (path_anchor cwd p ++ p_parts p)%list.

(** The kernel's walk along the components [cs] from the directory at
    [loc]: ['..'] goes to the parent (['/'] is its own parent), any other
    name to an entry of the directory, which must be a directory unless it
    is the last component. The result is the place reached and what is
    there. *)
Fixpoint walk_from (loc : list string) (cs : list string) (d : dir)
  : FS.fs_exn + (list string * node) :=
  match cs with
  | [] =>
      match fs_resolve loc d with
      | inl e => inl e
      | inr n => inr (loc, n)
      end
  | c :: cs' =>
      if String.eqb c ".." then walk_from (removelast loc) cs' d
      else
        match fs_resolve (loc ++ [c])%list d with
        | inl e => inl e
        | inr (NDir _) => walk_from (loc ++ [c])%list cs' d
        | inr (NFile f) =>
            match cs' with
            | [] => inr ((loc ++ [c])%list, NFile f)
            | _ => inl FS.NotADirectoryError
            end
        end
  end.

(** [os.stat(p)] *)
Definition os_stat (cwd : list string) (p : ppath) (d : dir)
  : FS.fs_exn + (list string * node) :=
  walk_from [] (path_comps cwd p) d.

(** [Path.exists()] *)
Definition path_exists (cwd : list string) (p : ppath) (d : dir) : bool :=
  match os_stat cwd p d with inr _ => true | inl _ => false end.

(** [Path.is_dir()] *)
Definition path_is_dir (cwd : list string) (p : ppath) (d : dir) : bool :=
  match os_stat cwd p d with inr (_, NDir _) => true | _ => false end.

(** [os.mkdir(p)]: the components but the last lead to a directory, in
    which the last one is created; ['.'], ['/'] and ['..'] exist. *)
Definition os_mkdir (cwd : list string) (p : ppath) (d : dir) : FS.fs_exn + dir :=
  match p_parts p with
  | [] => inl FS.FileExistsError
  | _ =>
      let n := last (p_parts p) "" in
      match os_stat cwd (path_parent p) d with
      | inl e => inl e
      | inr (_, NFile _) => inl FS.NotADirectoryError
      | inr (loc, NDir e) =>
          if String.eqb n ".." then inl FS.FileExistsError
          else
            match child_node e n with
            | Some _ => inl FS.FileExistsError
            | None =>
                inr (fs_modify (fun e => Dir (dir_files e) (dir_subdirs e ++ [(n, Dir [] [])]))
                               loc d)
            end
      end
  end.

(** [Path.mkdir(parents=False, exist_ok=exist_ok)]: the tree afterwards and
    the exception raised, if any. *)
Definition mkdir_plain (cwd : list string) (p : ppath) (exist_ok : bool) (d : dir)
  : dir * option FS.fs_exn :=
  match os_mkdir cwd p d with
  | inr d' => (d', None)
  | inl FS.FileNotFoundError => (d, Some FS.FileNotFoundError)
  | inl e => if exist_ok && path_is_dir cwd p d then (d, None) else (d, Some e)
  end.

(** [Path.mkdir(parents=True, exist_ok=exist_ok)] of the path with the root
    [root] and the components [rev rparts]: [os.mkdir], and on
    [FileNotFoundError] the parent first ([self.parent.mkdir(parents=True,
    exist_ok=True)]). Directories made before an exception stay. *)
Fixpoint mkdir_parents_rev (cwd : list string) (root : string) (rparts : list string)
  (exist_ok : bool) (d : dir) : dir * option FS.fs_exn :=
  let p := {| p_root := root; p_parts := rev rparts |} in
  match os_mkdir cwd p d with
  | inr d' => (d', None)
  | inl FS.FileNotFoundError =>
      match rparts with
      | [] => (d, Some FS.FileNotFoundError)
      | _ :: rparts' =>
          match mkdir_parents_rev cwd root rparts' true d with
          | (d1, Some e) => (d1, Some e)
          | (d1, None) => mkdir_plain cwd p exist_ok d1
          end
      end
  | inl e => if exist_ok && path_is_dir cwd p d then (d, None) else (d, Some e)
  end.

(** [Path.mkdir(parents=True)] *)
Definition mkdir_parents (cwd : list string) (p : ppath) (d : dir) : dir * option FS.fs_exn :=
  mkdir_parents_rev cwd (p_root p) (rev (p_parts p)) false d.

(** [os.rmdir(p)]: ['.'] gives [EINVAL], ['/'] [EBUSY] and ['..'] or a
    directory with entries [ENOTEMPTY], all a plain [OSError]. *)
Definition os_rmdir (cwd : list string) (p : ppath) (d : dir) : FS.fs_exn + dir :=
  match p_parts p with
  | [] => inl FS.OSError
  | _ =>
      let n := last (p_parts p) "" in
      match os_stat cwd (path_parent p) d with
      | inl e => inl e
      | inr (_, NFile _) => inl FS.NotADirectoryError
      | inr (loc, NDir e) =>
          if String.eqb n ".." then inl FS.OSError
          else
            match child_node e n with
            | None => inl FS.FileNotFoundError
            | Some (NFile _) => inl FS.NotADirectoryError
            | Some (NDir (Dir [] [])) =>
                inr (fs_modify (fun e => Dir (dir_files e) (remove_child n (dir_subdirs e)))
                               loc d)
            | Some (NDir _) => inl FS.OSError
            end
      end
  end.

(** [shutil.rmtree(p)]: [os.lstat] and [os.open] of [p], removal of all
    its entries (on a file, [os.scandir] raises), then [os.rmdir(p)] in the
    tree as it is by then. *)
Definition rmtree (cwd : list string) (p : ppath) (d : dir) : dir * option FS.fs_exn :=
  match os_stat cwd p d with
  | inl e => (d, Some e)
  | inr (_, NFile _) => (d, Some FS.NotADirectoryError)
  | inr (loc, NDir _) =>
      let d1 := fs_modify (fun _ => Dir [] []) loc d in
      match os_rmdir cwd p d1 with
      | inl e => (d1, Some e)
      | inr d2 => (d2, None)
      end
  end.

(** [open(p, 'w')] followed by writing [c]. *)
Definition open_write (cwd : list string) (p : ppath) (c : option raw_build) (d : dir)
  : FS.fs_exn + dir :=
  match p_parts p with
  | [] => inl FS.IsADirectoryError
  | _ =>
      let n := last (p_parts p) "" in
      match os_stat cwd (path_parent p) d with
      | inl e => inl e
      | inr (_, NFile _) => inl FS.NotADirectoryError
      | inr (loc, NDir e) =>
          if String.eqb n ".." then inl FS.IsADirectoryError
          else
            match dir_child n (dir_subdirs e) with
            | Some _ => inl FS.IsADirectoryError
            | None => inr (fs_modify (fun e => Dir (set_file n c (dir_files e)) (dir_subdirs e))
                                     loc d)
            end
      end
  end.

(** ** The same operations on a path from ['/'] without ['..']

    There the kernel's walk is [fs_resolve], and each of the operations
    above is one step (see [mkdir_parents_clean], [rmtree_clean] and
    [open_write_clean]). *)

Fixpoint mkdir_parents_abs (p : list string) (d : dir) : FS.fs_exn + dir :=
  match p with
  | [] => inl FS.FileExistsError
  | n :: p' =>
      match child_node d n, p' with
      | Some _, [] => inl FS.FileExistsError
      | Some (NDir d'), _ =>
          match mkdir_parents_abs p' d' with
          | inl e => inl e
          | inr d'' => inr (Dir (dir_files d) (set_child n d'' (dir_subdirs d)))
          end
      | Some (NFile _), _ => inl FS.NotADirectoryError
      | None, _ => inr (Dir (dir_files d) (dir_subdirs d ++ [(n, fresh_dirs p')]))
      end
  end.

Definition rmtree_abs (p : list string) (d : dir) : FS.fs_exn + dir :=
  match fs_resolve p d with
  | inl e => inl e
  | inr (NFile _) => inl FS.NotADirectoryError
  | inr (NDir _) =>
      match p with
      | [] => inr (Dir [] [])
      | _ => inr (fs_modify (fun e => Dir (dir_files e) (remove_child (last p "") (dir_subdirs e)))
                            (removelast p) d)
      end
  end.

Definition fs_write_abs (p : list string) (c : option raw_build) (d : dir) : FS.fs_exn + dir :=
  match p with
  | [] => inl FS.IsADirectoryError
  | _ =>
      let n := last p "" in
      match fs_resolve (removelast p) d with
      | inl e => inl e
      | inr (NFile _) => inl FS.NotADirectoryError
      | inr (NDir e) =>
          match dir_child n (dir_subdirs e) with
          | Some _ => inl FS.IsADirectoryError
          | None => inr (fs_modify (fun e => Dir (set_file n c (dir_files e)) (dir_subdirs e))
                                   (removelast p) d)
          end
      end
  end.

(** ** [do_compile] *)

(** The compiler [arduino-git --verify]: given the build directory, the
    board and the sketch (by [Path.resolve()]), it cannot be started
    ([None]), or it exits with a status and leaves the contents of the build
    directory. *)
Record arduino_env := { run_arduino : list string -> string -> list string -> option (Z * dir) }.

Inductive dc_outcome := Skipped | Compiled (res : Z) | Raised (e : FS.fs_exn).

(** The record written to [build.json]. *)
Definition build_record (buildset : string) (sketch : ppath) (board : string) (res : Z)
  : raw_build :=
  {| r_exit_code := res; r_sketch_dir := path_str (path_parent sketch);
     r_sketch_name := path_stem sketch; r_board := board; r_buildset := buildset |}.

(** [opts.results_dir / opts.buildset / sketch.parent / board] *)
Definition sketch_result_dir (results_dir : ppath) (buildset : string) (sketch : ppath)
  (board : string) : ppath :=
  path_div_str (path_div (path_div_str results_dir buildset) (path_parent sketch)) board.

(** The end of [do_compile], from [build_dir.mkdir(parents=True)] on, for
    the record directory [srd]; [run_command] opens [build.log] before it
    starts the compiler. *)
Definition compile_into (A : arduino_env) (cwd : list string) (buildset : string)
  (sketch : ppath) (board : string) (srd : ppath) (fs0 : dir) : dir * dc_outcome :=
  let build_dir := path_div_str srd "build" in
  let json_file := path_div_str srd "build.json" in
  let log_file := path_div_str srd "build.log" in
  match mkdir_parents cwd build_dir fs0 with
  | (fs1, Some e) => (fs1, Raised e)
  | (fs1, None) =>
      match open_write cwd log_file None fs1 with
      | inl e => (fs1, Raised e)
      | inr fs2 =>
          match run_arduino A (os_path cwd build_dir) board (os_path cwd sketch) with
          | None => (fs2, Raised FS.FileNotFoundError)
          | Some (res, out) =>
              let fs3 := fs_modify (fun _ => out) (os_path cwd build_dir) fs2 in
              match open_write cwd json_file (Some (build_record buildset sketch board res)) fs3 with
              | inl e => (fs3, Raised e)
              | inr fs4 => (fs4, Compiled res)
              end
          end
      end
  end.

(** [do_compile] with [opts.main.verbose = 0]: the tree afterwards and how
    the call ends. *)
Definition do_compile (A : arduino_env) (cwd : list string) (results_dir : ppath)
  (buildset : string) (force : bool) (sketch : ppath) (board : string) (fs : dir)
  : dir * dc_outcome :=
  let srd := sketch_result_dir results_dir buildset sketch board in
  let json_file := path_div_str srd "build.json" in
  let remove_and_compile :=
    match rmtree cwd srd fs with
    | (fs', Some e) => (fs', Raised e)
    | (fs', None) => compile_into A cwd buildset sketch board srd fs'
    end in
  if path_exists cwd srd fs then
    if negb (path_exists cwd json_file fs) then remove_and_compile
    else if force then remove_and_compile
    else (fs, Skipped)
  else compile_into A cwd buildset sketch board srd fs.

(** [compile_into] and [do_compile] with the one-step operations on
    [os_path]: the same for a record directory without ['..'] (see
    [do_compile_abs_eq]). *)
Definition compile_into_abs (A : arduino_env) (cwd : list string) (buildset : string)
  (sketch : ppath) (board : string) (srd : ppath) (fs0 : dir) : dir * dc_outcome :=
  let build_dir := os_path cwd (path_div_str srd "build") in
  let json_file := os_path cwd (path_div_str srd "build.json") in
  let log_file := os_path cwd (path_div_str srd "build.log") in
  match mkdir_parents_abs build_dir fs0 with
  | inl e => (fs0, Raised e)
  | inr fs1 =>
      match fs_write_abs log_file None fs1 with
      | inl e => (fs1, Raised e)
      | inr fs2 =>
          match run_arduino A build_dir board (os_path cwd sketch) with
          | None => (fs2, Raised FS.FileNotFoundError)
          | Some (res, out) =>
              let fs3 := fs_modify (fun _ => out) build_dir fs2 in
              match fs_write_abs json_file (Some (build_record buildset sketch board res)) fs3 with
              | inl e => (fs3, Raised e)
              | inr fs4 => (fs4, Compiled res)
              end
          end
      end
  end.

Definition do_compile_abs (A : arduino_env) (cwd : list string) (results_dir : ppath)
  (buildset : string) (force : bool) (sketch : ppath) (board : string) (fs : dir)
  : dir * dc_outcome :=
  let srd := sketch_result_dir results_dir buildset sketch board in
  let json_file := os_path cwd (path_div_str srd "build.json") in
  let remove_and_compile :=
    match rmtree_abs (os_path cwd srd) fs with
    | inl e => (fs, Raised e)
    | inr fs' => compile_into_abs A cwd buildset sketch board srd fs'
    end in
  if fs_exists (os_path cwd srd) fs then
    if negb (fs_exists json_file fs) then remove_and_compile
    else if force then remove_and_compile
    else (fs, Skipped)
  else compile_into_abs A cwd buildset sketch board srd fs.

(** The working directory exists, and its path has no ['..']. *)
Definition cwd_ok (cwd : list string) (fs : dir) : Prop :=
  ~ In ".." cwd /\ exists e, fs_resolve cwd fs = inr (NDir e).

(** Names are unique among the subdirectories of every directory. *)
Fixpoint fs_wf (d : dir) : Prop :=
  match d with
  | Dir _ ss =>
      NoDup (map fst ss)
      /\ (fix all (l : list (string * dir)) : Prop :=
            match l with [] => True | (_, d') :: l' => fs_wf d' /\ all l' end) ss
  end.


(** A name that [pathlib] keeps as one relative component. *)
Definition plain_name (n : string) : Prop :=
  parse_path n = {| p_root := ""; p_parts := [n] |} /\ n <> "..".


(** Sample runs of [do_compile]: the sketch [blink/blink.ino] built from
    [/home] into [result/base], with an existing build for [mega]. *)
Definition sample_arduino : arduino_env :=
  {| run_arduino := fun _ _ _ =>
       Some (0%Z, Dir [("blink.ino.elf", None); ("blink.ino.hex", None)] []) |}.

(** A compiler that cannot be started. *)
Definition missing_arduino : arduino_env := {| run_arduino := fun _ _ _ => None |}.

Definition sample_sketch : ppath := parse_path "blink/blink.ino".

Definition sample_fs : dir :=
  Dir [] [("home",
           Dir [] [("blink", Dir [("blink.ino", None)] []);
                   ("result",
                    Dir [] [("base",
                             Dir [] [("blink",
                                      Dir [] [("mega", record_dir (raw_blink "base" "mega" 0))])])])])].

Definition sample_run (A : arduino_env) (force : bool) (board : string) (fs : dir) :=
  do_compile A ["home"] (parse_path "result") "base" force sample_sketch board fs.

(** The tree after building for [uno]. *)
Definition sample_fs_uno : dir := fst (sample_run sample_arduino false "uno" sample_fs).

(** A result directory whose only build failed to compile. *)
Definition tree_failed : dir :=
  Dir [] [("base", buildset_dir (raw_blink "base" "uno" 1))].

(** Two OK builds, the base one without a hash. *)
Definition missing_hash_data : dataset :=
  [(("base", "blink", "uno"),
    measured (raw_blink "base" "uno" 0) OK (Some 924%Z) (Some 9%Z) None);
   (("next", "blink", "uno"), sample_build "next" "uno")].

(** * Properties *)

(** ** Keys and the dict *)

Lemma key_eqb_eq (k1 k2 : key) : key_eqb k1 k2 = true <-> k1 = k2.
Proof.
  destruct k1 as [[a1 b1] c1], k2 as [[a2 b2] c2]; simpl.
  rewrite !andb_true_iff, !String.eqb_eq.
  split; [intros [[-> ->] ->]; reflexivity | intros H; inversion H; auto].
Qed.

Lemma key_eqb_refl (k : key) : key_eqb k k = true.
Proof. apply key_eqb_eq; reflexivity. Qed.

Lemma key_eqb_neq (k1 k2 : key) : k1 <> k2 -> key_eqb k1 k2 = false.
Proof.
  intros H; destruct (key_eqb k1 k2) eqn:E; auto.
  apply key_eqb_eq in E; contradiction.
Qed.

Lemma dict_get_set_eq k v d : dict_get k (dict_set k v d) = Some v.
Proof.
  induction d as [|[k' v'] d IH]; simpl.
  - rewrite key_eqb_refl; reflexivity.
  - destruct (key_eqb k k') eqn:E; simpl.
    + apply key_eqb_eq in E; subst; rewrite key_eqb_refl; reflexivity.
    + rewrite E; exact IH.
Qed.

Lemma dict_get_set_neq k k' v d :
  k <> k' -> dict_get k' (dict_set k v d) = dict_get k' d.
Proof.
  intros Hne; induction d as [|[k1 v1] d IH]; simpl.
  - rewrite key_eqb_neq; congruence.
  - destruct (key_eqb k k1) eqn:E; simpl.
    + apply key_eqb_eq in E; subst k1.
      rewrite (key_eqb_neq k' k); congruence.
    + destruct (key_eqb k' k1); auto.
Qed.

Lemma dict_get_in k v d : dict_get k d = Some v -> In (k, v) d.
Proof.
  induction d as [|[k1 v1] d IH]; simpl; [discriminate|].
  destruct (key_eqb k k1) eqn:E.
  - apply key_eqb_eq in E; subst; intros H; inversion H; auto.
  - auto.
Qed.

Lemma dict_get_none k d : dict_get k d = None <-> ~ In k (map fst d).
Proof.
  induction d as [|[k1 v1] d IH]; simpl; [tauto|].
  destruct (key_eqb k k1) eqn:E.
  - apply key_eqb_eq in E; subst; split; [discriminate|tauto].
  - assert (k1 <> k) by (intros ->; rewrite key_eqb_refl in E; discriminate).
    rewrite IH; tauto.
Qed.

Lemma dict_get_nodup_in k v d :
  NoDup (map fst d) -> In (k, v) d -> dict_get k d = Some v.
Proof.
  induction d as [|[k1 v1] d IH]; simpl; [tauto|].
  intros Hnd Hin; inversion Hnd as [|? ? Hnotin Hnd']; subst.
  destruct Hin as [Heq | Hin].
  - inversion Heq; subst; rewrite key_eqb_refl; reflexivity.
  - destruct (key_eqb k k1) eqn:E.
    + apply key_eqb_eq in E; subst.
      exfalso; apply Hnotin; apply (in_map fst) in Hin; exact Hin.
    + auto.
Qed.

Lemma dict_set_keys_in k v d :
  In k (map fst d) -> map fst (dict_set k v d) = map fst d.
Proof.
  induction d as [|[k1 v1] d IH]; simpl; [tauto|].
  intros H; destruct (key_eqb k k1) eqn:E; simpl; [reflexivity|].
  f_equal; apply IH; destruct H as [->|H]; auto.
  rewrite key_eqb_refl in E; discriminate.
Qed.

Lemma dict_set_keys_new k v d :
  ~ In k (map fst d) -> map fst (dict_set k v d) = (map fst d ++ [k])%list.
Proof.
  induction d as [|[k1 v1] d IH]; simpl; [reflexivity|].
  intros H; rewrite key_eqb_neq by (intros ->; tauto); simpl.
  f_equal; apply IH; tauto.
Qed.

Lemma dict_set_nodup k v d :
  NoDup (map fst d) -> NoDup (map fst (dict_set k v d)).
Proof.
  intros H; destruct (dict_get k d) as [v'|] eqn:E.
  - rewrite dict_set_keys_in; auto.
    apply dict_get_in in E; apply (in_map fst) in E; exact E.
  - apply dict_get_none in E; rewrite dict_set_keys_new by exact E.
    apply NoDup_app; auto using NoDup_cons, NoDup_nil.
    intros x Hx [<-|[]]; tauto.
Qed.

Lemma dict_set_in k v d k' v' :
  In (k', v') (dict_set k v d) -> (k' = k /\ v' = v) \/ In (k', v') d.
Proof.
  induction d as [|[k1 v1] d IH]; simpl.
  - intros [H|[]]; inversion H; auto.
  - destruct (key_eqb k k1) eqn:E; simpl.
    + apply key_eqb_eq in E; subst; intros [H|H]; [inversion H; auto|auto].
    + intros [H|H]; auto; destruct (IH H); auto.
Qed.

(** ** Measurement *)

Definition raw_key (r : raw_build) : key := (r_buildset r, r_sketch_dir r, r_board r).

(** Some line of the output matches the pattern for [label]. *)
Definition some_line_matches (label : string) (lines : list string) : Prop :=
  exists l, In l lines /\ match_field label l <> None.

(** A record read from [build.json] while its sizes are being parsed. *)
Definition unmeasured (r : raw_build) (ps ds : option Z) : build :=
  {| exit_code := r_exit_code r; sketch_dir := r_sketch_dir r;
     sketch_name := r_sketch_name r; board := r_board r;
     buildset := r_buildset r; status_f := None; program_size := ps;
     data_size := ds; hash := None; is_base := None;
     delta_status_f := None; delta_program_size := None;
     delta_data_size := None |}.

Lemma of_raw_unmeasured r : of_raw r = unmeasured r None None.
Proof. reflexivity. Qed.

Lemma py_int_some g v : py_int g = Ok v -> g <> EmptyString.
Proof. destruct g; simpl; congruence. Qed.

Lemma scan_size_line_shape l r ps ds b' :
  scan_size_line l (unmeasured r ps ds) = Ok b' ->
  exists ps' ds', b' = unmeasured r ps' ds'
    /\ (ps' <> None <-> ps <> None \/ match_field "Program:" l <> None)
    /\ (ds' <> None <-> ds <> None \/ match_field "Data:" l <> None).
Proof.
  unfold scan_size_line.
  destruct (match_field "Program:" l) as [g|] eqn:Hp;
  [destruct (py_int g) as [v|e] eqn:Hv; simpl; [|discriminate]|simpl];
  destruct (match_field "Data:" l) as [g'|] eqn:Hd;
  try (destruct (py_int g') as [v'|e'] eqn:Hv'; simpl; [|discriminate]);
  intros H; inversion H; subst; eexists; eexists;
  (split; [reflexivity|]); split; split; intros Hx;
  try destruct Hx as [Hx|Hx]; cbn in *;
  first [ exact Hx | congruence | left; exact Hx | right; congruence ].
Qed.

Lemma scan_size_lines_shape lines r ps ds b' :
  scan_size_lines lines (unmeasured r ps ds) = Ok b' ->
  exists ps' ds', b' = unmeasured r ps' ds'
    /\ (ps' <> None <-> ps <> None \/ some_line_matches "Program:" lines)
    /\ (ds' <> None <-> ds <> None \/ some_line_matches "Data:" lines).
Proof.
  unfold some_line_matches.
  revert ps ds; induction lines as [|l ls IH]; intros ps ds; simpl.
  - intros H; inversion H; subst; exists ps, ds; split; [reflexivity|].
    split; split; intros; try tauto; destruct H0 as [|[? [[] _]]]; auto.
  - destruct (scan_size_line l (unmeasured r ps ds)) as [b1|e] eqn:H1;
      simpl; [|discriminate].
    apply scan_size_line_shape in H1 as [ps1 [ds1 [-> [Hp1 Hd1]]]].
    intros H; destruct (IH _ _ H) as [ps' [ds' [-> [Hp Hd]]]].
    exists ps', ds'; split; [reflexivity|]; rewrite Hp, Hd, Hp1, Hd1.
    split; split.
    + intros [[?|?]|[l' [? ?]]]; auto; right; eauto.
    + intros [?|[l' [[<-|?] ?]]]; auto; right; eauto.
    + intros [[?|?]|[l' [? ?]]]; auto; right; eauto.
    + intros [?|[l' [[<-|?] ?]]]; auto; right; eauto.
Qed.

Lemma add_extra_info_ok E p r b' :
  add_extra_info E p (of_raw r) = Ok b' ->
  exists lines c ps ds,
    run_size E (elffile p (of_raw r)) = ProcOk lines
    /\ read_file E (hexfile p (of_raw r)) = Some c
    /\ b' = set_hash (sha1_hexdigest E c) (unmeasured r ps ds)
    /\ (ps <> None <-> some_line_matches "Program:" lines)
    /\ (ds <> None <-> some_line_matches "Data:" lines).
Proof.
  unfold add_extra_info.
  destruct (run_size E (elffile p (of_raw r))) as [lines| |]; try discriminate.
  change (scan_size_lines lines (of_raw r))
    with (scan_size_lines lines (unmeasured r None None)).
  destruct (scan_size_lines lines (unmeasured r None None)) as [b1|e] eqn:Hs;
    simpl; [|discriminate].
  apply scan_size_lines_shape in Hs as [ps [ds [-> [Hp Hd]]]].
  destruct (read_file E (hexfile p (of_raw r))) as [c|]; [|discriminate].
  intros H; inversion H; subst.
  exists lines, c, ps, ds; repeat split; auto;
    [rewrite Hp in *|rewrite Hp in *|rewrite Hd in *|rewrite Hd in *];
    try tauto; intros; rewrite Hp || rewrite Hd; tauto.
Qed.

Lemma scan_size_line_err l b e :
  scan_size_line l b = Err e -> e = ValueError.
Proof.
  unfold scan_size_line, py_int.
  destruct (match_field "Program:" l) as [[|c g]|];
    destruct (match_field "Data:" l) as [[|c' g']|];
    simpl; intros H; congruence.
Qed.

Lemma scan_size_lines_err lines b e :
  scan_size_lines lines b = Err e -> e = ValueError.
Proof.
  revert b; induction lines as [|l ls IH]; intros b; simpl; [discriminate|].
  destruct (scan_size_line l b) as [b1|e1] eqn:H1; simpl.
  - apply IH.
  - intros H; inversion H; subst; eapply scan_size_line_err; eauto.
Qed.

(** Only a non-zero exit status of the size tool raises
    [CalledProcessError]. *)
Lemma add_extra_info_cpe E p b :
  add_extra_info E p b = Err CalledProcessError ->
  run_size E (elffile p b) = ProcNonZero.
Proof.
  unfold add_extra_info.
  destruct (run_size E (elffile p b)) as [lines| |]; auto; try discriminate.
  destruct (scan_size_lines lines b) as [b1|e] eqn:Hs; simpl.
  - destruct (read_file E (hexfile p b)); discriminate.
  - apply scan_size_lines_err in Hs; subst; discriminate.
Qed.

(** The three outcomes of measuring one scanned record. *)
Lemma process_build_cases E p r b :
  process_build E p r = Ok b ->
  (r_exit_code r <> 0%Z /\ b = measured r Failed_to_compile None None None)
  \/ (r_exit_code r = 0%Z /\ run_size E (elffile p (of_raw r)) = ProcNonZero
      /\ b = measured r Failed_to_get_size None None None)
  \/ (r_exit_code r = 0%Z /\
      exists lines c ps ds,
        run_size E (elffile p (of_raw r)) = ProcOk lines
        /\ read_file E (hexfile p (of_raw r)) = Some c
        /\ b = measured r OK ps ds (Some (sha1_hexdigest E c))
        /\ (ps <> None <-> some_line_matches "Program:" lines)
        /\ (ds <> None <-> some_line_matches "Data:" lines)).
Proof.
  unfold process_build; simpl.
  destruct (Z.eqb_spec (r_exit_code r) 0) as [Hz|Hz]; simpl.
  - destruct (add_extra_info E p (of_raw r)) as [b1|[]] eqn:Ha; simpl;
      try discriminate.
    + apply add_extra_info_ok in Ha as (lines & c & ps & ds & H1 & H2 & -> & H3 & H4).
      intros H; inversion H; subst; right; right; split; auto.
      exists lines, c, ps, ds; repeat split; auto; tauto.
    + intros H; inversion H; subst; right; left; repeat split; auto.
      apply add_extra_info_cpe in Ha; exact Ha.
  - intros H; inversion H; subst; left; split; auto.
Qed.

Lemma process_build_key E p r b :
  process_build E p r = Ok b -> key_of b = raw_key r.
Proof.
  intros H; apply process_build_cases in H as [[_ ->]|[[_ [_ ->]]|[_ (? & ? & ? & ? & _ & _ & -> & _)]]];
    reflexivity.
Qed.

(** ** The dataset built by [create_report_data] *)

(** The keys of [data] are distinct and each is the key of its record. *)
Definition dataset_ok (d : dataset) : Prop :=
  NoDup (map fst d) /\ forall k b, In (k, b) d -> k = key_of b.

Lemma dict_set_keys_iff k v d k' :
  In k' (map fst (dict_set k v d)) <-> k' = k \/ In k' (map fst d).
Proof.
  destruct (dict_get k d) as [v'|] eqn:E.
  - apply dict_get_in in E; apply (in_map fst) in E.
    rewrite dict_set_keys_in by exact E; split; [auto|intros [->|?]; auto].
  - apply dict_get_none in E; rewrite dict_set_keys_new by exact E.
    rewrite in_app_iff; simpl; intuition (subst; auto).
Qed.

Lemma dict_set_ok b d :
  dataset_ok d -> dataset_ok (dict_set (key_of b) b d).
Proof.
  intros [Hnd Hk]; split; [apply dict_set_nodup; exact Hnd|].
  intros k b' Hin; apply dict_set_in in Hin as [[-> ->]|Hin]; auto.
Qed.

Lemma set_add_nodup s l : NoDup l -> NoDup (set_add s l).
Proof.
  unfold set_add; destruct (existsb (String.eqb s) l) eqn:E; auto.
  intros Hnd; apply NoDup_app; auto using NoDup_cons, NoDup_nil.
  intros x Hx [->|[]].
  assert (existsb (String.eqb x) l = true) by
    (apply existsb_exists; exists x; split; auto; apply String.eqb_refl).
  congruence.
Qed.

Lemma crd_loop_ok E es data bs data' bs' :
  crd_loop E es data bs = Ok (data', bs') ->
  (dataset_ok data -> dataset_ok data')
  /\ (forall k b, In (k, b) data' ->
        In (k, b) data
        \/ exists p r, In (p, Some r) es /\ process_build E p r = Ok b)
  /\ (forall k, In k (map fst data') <->
        In k (map fst data) \/ exists p r, In (p, Some r) es /\ raw_key r = k)
  /\ (NoDup bs -> NoDup bs').
Proof.
  revert data bs; induction es as [|[p [r|]] es IH]; intros data bs; simpl.
  - intros H; inversion H; subst.
    split; [auto|]; split; [auto|]; split; [|auto].
    intros k; split; auto; intros [?|(? & ? & [] & _)]; auto.
  - destruct (process_build E p r) as [b|e] eqn:Hb; simpl; [|discriminate].
    intros H; destruct (IH _ _ H) as (Hok & Hfrom & Hkeys & Hbs).
    pose proof (process_build_key _ _ _ _ Hb) as Hkey.
    split; [|split; [|split; [split|]]].
    + intros Hd; apply Hok, dict_set_ok, Hd.
    + intros k b' Hin; destruct (Hfrom k b' Hin) as [Hin'|(p' & r' & ? & ?)].
      * apply dict_set_in in Hin' as [[-> ->]|?]; auto.
        right; exists p, r; auto.
      * right; exists p', r'; auto.
    + intros Hin; apply Hkeys in Hin as [Hin|(p' & r' & ? & ?)].
      * apply dict_set_keys_iff in Hin as [->|?]; auto.
        right; exists p, r; auto.
      * right; exists p', r'; auto.
    + intros Hin; apply Hkeys.
      destruct Hin as [?|(p' & r' & [Hpr|Hin] & <-)].
      * left; apply dict_set_keys_iff; auto.
      * inversion Hpr; subst; left; apply dict_set_keys_iff; auto.
      * right; exists p', r'; auto.
    + intros Hnd; apply Hbs, set_add_nodup, Hnd.
  - discriminate.
Qed.

(** Later scans do not touch a key that none of them has. *)
Lemma crd_loop_get_other E es data bs data' bs' k :
  crd_loop E es data bs = Ok (data', bs') ->
  (forall p r, In (p, Some r) es -> raw_key r <> k) ->
  dict_get k data' = dict_get k data.
Proof.
  revert data bs; induction es as [|[p [r|]] es IH]; intros data bs; simpl.
  - intros H _; inversion H; subst; reflexivity.
  - destruct (process_build E p r) as [b|e] eqn:Hb; simpl; [|discriminate].
    intros H Hne.
    rewrite (IH _ _ H) by (intros p' r' Hin; apply (Hne p'); right; exact Hin).
    apply dict_get_set_neq.
    rewrite (process_build_key _ _ _ _ Hb); apply (Hne p); left; reflexivity.
  - discriminate.
Qed.

(** Last write wins: the record under a key is the last one scanned. *)
Lemma crd_loop_last E pre p r post data bs data' bs' :
  crd_loop E (pre ++ (p, Some r) :: post) data bs = Ok (data', bs') ->
  (forall p' r', In (p', Some r') post -> raw_key r' <> raw_key r) ->
  exists b, process_build E p r = Ok b /\ dict_get (raw_key r) data' = Some b.
Proof.
  revert data bs; induction pre as [|[p0 [r0|]] pre IH]; intros data bs; simpl.
  - destruct (process_build E p r) as [b|e] eqn:Hb; simpl; [|discriminate].
    intros H Hne; exists b; split; auto.
    rewrite (crd_loop_get_other _ _ _ _ _ _ _ H Hne).
    rewrite <- (process_build_key _ _ _ _ Hb); apply dict_get_set_eq.
  - destruct (process_build E p0 r0); simpl; [|discriminate]; eauto.
  - discriminate.
Qed.

(** ** The scanner *)

Section DirInd.
Variable P : dir -> Prop.
Hypothesis HDir :
  forall fs ss, Forall (fun nd => P (snd nd)) ss -> P (Dir fs ss).

Fixpoint dir_ind' (d : dir) : P d :=
  match d with
  | Dir fs ss =>
      HDir fs ss
        ((fix go (l : list (string * dir)) : Forall (fun nd => P (snd nd)) l :=
            match l with
            | [] => Forall_nil _
            | (n, d') :: l' => Forall_cons (n, d') (dir_ind' d') (go l')
            end) ss)
  end.
End DirInd.

(** [top_marker d p e]: going down from [d] along the names [p] through
    directories without a marker, one reaches [e], which has a marker. *)
Inductive top_marker : dir -> path -> dir -> Prop :=
| tm_here d :
    find_file marker (dir_files d) <> None -> top_marker d [] d
| tm_down d n d' p e :
    find_file marker (dir_files d) = None ->
    In (n, d') (dir_subdirs d) ->
    top_marker d' p e ->
    top_marker d (n :: p) e.

Lemma walk_spec d : forall q p c,
  In (p, c) (walk q d) <->
  exists p' e, p = (q ++ p')%list /\ top_marker d p' e
               /\ find_file marker (dir_files e) = Some c.
Proof.
  induction d as [fs ss IHss] using dir_ind'; intros q p c; simpl.
  destruct (find_file marker fs) as [c0|] eqn:Hm.
  - simpl; split.
    + intros [H|[]]; inversion H; subst.
      exists [], (Dir fs ss); rewrite app_nil_r; repeat split; auto.
      apply tm_here; simpl; congruence.
    + intros (p' & e & -> & Ht & Hc); inversion Ht; subst.
      * simpl in Hc; rewrite app_nil_r; left; congruence.
      * simpl in *; congruence.
  - rewrite in_flat_map; split.
    + intros [[n d'] [Hin Hw]]; rewrite Forall_forall in IHss.
      apply (IHss _ Hin) in Hw as (p' & e & -> & Ht & Hc); simpl in *.
      exists (n :: p'), e; rewrite <- app_assoc; repeat split; auto.
      apply tm_down with d'; auto.
    + intros (p' & e & -> & Ht & Hc); inversion Ht as [|? n d' p'' ? Hnm Hin Ht']; subst.
      * simpl in *; congruence.
      * exists (n, d'); split; [exact Hin|].
        rewrite Forall_forall in IHss; apply (IHss _ Hin); simpl.
        exists p'', e; rewrite <- app_assoc; auto.
Qed.

(** ** The delta engine *)

(** The keys [add_delta_info] reads and never writes. *)
Definition core (b : build) :=
  (exit_code b, sketch_dir b, sketch_name b, board b, buildset b,
   status_f b, program_size b, data_size b, hash b).

Definition same_core (d1 d2 : dataset) : Prop :=
  forall k, opt_map core (dict_get k d1) = opt_map core (dict_get k d2).

Lemma annotate_ext base l1 l2 b0 :
  (forall k, opt_map core (l1 k) = opt_map core (l2 k)) ->
  annotate base l1 b0 = annotate base l2 b0.
Proof.
  intros H; unfold annotate.
  destruct (String.eqb (buildset (set_is_base (String.eqb (buildset b0) base) b0)) base);
    [reflexivity|].
  set (kb := (base, sketch_dir (set_is_base (String.eqb (buildset b0) base) b0),
              board (set_is_base (String.eqb (buildset b0) base) b0))).
  specialize (H kb).
  destruct (l1 kb) as [bb1|], (l2 kb) as [bb2|]; simpl in H; try discriminate;
    [|reflexivity].
  inversion H as [[E1 E2 E3 E4 E5 E6 E7 E8 E9]].
  unfold both_ok; rewrite E6, E7, E8, E9; reflexivity.
Qed.

(** Invert a successful chain of [bind]s and [if]s in a hypothesis. *)
Ltac inv_ok :=
  repeat match goal with
         | H : bind ?m _ = Ok _ |- _ => destruct m eqn:?; simpl in H; [|discriminate]
         | H : (if ?c then _ else _) = Ok _ |- _ => destruct c; simpl in H
         | H : Ok _ = Ok _ |- _ => injection H as H; subst
         | |- context [if ?c then _ else _] => destruct c
         end.

Lemma annotate_core base l b0 w b :
  annotate base l b0 = (w, Ok b) ->
  core b = core b0 /\ is_base b = Some (String.eqb (buildset b0) base).
Proof.
  unfold annotate; simpl.
  destruct (String.eqb (buildset b0) base) eqn:Hb.
  - intros H; injection H as _ H; inv_ok; subst; split; reflexivity.
  - destruct (l (base, sketch_dir b0, board b0)) as [bb|].
    + intros H; injection H as _ H; inv_ok; subst; split; reflexivity.
    + intros H; injection H as _ H; inv_ok; subst; split; reflexivity.
Qed.

Definition lookup_in (d : dataset) : key -> option build := fun k => dict_get k d.

(** [add_delta_info] with every lookup reading the dataset as it was
    before the loop. *)
Fixpoint delta_model (base : string) (data0 : dataset) (ks : list key)
  (d : dataset) : list string * result dataset :=
  match ks with
  | [] => ([], Ok d)
  | k :: ks' =>
      match dict_get k data0 with
      | None => ([], Err KeyError)
      | Some b0 =>
          let (w, r) := annotate base (lookup_in data0) b0 in
          match r with
          | Err e => (w, Err e)
          | Ok b =>
              let (w2, r2) := delta_model base data0 ks' (dict_set k b d) in
              ((w ++ w2)%list, r2)
          end
      end
  end.

Lemma key_dec (k1 k2 : key) : {k1 = k2} + {k1 <> k2}.
Proof.
  destruct (key_eqb k1 k2) eqn:E; [left; apply key_eqb_eq, E|right].
  intros ->; rewrite key_eqb_refl in E; discriminate.
Qed.

Lemma same_core_set d1 d2 k b b' :
  same_core d1 d2 -> dict_get k d2 = Some b' -> core b = core b' ->
  same_core (dict_set k b d1) d2.
Proof.
  intros H Hg Hc k'; destruct (key_dec k k') as [<-|Hne].
  - rewrite dict_get_set_eq, Hg; simpl; congruence.
  - rewrite dict_get_set_neq by exact Hne; apply H.
Qed.

Lemma same_core_lookup d1 d2 :
  same_core d1 d2 ->
  forall k, opt_map core (lookup_in d1 k) = opt_map core (lookup_in d2 k).
Proof. intros H k; apply H. Qed.

Lemma dict_get_keys k b d : dict_get k d = Some b -> In k (map fst d).
Proof. intros H; apply dict_get_in in H; apply (in_map fst) in H; exact H. Qed.

(** The loop, with the build mutated in place, computes the model. *)
Lemma delta_loop_model base data0 : forall ks d,
  NoDup ks -> same_core d data0 ->
  (forall k, In k ks -> dict_get k d = dict_get k data0) ->
  delta_loop base ks d = delta_model base data0 ks d.
Proof.
  induction ks as [|k ks IH]; intros d Hnd Hsc Hks; simpl; [reflexivity|].
  inversion Hnd as [|? ? Hnotin Hnd']; subst.
  unfold delta_one; rewrite (Hks k (or_introl eq_refl)).
  destruct (dict_get k data0) as [b0|] eqn:Hg; [|reflexivity].
  set (d1 := dict_set k (set_is_base (String.eqb (buildset b0) base) b0) d).
  assert (Hsc1 : same_core d1 data0) by (eapply same_core_set; eauto).
  rewrite (annotate_ext base (fun k' => dict_get k' d1) (lookup_in data0) b0)
    by (apply same_core_lookup, Hsc1).
  destruct (annotate base (lookup_in data0) b0) as [w [b|e]] eqn:Ha; simpl;
    [|reflexivity].
  destruct (annotate_core _ _ _ _ _ Ha) as [Hc _].
  assert (Hd2 : dict_set k b d1 = dict_set k b d).
  { unfold d1; clear.
    induction d as [|[k1 v1] d IH]; cbn [dict_set].
    - rewrite key_eqb_refl; reflexivity.
    - destruct (key_eqb k k1) eqn:E; cbn [dict_set]; rewrite E; [|rewrite IH];
        reflexivity. }
  rewrite Hd2, IH; auto.
  - eapply same_core_set; eauto.
  - intros k' Hk'; rewrite dict_get_set_neq by (intros ->; contradiction).
    apply Hks; right; exact Hk'.
Qed.

Lemma core_key b b' : core b = core b' -> key_of b = key_of b'.
Proof. unfold core, key_of; intros H; inversion H; reflexivity. Qed.

Lemma dataset_ok_get d k b : dataset_ok d -> dict_get k d = Some b -> k = key_of b.
Proof. intros [_ Hk] H; apply dict_get_in in H; eauto. Qed.

Lemma delta_model_ok base data0 : forall ks d w d',
  NoDup ks ->
  delta_model base data0 ks d = (w, Ok d') ->
  (forall k, In k ks -> exists b0 wk b,
       dict_get k data0 = Some b0
       /\ annotate base (lookup_in data0) b0 = (wk, Ok b)
       /\ dict_get k d' = Some b /\ incl wk w)
  /\ (forall k, ~ In k ks -> dict_get k d' = dict_get k d)
  /\ (dataset_ok d -> dataset_ok data0 -> (forall k, In k ks -> In k (map fst d)) ->
      dataset_ok d' /\ map fst d' = map fst d).
Proof.
  induction ks as [|k ks IH]; intros d w d' Hnd; simpl.
  - intros H; inversion H; subst; split; [tauto|split; [tauto|auto]].
  - inversion Hnd as [|? ? Hnotin Hnd']; subst.
    destruct (dict_get k data0) as [b0|] eqn:Hg; [|discriminate].
    destruct (annotate base (lookup_in data0) b0) as [wk [b|e]] eqn:Ha;
      [|discriminate].
    destruct (delta_model base data0 ks (dict_set k b d)) as [w2 r2] eqn:Hm.
    intros H; inversion H; subst r2 w.
    destruct (IH _ _ _ Hnd' Hm) as (Hall & Hother & Hok).
    split; [|split].
    + intros k' [<-|Hk'].
      * exists b0, wk, b; repeat split; auto.
        -- rewrite Hother by exact Hnotin; apply dict_get_set_eq.
        -- intros x Hx; apply in_app_iff; auto.
      * destruct (Hall k' Hk') as (b0' & wk' & b' & ? & ? & ? & Hincl).
        exists b0', wk', b'; repeat split; auto.
        intros x Hx; apply in_app_iff; auto.
    + intros k' Hk'; rewrite Hother by tauto.
      apply dict_get_set_neq; intros ->; tauto.
    + intros Hd Hd0 Hin.
      destruct (annotate_core _ _ _ _ _ Ha) as [Hc _].
      assert (Hkb : k = key_of b)
        by (rewrite (core_key _ _ Hc); eapply dataset_ok_get; eauto).
      destruct Hok as [Hok' Hkeys].
      * rewrite Hkb; apply dict_set_ok; exact Hd.
      * exact Hd0.
      * intros k' Hk'; apply dict_set_keys_iff; right; apply Hin; right; exact Hk'.
      * split; [exact Hok'|].
        rewrite Hkeys; apply dict_set_keys_in, Hin; left; reflexivity.
Qed.

Lemma delta_model_complete base data0 : forall ks d,
  (forall k, In k ks -> exists b0 wk b,
       dict_get k data0 = Some b0
       /\ annotate base (lookup_in data0) b0 = (wk, Ok b)) ->
  exists w d', delta_model base data0 ks d = (w, Ok d').
Proof.
  induction ks as [|k ks IH]; intros d Hall; simpl; [eauto|].
  destruct (Hall k (or_introl eq_refl)) as (b0 & wk & b & -> & ->).
  destruct (IH (dict_set k b d)) as (w2 & d2 & ->); [|eauto].
  intros k' Hk'; apply Hall; right; exact Hk'.
Qed.

Lemma add_delta_info_model data base :
  dataset_ok data ->
  add_delta_info data base = delta_model base data (map fst data) data.
Proof.
  intros [Hnd _]; apply delta_loop_model; auto.
  intros k; reflexivity.
Qed.

(** Every key of [data] is annotated, from the dataset as it was. *)
Lemma add_delta_info_ok data base w d' :
  dataset_ok data ->
  add_delta_info data base = (w, Ok d') ->
  (forall k b0, In (k, b0) data -> exists wk b,
       annotate base (lookup_in data) b0 = (wk, Ok b)
       /\ dict_get k d' = Some b /\ incl wk w)
  /\ dataset_ok d' /\ map fst d' = map fst data.
Proof.
  intros Hok H; rewrite add_delta_info_model in H by exact Hok.
  destruct (delta_model_ok _ _ _ _ _ _ (proj1 Hok) H) as (Hall & _ & Hkeys).
  split.
  - intros k b0 Hin.
    assert (Hg : dict_get k data = Some b0) by (apply dict_get_nodup_in; auto; apply Hok).
    destruct (Hall k) as (b0' & wk & b & Hg' & Ha & Hd & Hincl).
    + apply (in_map fst) in Hin; exact Hin.
    + rewrite Hg in Hg'; inversion Hg'; subst; eauto.
  - apply Hkeys; auto.
Qed.

(** ** Sorting the items *)

Lemma string_compare_refl s : String.compare s s = Eq.
Proof.
  induction s as [|a s IH]; simpl; auto.
  unfold Ascii.compare; rewrite N.compare_refl; exact IH.
Qed.

Lemma string_compare_trans s1 s2 s3 :
  String.compare s1 s2 = Lt -> String.compare s2 s3 = Lt ->
  String.compare s1 s3 = Lt.
Proof.
  revert s2 s3; induction s1 as [|a s1 IH]; intros [|b s2] [|c s3]; simpl;
    intros H1 H2; try discriminate; auto.
  unfold Ascii.compare in *.
  destruct (N.compare_spec (N_of_ascii a) (N_of_ascii b)) as [Hab|Hab|Hab];
  destruct (N.compare_spec (N_of_ascii b) (N_of_ascii c)) as [Hbc|Hbc|Hbc];
    try discriminate.
  - rewrite Hab, Hbc, N.compare_refl; eauto.
  - rewrite Hab; apply N.compare_lt_iff in Hbc; rewrite Hbc; reflexivity.
  - rewrite <- Hbc; apply N.compare_lt_iff in Hab; rewrite Hab; reflexivity.
  - rewrite (proj2 (N.compare_lt_iff _ _) (N.lt_trans _ _ _ Hab Hbc)); reflexivity.
Qed.

Section Lex.
Context {A B : Type} (ca : A -> A -> comparison) (cb : B -> B -> comparison).
Hypothesis ca_eq : forall x y, ca x y = Eq -> x = y.
Hypothesis ca_refl : forall x, ca x x = Eq.
Hypothesis ca_trans : forall x y z, ca x y = Lt -> ca y z = Lt -> ca x z = Lt.
Hypothesis ca_antisym : forall x y, ca x y = CompOpp (ca y x).
Hypothesis cb_eq : forall x y, cb x y = Eq -> x = y.
Hypothesis cb_refl : forall x, cb x x = Eq.
Hypothesis cb_trans : forall x y z, cb x y = Lt -> cb y z = Lt -> cb x z = Lt.
Hypothesis cb_antisym : forall x y, cb x y = CompOpp (cb y x).

(** Python's comparison of pairs. *)
Definition lex_compare (p q : A * B) : comparison :=
  match ca (fst p) (fst q) with
  | Eq => cb (snd p) (snd q)
  | c => c
  end.

Lemma lex_eq p q : lex_compare p q = Eq -> p = q.
Proof.
  destruct p as [x1 y1], q as [x2 y2]; unfold lex_compare; simpl.
  destruct (ca x1 x2) eqn:E; try discriminate.
  intros H; rewrite (ca_eq _ _ E), (cb_eq _ _ H); reflexivity.
Qed.

Lemma lex_refl p : lex_compare p p = Eq.
Proof. unfold lex_compare; rewrite ca_refl; apply cb_refl. Qed.

Lemma lex_trans p q r :
  lex_compare p q = Lt -> lex_compare q r = Lt -> lex_compare p r = Lt.
Proof.
  destruct p as [x1 y1], q as [x2 y2], r as [x3 y3]; unfold lex_compare; simpl.
  destruct (ca x1 x2) eqn:E12; try discriminate;
  destruct (ca x2 x3) eqn:E23; try discriminate; intros H1 H2.
  - rewrite (ca_eq _ _ E12), (ca_eq _ _ E23), ca_refl; eauto.
  - rewrite (ca_eq _ _ E12), E23; reflexivity.
  - rewrite <- (ca_eq _ _ E23), E12; reflexivity.
  - rewrite (ca_trans _ _ _ E12 E23); reflexivity.
Qed.

Lemma lex_antisym p q : lex_compare p q = CompOpp (lex_compare q p).
Proof.
  unfold lex_compare; rewrite (ca_antisym (fst p)).
  destruct (ca (fst q) (fst p)); simpl; auto.
Qed.
End Lex.

Definition key_lex : key -> key -> comparison :=
  lex_compare (lex_compare String.compare String.compare) String.compare.

Lemma key_compare_lex k1 k2 : key_compare k1 k2 = key_lex k1 k2.
Proof.
  destruct k1 as [[a1 b1] c1], k2 as [[a2 b2] c2].
  unfold key_compare, key_lex, lex_compare; simpl.
  destruct (String.compare a1 a2), (String.compare b1 b2); reflexivity.
Qed.

Lemma key_compare_eq k1 k2 : key_compare k1 k2 = Eq -> k1 = k2.
Proof.
  rewrite key_compare_lex; apply lex_eq; [apply lex_eq|];
    apply String.compare_eq_iff.
Qed.

Lemma key_compare_trans k1 k2 k3 :
  key_compare k1 k2 = Lt -> key_compare k2 k3 = Lt -> key_compare k1 k3 = Lt.
Proof.
  rewrite !key_compare_lex; apply lex_trans;
    repeat (intros; first [ eapply String.compare_eq_iff; eassumption
                          | apply string_compare_refl
                          | eapply string_compare_trans; eassumption
                          | eapply lex_eq; [..|eassumption]
                          | apply lex_refl
                          | eapply lex_trans; [..|eassumption|eassumption] ]).
Qed.

Lemma key_compare_antisym k1 k2 : key_compare k1 k2 = CompOpp (key_compare k2 k1).
Proof.
  rewrite !key_compare_lex; apply lex_antisym;
    [apply lex_antisym|]; apply String.compare_antisym.
Qed.

(** Strictly ascending keys. *)
Definition item_lt (a b : key * build) : Prop := key_compare (fst a) (fst b) = Lt.

Lemma item_lt_trans : Relations_1.Transitive item_lt.
Proof. intros a b c; apply key_compare_trans. Qed.

Lemma insert_item_perm x l : Permutation (insert_item x l) (x :: l).
Proof.
  induction l as [|y l IH]; simpl; auto.
  destruct (key_compare (fst x) (fst y)); auto.
  rewrite IH; apply perm_swap.
Qed.

Lemma sort_items_perm l : Permutation (sort_items l) l.
Proof.
  induction l as [|x l IH]; simpl; auto.
  rewrite insert_item_perm, IH; reflexivity.
Qed.

Lemma insert_item_hd y x l :
  item_lt y x -> HdRel item_lt y l -> HdRel item_lt y (insert_item x l).
Proof.
  intros Hyx Hl; destruct l as [|z l]; simpl; auto.
  destruct (key_compare (fst x) (fst z)); auto.
  inversion Hl; auto.
Qed.

Lemma insert_item_sorted x l :
  Sorted item_lt l -> ~ In (fst x) (map fst l) -> Sorted item_lt (insert_item x l).
Proof.
  induction l as [|y l IH]; simpl; intros Hs Hn; auto.
  inversion Hs as [|? ? Hs' Hhd]; subst.
  destruct (key_compare (fst x) (fst y)) eqn:E.
  - apply key_compare_eq in E; exfalso; apply Hn; left; symmetry; exact E.
  - constructor; auto.
  - constructor; [apply IH; auto|].
    apply insert_item_hd; auto.
    unfold item_lt; rewrite key_compare_antisym, E; reflexivity.
Qed.

Lemma sort_items_sorted l :
  NoDup (map fst l) -> StronglySorted item_lt (sort_items l).
Proof.
  intros Hnd; apply Sorted_StronglySorted; [exact item_lt_trans|].
  induction l as [|x l IH]; simpl in *; auto.
  inversion Hnd; subst.
  apply insert_item_sorted; auto.
  intros Hin; apply (Permutation_in _ (Permutation_map fst (sort_items_perm l))) in Hin.
  tauto.
Qed.

(** ** Facts about a whole run of [create_report_data] *)

Lemma create_report_data_ok E root data bs :
  create_report_data E root = Ok (data, bs) ->
  dataset_ok data
  /\ (forall k b, In (k, b) data ->
        exists p r, In (p, Some r) (find_builds root) /\ process_build E p r = Ok b)
  /\ (forall k, In k (map fst data) <->
        exists p r, In (p, Some r) (find_builds root) /\ raw_key r = k)
  /\ NoDup bs.
Proof.
  unfold create_report_data; intros H.
  destruct (crd_loop_ok _ _ _ _ _ _ H) as (Hok & Hfrom & Hkeys & Hbs).
  split; [apply Hok; split; [constructor|intros ? ? []]|].
  split; [intros k b Hin; destruct (Hfrom k b Hin) as [[]|?]; auto|].
  split; [|apply Hbs; constructor].
  intros k; rewrite Hkeys; simpl; tauto.
Qed.

Lemma set_add_iff s l x : In x (set_add s l) <-> x = s \/ In x l.
Proof.
  unfold set_add; destruct (existsb (String.eqb s) l) eqn:E.
  - apply existsb_exists in E as [y [Hy Hsy]]; apply String.eqb_eq in Hsy; subst.
    split; [auto|intros [->|?]; auto].
  - rewrite in_app_iff; simpl; intuition (subst; auto).
Qed.

Lemma crd_loop_buildsets E es data bs data' bs' :
  crd_loop E es data bs = Ok (data', bs') ->
  forall s, In s bs' <->
    In s bs \/ exists p r, In (p, Some r) es /\ r_buildset r = s.
Proof.
  revert data bs; induction es as [|[p [r|]] es IH]; intros data bs; simpl.
  - intros H; inversion H; subst; intros s; split; auto.
    intros [?|(? & ? & [] & _)]; auto.
  - destruct (process_build E p r) as [b|e] eqn:Hb; simpl; [|discriminate].
    intros H s; rewrite (IH _ _ H s), set_add_iff.
    assert (Hbs : buildset b = r_buildset r)
      by (apply process_build_key in Hb; unfold key_of, raw_key in Hb;
          congruence).
    rewrite Hbs; split.
    + intros [[->|?]|(p' & r' & ? & ?)]; eauto.
      * right; exists p, r; auto.
      * right; exists p', r'; auto.
    + intros [?|(p' & r' & [Hpr|?] & <-)]; auto.
      * inversion Hpr; subst; auto.
      * right; exists p', r'; auto.
  - discriminate.
Qed.

Lemma scan_size_line_total l b :
  match_field "Program:" l <> Some EmptyString ->
  match_field "Data:" l <> Some EmptyString ->
  exists b', scan_size_line l b = Ok b'.
Proof.
  unfold scan_size_line, py_int.
  destruct (match_field "Program:" l) as [[|c g]|];
    destruct (match_field "Data:" l) as [[|c' g']|];
    simpl; intros H1 H2; try congruence; eauto.
Qed.

Lemma scan_size_lines_total lines b :
  (forall l, In l lines ->
     match_field "Program:" l <> Some EmptyString
     /\ match_field "Data:" l <> Some EmptyString) ->
  exists b', scan_size_lines lines b = Ok b'.
Proof.
  revert b; induction lines as [|l ls IH]; intros b Hl; simpl; [eauto|].
  destruct (Hl l (or_introl eq_refl)) as [H1 H2].
  destruct (scan_size_line_total l b H1 H2) as [b1 ->]; simpl.
  apply IH; intros l' Hl'; apply Hl; right; exact Hl'.
Qed.

(** The measurement of a record with exit status 0, by outcome of the size
    tool. *)
Lemma process_build_nonzero E p r :
  r_exit_code r = 0%Z ->
  run_size E (elffile p (of_raw r)) = ProcNonZero ->
  process_build E p r = Ok (measured r Failed_to_get_size None None None).
Proof.
  intros Hz Hs; unfold process_build; cbn [of_raw exit_code]; rewrite Hz; simpl.
  unfold add_extra_info; rewrite Hs; reflexivity.
Qed.

Lemma process_build_noexec E p r :
  r_exit_code r = 0%Z ->
  run_size E (elffile p (of_raw r)) = ProcNoExec ->
  process_build E p r = Err FileNotFoundError.
Proof.
  intros Hz Hs; unfold process_build; cbn [of_raw exit_code]; rewrite Hz; simpl.
  unfold add_extra_info; rewrite Hs; reflexivity.
Qed.

Lemma process_build_nohex E p r lines :
  r_exit_code r = 0%Z ->
  run_size E (elffile p (of_raw r)) = ProcOk lines ->
  read_file E (hexfile p (of_raw r)) = None ->
  exists e, process_build E p r = Err e.
Proof.
  intros Hz Hs Hh; unfold process_build; cbn [of_raw exit_code]; rewrite Hz; simpl.
  unfold add_extra_info; rewrite Hs.
  destruct (scan_size_lines lines (of_raw r)) as [b1|e] eqn:Hl; simpl.
  - rewrite Hh; simpl; eauto.
  - apply scan_size_lines_err in Hl; subst; simpl; eauto.
Qed.

Lemma process_build_measured E p r lines c :
  r_exit_code r = 0%Z ->
  run_size E (elffile p (of_raw r)) = ProcOk lines ->
  read_file E (hexfile p (of_raw r)) = Some c ->
  (forall l, In l lines ->
     match_field "Program:" l <> Some EmptyString
     /\ match_field "Data:" l <> Some EmptyString) ->
  exists ps ds, process_build E p r = Ok (measured r OK ps ds (Some (sha1_hexdigest E c)))
    /\ (ps <> None <-> some_line_matches "Program:" lines)
    /\ (ds <> None <-> some_line_matches "Data:" lines).
Proof.
  intros Hz Hs Hh Hl.
  assert (Hok : exists b, process_build E p r = Ok b).
  { unfold process_build; cbn [of_raw exit_code]; rewrite Hz; simpl.
    unfold add_extra_info; rewrite Hs.
    destruct (scan_size_lines_total lines (of_raw r) Hl) as [b1 ->]; simpl.
    rewrite Hh; simpl; eauto. }
  destruct Hok as [b Hb].
  destruct (process_build_cases _ _ _ _ Hb)
    as [[Hz' _]|[[_ [Hs' _]]|[_ (lines' & c' & ps & ds & Hs' & Hh' & -> & Hp & Hd)]]].
  - contradiction.
  - congruence.
  - rewrite Hs in Hs'; rewrite Hh in Hh'; inversion Hs'; inversion Hh'; subst.
    exists ps, ds; auto.
Qed.

(** ** Well-formed datasets *)

(** What a record holds when [add_delta_info] is called on it: a status,
    the measurements of an OK build, no size deltas yet. *)
Definition wf_build (b : build) : Prop :=
  status_f b <> None
  /\ (status_f b = Some OK ->
      program_size b <> None /\ data_size b <> None /\ hash b <> None)
  /\ delta_program_size b = None /\ delta_data_size b = None.

Definition wf_dataset (d : dataset) : Prop :=
  dataset_ok d /\ forall k b, In (k, b) d -> wf_build b.

(** The classification of a build [b0] against its base build [bb], in the
    words of the specification: [b] is the annotated build. *)
Definition spec_delta (b0 bb b : build) : Prop :=
  (status_f b0 = Some OK -> status_f bb = Some OK ->
     (hash b0 = hash bb -> delta_status_f b = Some Identical)
     /\ (hash b0 <> hash bb -> delta_status_f b = Some Modified)
     /\ exists p pb d db,
          program_size b0 = Some p /\ program_size bb = Some pb
          /\ data_size b0 = Some d /\ data_size bb = Some db
          /\ delta_program_size b = Some (p - pb)%Z
          /\ delta_data_size b = Some (d - db)%Z)
  /\ (status_f b0 = Some OK -> status_f bb <> Some OK ->
        delta_status_f b = Some Fixed
        /\ delta_program_size b = None /\ delta_data_size b = None)
  /\ (status_f b0 <> Some OK -> status_f bb = Some OK ->
        delta_status_f b = Some Broken
        /\ delta_program_size b = None /\ delta_data_size b = None)
  /\ (status_f b0 <> Some OK -> status_f bb <> Some OK ->
        delta_status_f b = Some Still_broken
        /\ delta_program_size b = None /\ delta_data_size b = None).

Lemma annotate_nonbase base lookup b0 bb :
  buildset b0 <> base ->
  lookup (base, sketch_dir b0, board b0) = Some bb ->
  wf_build b0 -> wf_build bb ->
  exists b, annotate base lookup b0 = ([], Ok b)
    /\ is_base b = Some false /\ spec_delta b0 bb b.
Proof.
  intros Hne Hl [Hs0 [Hm0 [Hp0 Hd0]]] [Hs1 [Hm1 _]].
  apply String.eqb_neq in Hne.
  destruct b0 as [e0 sd0 sn0 bd0 bs0 st0 ps0 ds0 h0 ib0 dst0 dps0 dds0];
  destruct bb as [e1 sd1 sn1 bd1 bs1 st1 ps1 ds1 h1 ib1 dst1 dps1 dds1];
  cbn in *; subst dps0 dds0.
  unfold annotate; cbn; rewrite Hne, Hl.
  destruct st0 as [s0|]; [|congruence]; destruct st1 as [s1|]; [|congruence].
  destruct s0, s1; cbn;
  try (destruct (Hm0 eq_refl) as (Hp & Hd & Hh);
       destruct ps0 as [p0|]; [|congruence]; destruct ds0 as [d0|]; [|congruence];
       destruct h0 as [g0|]; [|congruence]);
  try (destruct (Hm1 eq_refl) as (Hp' & Hd' & Hh');
       destruct ps1 as [p1|]; [|congruence]; destruct ds1 as [d1|]; [|congruence];
       destruct h1 as [g1|]; [|congruence]);
  cbn; try destruct (String.eqb_spec g0 g1).
  all: eexists; split; [reflexivity|]; split; [reflexivity|].
  all: unfold spec_delta; cbn; repeat split; intros; try congruence.
  all: eexists; eexists; eexists; eexists; repeat split; reflexivity.
Qed.

Lemma annotate_nobase base lookup b0 :
  buildset b0 <> base ->
  lookup (base, sketch_dir b0, board b0) = None ->
  annotate base lookup b0
  = ([no_base_warning b0], Ok (set_delta_status No_base (set_is_base false b0))).
Proof.
  intros Hne Hl; apply String.eqb_neq in Hne.
  unfold annotate; simpl; rewrite Hne, Hl; reflexivity.
Qed.

Lemma annotate_delta_status base l b0 w b :
  annotate base l b0 = (w, Ok b) -> delta_status_f b <> None.
Proof.
  unfold annotate; simpl.
  destruct (String.eqb (buildset b0) base) eqn:Hb.
  - intros H; injection H as _ H; inv_ok; subst; discriminate.
  - destruct (l (base, sketch_dir b0, board b0)) as [bb|].
    + intros H; injection H as _ H; inv_ok; subst; discriminate.
    + intros H; injection H as _ H; inv_ok; subst; discriminate.
Qed.

Lemma wf_dataset_get d k b : wf_dataset d -> dict_get k d = Some b -> wf_build b.
Proof. intros [_ Hw] H; apply dict_get_in in H; eauto. Qed.

Lemma annotate_wf_ok data base k b0 :
  wf_dataset data -> In (k, b0) data ->
  exists wk b, annotate base (lookup_in data) b0 = (wk, Ok b).
Proof.
  intros Hwf Hin; pose proof (proj2 Hwf k b0 Hin) as Hb0.
  destruct (String.eqb_spec (buildset b0) base) as [Heq|Hne].
  - unfold annotate; simpl; rewrite Heq, String.eqb_refl.
    destruct Hb0 as [Hs _]; destruct (status_f b0) as [s|]; [|congruence].
    simpl; eauto.
  - destruct (lookup_in data (base, sketch_dir b0, board b0)) as [bb|] eqn:Hl.
    + destruct (annotate_nonbase base (lookup_in data) b0 bb Hne Hl Hb0)
        as (b & -> & _); [eapply wf_dataset_get; eauto|eauto].
    + rewrite (annotate_nobase _ _ _ Hne Hl); eauto.
Qed.

(** [add_delta_info] completes when every build can be annotated. *)
Lemma add_delta_info_complete data base :
  dataset_ok data ->
  (forall k b0, In (k, b0) data ->
     exists wk b, annotate base (lookup_in data) b0 = (wk, Ok b)) ->
  exists w d', add_delta_info data base = (w, Ok d').
Proof.
  intros Hok Hall; rewrite add_delta_info_model by exact Hok.
  apply delta_model_complete; intros k Hk.
  apply in_map_iff in Hk as [[k' b0] [Hk Hin]]; simpl in Hk; subst k'.
  destruct (Hall k b0 Hin) as (wk & b & Ha).
  exists b0, wk, b; split; [|exact Ha].
  apply dict_get_nodup_in; [apply Hok|exact Hin].
Qed.

Lemma add_delta_info_wf_ok data base :
  wf_dataset data -> exists w d', add_delta_info data base = (w, Ok d').
Proof.
  intros Hwf; apply add_delta_info_complete; [apply Hwf|].
  intros k b0 Hin; eapply annotate_wf_ok; eauto.
Qed.

(** Every record of the result is the annotation of a record of [data]. *)
Lemma add_delta_info_all data base w d' :
  dataset_ok data ->
  add_delta_info data base = (w, Ok d') ->
  forall k b, In (k, b) d' ->
    exists b0 wk, In (k, b0) data /\ annotate base (lookup_in data) b0 = (wk, Ok b).
Proof.
  intros Hok Ha k b Hin.
  destruct (add_delta_info_ok _ _ _ _ Hok Ha) as (Hall & Hok' & Hkeys).
  assert (Hk : In k (map fst data))
    by (rewrite <- Hkeys; apply (in_map fst) in Hin; exact Hin).
  apply in_map_iff in Hk as [[k' b0] [Hk Hin0]]; simpl in Hk; subst k'.
  destruct (Hall k b0 Hin0) as (wk & b' & Hann & Hget & _).
  rewrite (dict_get_nodup_in k b d' (proj1 Hok') Hin) in Hget.
  injection Hget as ->; eauto.
Qed.

Lemma wf_measured_ok r p d h : wf_build (measured r OK (Some p) (Some d) (Some h)).
Proof.
  unfold wf_build; simpl; split; [discriminate|].
  split; [intros _; repeat split; discriminate|split; reflexivity].
Qed.

(** ** Facts about [report] *)

(** A successful [report]: the rows are the rendering of the dataset
    built by [create_report_data], annotated when a base is selected. *)
Lemma report_ok_shape E root base_set w rows :
  report E root base_set = (w, Ok rows) ->
  exists data bs d',
    create_report_data E root = Ok (data, bs)
    /\ rows = render d' (select_base base_set bs)
    /\ dataset_ok d' /\ map fst d' = map fst data
    /\ (forall k b0, In (k, b0) data -> exists b, In (k, b) d' /\ core b = core b0)
    /\ (truthy (select_base base_set bs) = false -> d' = data /\ w = []).
Proof.
  unfold report.
  destruct (create_report_data E root) as [[data bs]|e] eqn:Hc;
    [|intros H; discriminate H].
  destruct (create_report_data_ok _ _ _ _ Hc) as (Hok & _).
  destruct (select_base base_set bs) as [b|] eqn:Hs.
  - destruct (truthy (Some b)) eqn:Ht.
    + destruct (add_delta_info data b) as [w' [d'|e]] eqn:Ha; simpl;
        intros H; [|discriminate H]; injection H as <- <-.
      destruct (add_delta_info_ok _ _ _ _ Hok Ha) as (Hall & Hok' & Hkeys).
      exists data, bs, d'; rewrite Hs; split; [reflexivity|split; [reflexivity|]].
      split; [exact Hok'|split; [exact Hkeys|split; [|rewrite Ht; discriminate]]].
      intros k b0 Hin; destruct (Hall k b0 Hin) as (wk & b' & Hann & Hget & _).
      exists b'; split; [apply dict_get_in, Hget|].
      apply (annotate_core _ _ _ _ _ Hann).
    + intros H; injection H as <- <-.
      exists data, bs, data; rewrite Hs.
      split; [reflexivity|split; [reflexivity|split; [exact Hok|split; [reflexivity|]]]].
      split; [intros k b0 Hin; exists b0; auto|auto].
  - intros H; injection H as <- <-.
    exists data, bs, data; rewrite Hs.
    split; [reflexivity|split; [reflexivity|split; [exact Hok|split; [reflexivity|]]]].
    split; [intros k b0 Hin; exists b0; auto|auto].
Qed.

Lemma build_report_row_length get delta :
  truthy delta = false -> length (build_report_row get delta) = length report_attrs.
Proof.
  intros H; unfold build_report_row; rewrite H, app_nil_r, length_map; reflexivity.
Qed.

Lemma existsb_base bs : existsb (String.eqb "base") bs = true <-> In "base" bs.
Proof.
  rewrite existsb_exists; split.
  - intros [x [Hx Hb]]; apply String.eqb_eq in Hb; subst; exact Hx.
  - intros Hin; exists "base"; split; [exact Hin|apply String.eqb_refl].
Qed.

Lemma item_lt_irrefl a : ~ item_lt a a.
Proof.
  unfold item_lt; intros H.
  pose proof (key_compare_antisym (fst a) (fst a)) as Hs; rewrite H in Hs.
  discriminate.
Qed.

(** Two strictly sorted orderings of the same items are the same list. *)
Lemma strongly_sorted_unique : forall l1 l2,
  StronglySorted item_lt l1 -> StronglySorted item_lt l2 ->
  Permutation l1 l2 -> l1 = l2.
Proof.
  induction l1 as [|a l1 IH]; intros l2 S1 S2 P.
  - symmetry; apply Permutation_nil, P.
  - destruct l2 as [|b l2].
    + apply Permutation_sym, Permutation_nil in P; discriminate.
    + apply StronglySorted_inv in S1 as [S1 F1].
      apply StronglySorted_inv in S2 as [S2 F2].
      assert (Hab : a = b).
      { assert (Ha : In a (b :: l2)) by (apply (Permutation_in _ P); left; reflexivity).
        assert (Hb : In b (a :: l1))
          by (apply (Permutation_in _ (Permutation_sym P)); left; reflexivity).
        destruct Ha as [Ha|Ha]; [symmetry; exact Ha|].
        destruct Hb as [Hb|Hb]; [exact Hb|].
        rewrite Forall_forall in F1, F2.
        exfalso; apply (item_lt_irrefl a).
        apply (item_lt_trans a b a); [apply F1, Hb|apply F2, Ha]. }
      subst b; f_equal; apply IH; auto.
      apply Permutation_cons_inv in P; exact P.
Qed.

(** The rendering does not depend on the order of the items of the dict. *)
Lemma render_perm d1 d2 delta :
  NoDup (map fst d1) -> Permutation d1 d2 -> render d1 delta = render d2 delta.
Proof.
  intros Hnd P; unfold render; f_equal; f_equal.
  assert (Hnd2 : NoDup (map fst d2))
    by (apply (Permutation_NoDup (Permutation_map fst P)), Hnd).
  apply strongly_sorted_unique; auto using sort_items_sorted.
  rewrite sort_items_perm, sort_items_perm; exact P.
Qed.


(** * The properties of the specification *)

(** ** Measurement failures *)

(** C1 (as the code behaves): for a scanned record with exit status 0, only
    a non-zero exit status of the size tool is recovered: the record gets
    the status [Failed to get size] with no sizes and no hash, and the loop
    goes on with the next record. A size tool that cannot be started, or a
    missing [.hex] file, aborts the whole run. A size line missing from the
    tool's output is not a failure: the record gets the status [OK], without
    the [Program] ([Data]) size exactly when no line of the output matches
    that label, and the loop goes on with the next record. *)
Theorem measure_failure_handling E p r rest data bs :
  r_exit_code r = 0%Z ->
  (run_size E (elffile p (of_raw r)) = ProcNonZero ->
     crd_loop E ((p, Some r) :: rest) data bs
     = crd_loop E rest
         (dict_set (raw_key r) (measured r Failed_to_get_size None None None) data)
         (set_add (r_buildset r) bs))
  /\ (run_size E (elffile p (of_raw r)) = ProcNoExec ->
        crd_loop E ((p, Some r) :: rest) data bs = Err FileNotFoundError)
  /\ (forall lines, run_size E (elffile p (of_raw r)) = ProcOk lines ->
        read_file E (hexfile p (of_raw r)) = None ->
        exists e, crd_loop E ((p, Some r) :: rest) data bs = Err e)
  /\ (forall lines c, run_size E (elffile p (of_raw r)) = ProcOk lines ->
        read_file E (hexfile p (of_raw r)) = Some c ->
        (forall l, In l lines ->
           match_field "Program:" l <> Some EmptyString
           /\ match_field "Data:" l <> Some EmptyString) ->
        exists ps ds,
          process_build E p r = Ok (measured r OK ps ds (Some (sha1_hexdigest E c)))
          /\ crd_loop E ((p, Some r) :: rest) data bs
             = crd_loop E rest
                 (dict_set (raw_key r)
                    (measured r OK ps ds (Some (sha1_hexdigest E c))) data)
                 (set_add (r_buildset r) bs)
          /\ (ps = None <-> ~ some_line_matches "Program:" lines)
          /\ (ds = None <-> ~ some_line_matches "Data:" lines)).
Proof.
  intros Hz; split; [|split; [|split]].
  - intros Hs; cbn [crd_loop]; rewrite (process_build_nonzero E p r Hz Hs).
    reflexivity.
  - intros Hs; cbn [crd_loop]; rewrite (process_build_noexec E p r Hz Hs).
    reflexivity.
  - intros lines Hs Hh.
    destruct (process_build_nohex E p r lines Hz Hs Hh) as [e He].
    exists e; cbn [crd_loop]; rewrite He; reflexivity.
  - intros lines c Hs Hh Hl.
    destruct (process_build_measured E p r lines c Hz Hs Hh Hl)
      as (ps & ds & Hb & Hp & Hd).
    exists ps, ds; split; [exact Hb|split; [|split]].
    + cbn [crd_loop]; rewrite Hb; reflexivity.
    + split; [intros -> Hm; apply Hp in Hm; congruence|].
      intros Hn; destruct ps as [v|]; [|reflexivity].
      exfalso; apply Hn, Hp; discriminate.
    + split; [intros -> Hm; apply Hd in Hm; congruence|].
      intros Hn; destruct ds as [v|]; [|reflexivity].
      exfalso; apply Hn, Hd; discriminate.
Qed.

Lemma measure_failure_handling_witness :
  crd_loop (sample_env ProcNonZero None)
    [(["base"; "blink"; "uno"], Some (raw_blink "base" "uno" 0))] [] []
  = Ok ([(("base", "blink", "uno"),
          measured (raw_blink "base" "uno" 0) Failed_to_get_size None None None)],
        ["base"]).
Proof.
  destruct (measure_failure_handling (sample_env ProcNonZero None)
              ["base"; "blink"; "uno"] (raw_blink "base" "uno" 0) [] [] []
              eq_refl) as [H _].
  etransitivity; [exact (H eq_refl)|vm_compute; reflexivity].
Defined.

(** C1, refuted as stated: an output without the [Program] and [Data]
    lines gives a record with the status [OK] and no sizes; a missing
    [.hex] file and a size tool that cannot be started abort the run. *)
Lemma measure_failure_not_recovered :
  create_report_data (sample_env (ProcOk ["AVR Memory Usage"]) (Some ":00000001FF"))
    tree_base
  = Ok ([(("base", "blink", "uno"),
          measured (raw_blink "base" "uno" 0) OK None None (Some "5f1c"))], ["base"])
  /\ create_report_data (sample_env (ProcOk size_output) None) tree_base
     = Err FileNotFoundError
  /\ create_report_data (sample_env ProcNoExec (Some ":00000001FF")) tree_base
     = Err FileNotFoundError.
Proof. split; [|split]; vm_compute; reflexivity. Qed.

(** ** The measurement fields of a record *)

(** C2 (as the code behaves): every record of the dataset built by
    [create_report_data] comes from a scanned [build.json] under its key.
    A record whose status is not [OK] has no [program_size], no [data_size]
    and no [hash]. A record whose status is [OK] has a [hash], and it has a
    [program_size] (a [data_size]) exactly when some line of the output of
    the size tool matched the [Program] ([Data]) pattern. *)
Theorem dataset_measurement_fields E root data bs k b :
  create_report_data E root = Ok (data, bs) -> In (k, b) data ->
  exists p r, In (p, Some r) (find_builds root) /\ k = raw_key r
  /\ (status_f b <> Some OK ->
        program_size b = None /\ data_size b = None /\ hash b = None)
  /\ (status_f b = Some OK ->
        (exists h, hash b = Some h)
        /\ exists lines, run_size E (elffile p (of_raw r)) = ProcOk lines
           /\ (program_size b <> None <-> some_line_matches "Program:" lines)
           /\ (data_size b <> None <-> some_line_matches "Data:" lines)).
Proof.
  intros Hc Hin.
  destruct (create_report_data_ok _ _ _ _ Hc) as (Hok & Hfrom & _).
  destruct (Hfrom k b Hin) as (p & r & Hpr & Hb).
  exists p, r; split; [exact Hpr|].
  split; [rewrite <- (process_build_key _ _ _ _ Hb); apply (proj2 Hok _ _ Hin)|].
  destruct (process_build_cases _ _ _ _ Hb)
    as [[_ ->]|[[_ [_ ->]]|[_ (lines & c & ps & ds & Hs & _ & -> & Hp & Hd)]]];
    simpl.
  - split; [auto|intros H; discriminate H].
  - split; [auto|intros H; discriminate H].
  - split; [intros H; congruence|].
    intros _; split; [eauto|]; exists lines; auto.
Qed.

Lemma dataset_measurement_fields_witness :
  exists p r, In (p, Some r) (find_builds tree_base)
    /\ (("base", "blink", "uno") : key) = raw_key r.
Proof.
  assert (Hc : create_report_data good_env tree_base
               = Ok ([(("base", "blink", "uno"), sample_build "base" "uno")], ["base"]))
    by (vm_compute; reflexivity).
  destruct (dataset_measurement_fields good_env tree_base _ _ ("base", "blink", "uno")
              (sample_build "base" "uno") Hc (or_introl eq_refl))
    as (p & r & Hpr & Hk & _).
  exists p, r; split; assumption.
Defined.

(** C2, refuted as stated: a record with the status [OK] need not have a
    [program_size]: here the size tool printed only the [Data] line. *)
Lemma ok_record_without_sizes :
  create_report_data (sample_env (ProcOk ["Data:          9 bytes"]) (Some ":00000001FF"))
    tree_base
  = Ok ([(("base", "blink", "uno"),
          measured (raw_blink "base" "uno" 0) OK None (Some 9%Z) (Some "5f1c"))],
        ["base"]).
Proof. vm_compute; reflexivity. Qed.

(** ** The scanner *)

(** C8: [find_builds] yields exactly the directories reached from the root
    through directories without [build.json] and that hold a
    [build.json] ([top_marker]); a directory with [build.json] yields
    itself alone, whatever it contains; a directory without it is
    traversed; a directory without [build.json] and without
    subdirectories yields nothing and gives no error. *)
Theorem find_builds_markers :
  (forall root p c,
     In (p, c) (find_builds root)
     <-> exists e, top_marker root p e /\ find_file marker (dir_files e) = Some c)
  /\ (forall q fs ss c,
        find_file marker fs = Some c -> walk q (Dir fs ss) = [(q, c)])
  /\ (forall q fs ss,
        find_file marker fs = None ->
        walk q (Dir fs ss) = flat_map (fun nd => walk (q ++ [fst nd])%list (snd nd)) ss)
  /\ (forall q fs,
        find_file marker fs = None ->
        walk q (Dir fs []) = [] /\ forall E, create_report_data E (Dir fs []) = Ok ([], [])).
Proof.
  split; [|split; [|split]].
  - intros root p c; unfold find_builds; rewrite walk_spec; split.
    + intros (p' & e & -> & Ht & Hc); exists e; auto.
    + intros (e & Ht & Hc); exists p, e; auto.
  - intros q fs ss c Hm; simpl; rewrite Hm; reflexivity.
  - intros q fs ss Hm; simpl; rewrite Hm; reflexivity.
  - intros q fs Hm; split.
    + simpl; rewrite Hm; reflexivity.
    + intros E; unfold create_report_data, find_builds; simpl; rewrite Hm; reflexivity.
Qed.

(** ** The hash of an OK record *)

(** C9: every record with the status [OK] in the dataset built by
    [create_report_data] has a [hash], whether or not it has sizes. *)
Theorem ok_record_has_hash E root data bs k b :
  create_report_data E root = Ok (data, bs) -> In (k, b) data ->
  status_f b = Some OK -> exists h, hash b = Some h.
Proof.
  intros Hc Hin Hst.
  destruct (create_report_data_ok _ _ _ _ Hc) as (_ & Hfrom & _).
  destruct (Hfrom k b Hin) as (p & r & _ & Hb).
  destruct (process_build_cases _ _ _ _ Hb)
    as [[_ ->]|[[_ [_ ->]]|[_ (lines & c & ps & ds & _ & _ & -> & _)]]];
    simpl in *; [discriminate|discriminate|eauto].
Qed.

Lemma ok_record_has_hash_witness :
  program_size (measured (raw_blink "base" "uno" 0) OK None None (Some "5f1c")) = None
  /\ exists h, hash (measured (raw_blink "base" "uno" 0) OK None None (Some "5f1c")) = Some h.
Proof.
  assert (Hc : create_report_data
                 (sample_env (ProcOk ["AVR Memory Usage"]) (Some ":00000001FF")) tree_base
               = Ok ([(("base", "blink", "uno"),
                       measured (raw_blink "base" "uno" 0) OK None None (Some "5f1c"))],
                     ["base"]))
    by (vm_compute; reflexivity).
  split; [reflexivity|].
  apply (ok_record_has_hash _ _ _ _ _ _ Hc (or_introl eq_refl) eq_refl).
Defined.

(** ** The delta engine *)

(** C3: on a well-formed dataset, [add_delta_info] completes, and a record
    [b0] outside the base buildset whose base record [bb] exists ends up
    classified by [spec_delta]: Identical or Modified by the hashes when
    both are [OK], with the size deltas the differences of the sizes;
    otherwise Fixed, Broken or Still broken, without size deltas. *)
Theorem delta_classification data base k b0 bb :
  wf_dataset data -> In (k, b0) data -> buildset b0 <> base ->
  dict_get (base, sketch_dir b0, board b0) data = Some bb ->
  exists w d' b, add_delta_info data base = (w, Ok d')
    /\ dict_get k d' = Some b /\ spec_delta b0 bb b.
Proof.
  intros Hwf Hin Hne Hl.
  destruct (add_delta_info_wf_ok data base Hwf) as (w & d' & Ha).
  destruct (add_delta_info_ok _ _ _ _ (proj1 Hwf) Ha) as (Hall & _).
  destruct (Hall k b0 Hin) as (wk & b & Hann & Hget & _).
  destruct (annotate_nonbase base (lookup_in data) b0 bb Hne Hl)
    as (b' & Hann' & _ & Hspec).
  - exact (proj2 Hwf k b0 Hin).
  - eapply wf_dataset_get; eauto.
  - rewrite Hann' in Hann; injection Hann as _ <-.
    exists w, d', b'; auto.
Qed.

Lemma base_next_data_wf : wf_dataset base_next_data.
Proof.
  split; [split|].
  - repeat constructor; simpl; intuition discriminate.
  - intros k b [H|[H|[]]]; injection H as <- <-; reflexivity.
  - intros k b [H|[H|[]]]; injection H as <- <-; apply wf_measured_ok.
Qed.

Lemma base_leonardo_data_wf : wf_dataset base_leonardo_data.
Proof.
  split; [split|].
  - repeat constructor; simpl; intuition discriminate.
  - intros k b [H|[H|[]]]; injection H as <- <-; reflexivity.
  - intros k b [H|[H|[]]]; injection H as <- <-; apply wf_measured_ok.
Qed.

Lemma delta_classification_witness :
  exists w d' b, add_delta_info base_next_data "base" = (w, Ok d')
    /\ dict_get ("next", "blink", "uno") d' = Some b
    /\ delta_status_f b = Some Identical /\ delta_program_size b = Some 0%Z.
Proof.
  destruct (delta_classification base_next_data "base" ("next", "blink", "uno")
              (sample_build "next" "uno") (sample_build "base" "uno")
              base_next_data_wf (or_intror (or_introl eq_refl))
              ltac:(discriminate) eq_refl)
    as (w & d' & b & Ha & Hg & [Hboth _]).
  destruct (Hboth eq_refl eq_refl) as (Hid & _ & (p & pb & d & db & Hp & Hpb & _ & _ & Hdp & _)).
  exists w, d', b; split; [exact Ha|split; [exact Hg|split; [apply Hid; reflexivity|]]].
  rewrite Hdp; injection Hp as <-; injection Hpb as <-; reflexivity.
Defined.

(** C5: on a well-formed dataset, a record [b0] outside the base buildset
    with no record under its base key gets the status [No base] and no size
    deltas, the warning naming its buildset, sketch and board is written to
    [sys.stderr], and the run completes with every record annotated. *)
Theorem delta_no_base data base k b0 :
  wf_dataset data -> In (k, b0) data -> buildset b0 <> base ->
  dict_get (base, sketch_dir b0, board b0) data = None ->
  exists w d' b, add_delta_info data base = (w, Ok d')
    /\ In (no_base_warning b0) w
    /\ dict_get k d' = Some b /\ delta_status_f b = Some No_base
    /\ delta_program_size b = None /\ delta_data_size b = None
    /\ map fst d' = map fst data
    /\ (forall k2 b2, In (k2, b2) d' -> delta_status_f b2 <> None).
Proof.
  intros Hwf Hin Hne Hl.
  destruct (add_delta_info_wf_ok data base Hwf) as (w & d' & Ha).
  destruct (add_delta_info_ok _ _ _ _ (proj1 Hwf) Ha) as (Hall & _ & Hkeys).
  destruct (Hall k b0 Hin) as (wk & b & Hann & Hget & Hincl).
  rewrite (annotate_nobase base (lookup_in data) b0 Hne Hl) in Hann.
  injection Hann as <- <-.
  destruct (proj2 Hwf k b0 Hin) as (_ & _ & Hdp & Hdd).
  exists w, d', (set_delta_status No_base (set_is_base false b0)).
  split; [exact Ha|split; [apply Hincl; left; reflexivity|]].
  split; [exact Hget|split; [reflexivity|split; [exact Hdp|split; [exact Hdd|]]]].
  split; [exact Hkeys|].
  intros k2 b2 Hin2.
  destruct (add_delta_info_all _ _ _ _ (proj1 Hwf) Ha k2 b2 Hin2) as (b2' & wk2 & _ & Ha2).
  exact (annotate_delta_status _ _ _ _ _ Ha2).
Qed.

Lemma delta_no_base_witness :
  exists w d' b, add_delta_info base_leonardo_data "base" = (w, Ok d')
    /\ In (no_base_warning (sample_build "next" "leonardo")) w
    /\ dict_get ("next", "blink", "leonardo") d' = Some b
    /\ delta_status_f b = Some No_base.
Proof.
  destruct (delta_no_base base_leonardo_data "base" ("next", "blink", "leonardo")
              (sample_build "next" "leonardo") base_leonardo_data_wf
              (or_intror (or_introl eq_refl)) ltac:(discriminate) eq_refl)
    as (w & d' & b & Ha & Hw & Hg & Hs & _).
  exists w, d', b; auto.
Defined.

(** ** The choice of the base buildset *)

(** C6: after a successful [create_report_data], the buildsets are the
    distinct buildsets of the scanned records; with no base given,
    ['base'] is selected exactly when it is one of them and there are at
    least two, and nothing is selected otherwise; when no base is selected
    the report has no delta columns: it is the rendering of the dataset
    as built, with rows of the six [report_attrs] cells. *)
Theorem auto_base_selection E root data bs :
  create_report_data E root = Ok (data, bs) ->
  NoDup bs
  /\ (forall s, In s bs <->
        exists p r, In (p, Some r) (find_builds root) /\ r_buildset r = s)
  /\ (select_base None bs = Some "base" <-> In "base" bs /\ (1 < length bs)%nat)
  /\ (select_base None bs = Some "base" \/ select_base None bs = None)
  /\ (forall base_set, truthy (select_base base_set bs) = false ->
        report E root base_set = ([], Ok (render data (select_base base_set bs)))
        /\ forall row, In row (render data (select_base base_set bs)) ->
             length row = length report_attrs).
Proof.
  intros Hc.
  destruct (create_report_data_ok _ _ _ _ Hc) as (_ & _ & _ & Hnd).
  split; [exact Hnd|split; [|split; [|split]]].
  - intros s; rewrite (crd_loop_buildsets _ _ _ _ _ _ Hc s); simpl; tauto.
  - unfold select_base; change (negb (truthy None)) with true.
    rewrite andb_true_r, <- existsb_base.
    destruct (Nat.ltb_spec 1 (length bs)) as [Hlt|Hge];
      destruct (existsb (String.eqb "base") bs); simpl;
      (split; [intros H'; first [discriminate H' | split; [reflexivity|exact Hlt]]
              |intros [H1 H2]; try discriminate H1; try lia; reflexivity]).
  - unfold select_base.
    destruct (Nat.ltb 1 (length bs) && negb (truthy None)
              && existsb (String.eqb "base") bs)%bool; auto.
  - intros base_set Ht; split.
    + unfold report; rewrite Hc.
      destruct (select_base base_set bs) as [b|]; [rewrite Ht|]; reflexivity.
    + intros row Hrow; unfold render in Hrow; destruct Hrow as [<-|Hrow].
      * apply build_report_row_length, Ht.
      * apply in_map_iff in Hrow as [kb [<- _]]; apply build_report_row_length, Ht.
Qed.

(** The dataset [good_env] builds from [tree_base_next]. *)
Lemma tree_base_next_data :
  create_report_data good_env tree_base_next = Ok (base_next_data, ["base"; "next"]).
Proof. vm_compute; reflexivity. Qed.

Lemma auto_base_selection_witness :
  select_base None ["base"; "next"] = Some "base".
Proof.
  destruct (auto_base_selection _ _ _ _ tree_base_next_data) as (_ & _ & Hsel & _).
  apply Hsel; split; [left; reflexivity|simpl; lia].
Defined.

(** ** The rows of the report *)

(** C7: the rows of a successful [report] are the header row, then one row
    per item of the dataset, the items in strictly ascending order of their
    keys [(buildset, sketch_dir, board)] compared as Python compares tuples
    of strings; the rows do not depend on the order in which the dataset
    holds its items. *)
Theorem report_rows_sorted E root base_set w rows :
  report E root base_set = (w, Ok rows) ->
  exists delta items,
    rows = build_report_row report_headers delta
           :: map (fun kb => build_report_row (build_get (snd kb)) delta) items
    /\ StronglySorted item_lt items
    /\ (forall kb, In kb items -> fst kb = key_of (snd kb))
    /\ (forall items', Permutation items' items -> render items' delta = rows).
Proof.
  intros H.
  destruct (report_ok_shape _ _ _ _ _ H) as (data & bs & d' & _ & Hrows & Hok & _).
  exists (select_base base_set bs), (sort_items d').
  split; [rewrite Hrows; reflexivity|].
  split; [apply sort_items_sorted, Hok|].
  split.
  - intros [k b] Hin; apply (Permutation_in _ (sort_items_perm d')) in Hin.
    exact (proj2 Hok k b Hin).
  - intros items' P; rewrite Hrows; symmetry; apply render_perm; [apply Hok|].
    rewrite <- (sort_items_perm d'); symmetry; exact P.
Qed.

Lemma report_rows_sorted_witness :
  exists delta items,
    snd (report good_env tree_base_next None)
    = Ok (build_report_row report_headers delta
          :: map (fun kb => build_report_row (build_get (snd kb)) delta) items)
    /\ StronglySorted item_lt items.
Proof.
  destruct (report good_env tree_base_next None) as [w r] eqn:H.
  destruct r as [rows|e]; [|vm_compute in H; discriminate H].
  destruct (report_rows_sorted _ _ _ _ _ H) as (delta & items & Hrows & Hs & _).
  exists delta, items; simpl; rewrite Hrows; auto.
Defined.

(** C4 (as the code behaves): the rows of a successful [report] after the
    header are one per distinct key [(buildset, sketch_dir, board)] among
    the scanned records, not one per scanned record: when several scanned
    records have the same key, the row shows the last one scanned. *)
Theorem report_rows_per_key E root base_set w rows :
  report E root base_set = (w, Ok rows) ->
  exists delta items,
    rows = build_report_row report_headers delta
           :: map (fun kb => build_report_row (build_get (snd kb)) delta) items
    /\ NoDup (map fst items)
    /\ (forall k, In k (map fst items) <->
          exists p r, In (p, Some r) (find_builds root) /\ raw_key r = k)
    /\ (forall pre p r post,
          find_builds root = (pre ++ (p, Some r) :: post)%list ->
          (forall p' r', In (p', Some r') post -> raw_key r' <> raw_key r) ->
          exists b0 b, process_build E p r = Ok b0
            /\ In (raw_key r, b) items /\ core b = core b0).
Proof.
  intros H.
  destruct (report_ok_shape _ _ _ _ _ H)
    as (data & bs & d' & Hc & Hrows & Hok & Hkeys & Hcore & _).
  destruct (create_report_data_ok _ _ _ _ Hc) as (_ & _ & Hscan & _).
  assert (Hperm : Permutation (map fst (sort_items d')) (map fst d'))
    by (apply Permutation_map, sort_items_perm).
  exists (select_base base_set bs), (sort_items d').
  split; [rewrite Hrows; reflexivity|].
  split; [apply (Permutation_NoDup (Permutation_sym Hperm)), Hok|].
  split.
  - intros k; rewrite <- Hscan, <- Hkeys; split; intros Hk.
    + apply (Permutation_in _ Hperm), Hk.
    + apply (Permutation_in _ (Permutation_sym Hperm)), Hk.
  - intros pre p r post Hf Hpost.
    unfold create_report_data in Hc; rewrite Hf in Hc.
    destruct (crd_loop_last _ _ _ _ _ _ _ _ _ Hc Hpost) as (b0 & Hb & Hg).
    destruct (Hcore _ _ (dict_get_in _ _ _ Hg)) as (b & Hin & Hc').
    exists b0, b; split; [exact Hb|split; [|exact Hc']].
    apply (Permutation_in _ (Permutation_sym (sort_items_perm d'))), Hin.
Qed.

Lemma report_rows_per_key_witness :
  exists (delta : option string) (items : dataset),
    snd (report good_env tree_base_next None)
    = Ok (build_report_row report_headers delta
          :: map (fun kb => build_report_row (build_get (snd kb)) delta) items)
    /\ NoDup (map fst items).
Proof.
  destruct (report good_env tree_base_next None) as [w r] eqn:H.
  destruct r as [rows|e]; [|vm_compute in H; discriminate H].
  destruct (report_rows_per_key _ _ _ _ _ H) as (delta & items & Hrows & Hnd & _).
  exists delta, items; simpl; rewrite Hrows; auto.
Defined.

(** C4, refuted as stated: the same build found at two places in the
    result directory is scanned twice and gives one row. *)
Lemma copied_build_one_row :
  length (find_builds tree_copied) = 2%nat
  /\ report good_env tree_copied None
     = ([], Ok (render [(("base", "blink", "uno"), sample_build "base" "uno")] None)).
Proof. split; vm_compute; reflexivity. Qed.

(** ** An explicit base buildset *)

(** C10 (as the code behaves): a non-empty base buildset given on the
    command line is used unchanged ([--base-set ''] counts as none given
    and may be replaced by ['base']); when no record has that buildset,
    [add_delta_info] completes and every record gets [is_base] No and the
    status [No base]; whenever [add_delta_info] completes, every record has
    an [is_base] value. *)
Theorem explicit_base_kept E root b data bs :
  b <> "" -> create_report_data E root = Ok (data, bs) ->
  select_base (Some b) bs = Some b
  /\ (forall w d', add_delta_info data b = (w, Ok d') ->
        report E root (Some b) = (w, Ok (render d' (Some b)))
        /\ forall k r, In (k, r) d' -> is_base r <> None)
  /\ ((forall k r, In (k, r) data -> buildset r <> b) ->
      exists w d', add_delta_info data b = (w, Ok d')
        /\ forall k r, In (k, r) d' ->
             is_base r = Some false /\ delta_status_f r = Some No_base).
Proof.
  intros Hb Hc.
  destruct (create_report_data_ok _ _ _ _ Hc) as (Hok & _).
  assert (Ht : truthy (Some b) = true)
    by (simpl; apply String.eqb_neq in Hb; rewrite Hb; reflexivity).
  assert (Hsel : select_base (Some b) bs = Some b)
    by (unfold select_base; rewrite Ht; cbn [negb]; rewrite andb_false_r; reflexivity).
  split; [exact Hsel|split].
  - intros w d' Ha; split.
    + unfold report; rewrite Hc; cbv zeta; rewrite Hsel, Ht, Ha; reflexivity.
    + intros k r Hin.
      destruct (add_delta_info_all _ _ _ _ Hok Ha k r Hin) as (b0 & wk & _ & Hann).
      rewrite (proj2 (annotate_core _ _ _ _ _ Hann)); discriminate.
  - intros Hnone.
    assert (Hann : forall k b0, In (k, b0) data ->
              annotate b (lookup_in data) b0
              = ([no_base_warning b0],
                 Ok (set_delta_status No_base (set_is_base false b0)))).
    { intros k b0 Hin; apply annotate_nobase; [exact (Hnone k b0 Hin)|].
      apply dict_get_none; intros Hk.
      apply in_map_iff in Hk as [[k' r] [Hk' Hin']]; simpl in Hk'; subst k'.
      pose proof (proj2 Hok _ _ Hin') as Hkey; unfold key_of in Hkey.
      injection Hkey as Hbs _ _.
      apply (Hnone _ _ Hin'); symmetry; exact Hbs. }
    destruct (add_delta_info_complete data b Hok) as (w & d' & Ha).
    + intros k b0 Hin; rewrite (Hann k b0 Hin); eauto.
    + exists w, d'; split; [exact Ha|].
      intros k r Hin.
      destruct (add_delta_info_all _ _ _ _ Hok Ha k r Hin) as (b0 & wk & Hin0 & Ha0).
      rewrite (Hann k b0 Hin0) in Ha0; injection Ha0 as _ <-.
      split; reflexivity.
Qed.

Lemma explicit_base_kept_witness :
  select_base (Some "nightly") ["base"; "next"] = Some "nightly"
  /\ exists w d', add_delta_info base_next_data "nightly" = (w, Ok d')
       /\ forall k r, In (k, r) d' ->
            is_base r = Some false /\ delta_status_f r = Some No_base.
Proof.
  destruct (explicit_base_kept good_env tree_base_next "nightly" _ _
              ltac:(discriminate) tree_base_next_data) as (Hsel & _ & Hnone).
  split; [exact Hsel|apply Hnone].
  intros k r [H|[H|[]]]; injection H as _ <-; discriminate.
Defined.

(** C10, refuted as stated: [--base-set ''] given with the buildsets
    [base] and [next] is replaced by ['base']. *)
Lemma empty_base_replaced :
  select_base (Some "") ["base"; "next"] = Some "base"
  /\ report good_env tree_base_next (Some "") = report good_env tree_base_next (Some "base").
Proof. split; vm_compute; reflexivity. Qed.

(** * Further properties of the code *)


Lemma process_build_failed E p r :
  r_exit_code r <> 0%Z ->
  process_build E p r = Ok (measured r Failed_to_compile None None None).
Proof.
  intros Hz; unfold process_build; cbn [of_raw exit_code].
  apply Z.eqb_neq in Hz; rewrite Hz; reflexivity.
Qed.

Lemma crd_loop_failed_env E E' es data bs :
  (forall p r, In (p, Some r) es -> r_exit_code r <> 0%Z) ->
  crd_loop E es data bs = crd_loop E' es data bs.
Proof.
  revert data bs; induction es as [|[p [r|]] es IH]; intros data bs Hf; simpl; auto.
  rewrite !process_build_failed by (apply (Hf p); left; reflexivity).
  simpl; apply IH; intros p' r' Hin; apply (Hf p'); right; exact Hin.
Qed.

(** X8: when every record found failed to compile, [create_report_data]
    neither runs [avr-size] nor reads a [.hex] file: its result does not
    depend on the environment. *)
Theorem failed_builds_not_measured E E' root :
  (forall p r, In (p, Some r) (find_builds root) -> r_exit_code r <> 0%Z) ->
  create_report_data E root = create_report_data E' root.
Proof. intros Hf; apply crd_loop_failed_env, Hf. Qed.

Lemma crd_loop_parsed E es data bs data' bs' :
  crd_loop E es data bs = Ok (data', bs') ->
  forall p c, In (p, c) es -> exists r, c = Some r.
Proof.
  revert data bs; induction es as [|[p [r|]] es IH]; intros data bs; simpl.
  - intros _ p c [].
  - destruct (process_build E p r) as [b|e]; simpl; [|discriminate].
    intros H p' c [Hpc|Hin]; [injection Hpc as <- <-; eauto|eapply IH; eauto].
  - discriminate.
Qed.

(** X9: when [create_report_data] succeeds, every [build.json] that
    [find_builds] found was well-formed: one malformed file aborts it. *)
Theorem report_data_all_parsed E root data bs :
  create_report_data E root = Ok (data, bs) ->
  forall p c, In (p, c) (find_builds root) -> exists r, c = Some r.
Proof. apply crd_loop_parsed. Qed.

(** Errors of the delta engine are [KeyError]s. *)
Lemma annotate_err base l b0 w e :
  annotate base l b0 = (w, Err e) -> e = KeyError.
Proof.
  unfold annotate, both_ok, is_ok, getitem; simpl.
  destruct (String.eqb (buildset b0) base).
  - destruct (status_f b0); simpl; congruence.
  - destruct (l (base, sketch_dir b0, board b0)) as [bb|]; [|congruence].
    destruct (status_f b0) as [s0|]; simpl; [|congruence].
    destruct (status_eqb s0 OK); simpl;
    [destruct (status_f bb) as [s1|]; simpl; [|congruence];
     destruct (status_eqb s1 OK); simpl|];
    repeat match goal with
           | |- context [match ?o with Some _ => _ | None => _ end] =>
               destruct o; simpl
           | |- context [if ?c then _ else _] => destruct c; simpl
           end; congruence.
Qed.

Lemma delta_loop_err base ks d w e :
  delta_loop base ks d = (w, Err e) -> e = KeyError.
Proof.
  revert d w; induction ks as [|k ks IH]; intros d w; simpl; [discriminate|].
  unfold delta_one.
  destruct (dict_get k d) as [b0|]; [|intros H; injection H as _ <-; reflexivity].
  destruct (annotate base _ b0) as [w1 [b|e1]] eqn:Ha; simpl.
  - destruct (delta_loop base ks _) as [w2 r2] eqn:Hl; intros H; injection H as _ ->.
    eapply IH; eauto.
  - intros H; injection H as _ ->; eapply annotate_err; eauto.
Qed.

Lemma annotate_missing_size base l b0 bb :
  buildset b0 <> base ->
  l (base, sketch_dir b0, board b0) = Some bb ->
  status_f b0 = Some OK -> status_f bb = Some OK ->
  (hash b0 = None \/ hash bb = None \/ program_size b0 = None
   \/ program_size bb = None \/ data_size b0 = None \/ data_size bb = None) ->
  exists w, annotate base l b0 = (w, Err KeyError).
Proof.
  intros Hne Hl Hs0 Hs1 Hmiss; apply String.eqb_neq in Hne.
  destruct b0 as [e0 sd0 sn0 bd0 bs0 st0 ps0 ds0 h0 ib0 dst0 dps0 dds0];
  destruct bb as [e1 sd1 sn1 bd1 bs1 st1 ps1 ds1 h1 ib1 dst1 dps1 dds1];
  cbn in *; subst st0 st1.
  unfold annotate; cbn; rewrite Hne, Hl; cbn.
  destruct h0 as [g0|]; destruct h1 as [g1|]; cbn; try (eexists; reflexivity).
  destruct (String.eqb g0 g1); cbn;
  destruct ps0, ps1; cbn; try (eexists; reflexivity);
  destruct ds0, ds1; cbn; try (eexists; reflexivity);
  exfalso; intuition discriminate.
Qed.

(** X10: two OK builds compared with one hash or size missing abort
    [add_delta_info] with [KeyError]. *)
Theorem delta_missing_size_keyerror data base k b0 bb :
  dataset_ok data -> In (k, b0) data -> buildset b0 <> base ->
  dict_get (base, sketch_dir b0, board b0) data = Some bb ->
  status_f b0 = Some OK -> status_f bb = Some OK ->
  (hash b0 = None \/ hash bb = None \/ program_size b0 = None
   \/ program_size bb = None \/ data_size b0 = None \/ data_size bb = None) ->
  exists w, add_delta_info data base = (w, Err KeyError).
Proof.
  intros Hok Hin Hne Hl Hs0 Hs1 Hmiss.
  destruct (annotate_missing_size base (lookup_in data) b0 bb Hne Hl Hs0 Hs1 Hmiss)
    as [wa Ha].
  destruct (add_delta_info data base) as [w [d'|e]] eqn:Hd.
  - destruct (add_delta_info_ok _ _ _ _ Hok Hd) as (Hall & _).
    destruct (Hall k b0 Hin) as (wk & b & Hb & _); congruence.
  - exists w; unfold add_delta_info in Hd.
    rewrite (delta_loop_err _ _ _ _ _ Hd); reflexivity.
Qed.

(** X11: after [add_delta_info], a record of the base buildset keeps its
    fields, is marked [Yes] and [Is base], and has zero deltas when OK and
    its old deltas otherwise. *)
Theorem base_records_annotated data base w d' k b0 :
  dataset_ok data -> add_delta_info data base = (w, Ok d') ->
  In (k, b0) data -> buildset b0 = base ->
  exists b, dict_get k d' = Some b /\ core b = core b0
    /\ is_base b = Some true /\ delta_status_f b = Some Is_base
    /\ (status_f b0 = Some OK ->
          delta_program_size b = Some 0%Z /\ delta_data_size b = Some 0%Z)
    /\ (status_f b0 <> Some OK ->
          delta_program_size b = delta_program_size b0
          /\ delta_data_size b = delta_data_size b0).
Proof.
  intros Hok Ha Hin Hbs.
  destruct (add_delta_info_ok _ _ _ _ Hok Ha) as (Hall & _).
  destruct (Hall k b0 Hin) as (wk & b & Hann & Hget & _).
  exists b; split; [exact Hget|].
  destruct (annotate_core _ _ _ _ _ Hann) as [Hc Hib].
  split; [exact Hc|]; rewrite Hib, Hbs, String.eqb_refl; split; [reflexivity|].
  revert Hann; unfold annotate; cbn; rewrite Hbs, String.eqb_refl; cbn.
  unfold is_ok, getitem.
  destruct (status_f b0) as [s|]; cbn; [|discriminate].
  intros H; injection H as _ <-.
  destruct s; cbn; repeat split; congruence.
Qed.

Definition annot_warn (base : string) (data : dataset) (b0 : build) : list string :=
  fst (annotate base (lookup_in data) b0).

Lemma delta_model_warnings base data0 : forall ks d w d',
  delta_model base data0 ks d = (w, Ok d') ->
  w = flat_map (fun k => match dict_get k data0 with
                         | Some b0 => annot_warn base data0 b0 | None => [] end) ks.
Proof.
  induction ks as [|k ks IH]; intros d w d' H; simpl in *.
  - injection H as <- _; reflexivity.
  - destruct (dict_get k data0) as [b0|]; [|discriminate].
    unfold annot_warn at 1.
    destruct (annotate base (lookup_in data0) b0) as [wk [b|e]]; [|discriminate].
    destruct (delta_model base data0 ks (dict_set k b d)) as [w2 r2] eqn:Hm.
    injection H as <- ->; simpl; f_equal; eapply IH; exact Hm.
Qed.

Lemma annot_warn_eq base data b0 :
  annot_warn base data b0
  = if negb (String.eqb (buildset b0) base)
       && match dict_get (base, sketch_dir b0, board b0) data with
          | None => true | Some _ => false end
    then [no_base_warning b0] else [].
Proof.
  unfold annot_warn, annotate, lookup_in; cbn.
  destruct (String.eqb (buildset b0) base); [reflexivity|cbn].
  destruct (dict_get (base, sketch_dir b0, board b0) data); reflexivity.
Qed.

Lemma warnings_items base data : forall l,
  (forall k b0, In (k, b0) l -> dict_get k data = Some b0) ->
  flat_map (fun k => match dict_get k data with
                     | Some b0 => annot_warn base data b0 | None => [] end) (map fst l)
  = map (fun kb => no_base_warning (snd kb))
        (filter (fun kb => negb (String.eqb (buildset (snd kb)) base)
                           && match dict_get (base, sketch_dir (snd kb), board (snd kb)) data with
                              | None => true | Some _ => false end) l).
Proof.
  induction l as [|[k b0] l IH]; intros Hg; [reflexivity|].
  cbn [map flat_map fst snd filter].
  rewrite (Hg k b0 (or_introl eq_refl)), annot_warn_eq.
  rewrite IH by (intros; apply Hg; right; assumption).
  destruct (_ && _); reflexivity.
Qed.

(** X12: the lines [add_delta_info] writes to [sys.stderr] are one
    warning per record outside the base without a base counterpart, in
    the order of [data]. *)
Theorem delta_warnings data base w d' :
  dataset_ok data -> add_delta_info data base = (w, Ok d') ->
  w = map (fun kb => no_base_warning (snd kb))
          (filter (fun kb => negb (String.eqb (buildset (snd kb)) base)
                             && match dict_get (base, sketch_dir (snd kb), board (snd kb)) data with
                                | None => true | Some _ => false end) data).
Proof.
  intros Hok Ha; rewrite add_delta_info_model in Ha by exact Hok.
  rewrite (delta_model_warnings _ _ _ _ _ _ Ha).
  apply warnings_items; intros; apply dict_get_nodup_in; [apply Hok|assumption].
Qed.

Definition same_item (a b : key * build) : Prop :=
  fst a = fst b /\ core (snd a) = core (snd b).

Lemma insert_item_same x y l1 l2 :
  same_item x y -> Forall2 same_item l1 l2 ->
  Forall2 same_item (insert_item x l1) (insert_item y l2).
Proof.
  intros Hxy H; induction H as [|a b l1 l2 Hab H IH]; cbn [insert_item].
  - constructor; [exact Hxy|constructor].
  - pose proof Hxy as [Hk _]; pose proof Hab as [Hk' _].
    rewrite Hk, Hk'.
    destruct (key_compare (fst y) (fst b)); constructor; auto.
Qed.

Lemma sort_items_same l1 l2 :
  Forall2 same_item l1 l2 -> Forall2 same_item (sort_items l1) (sort_items l2).
Proof.
  induction 1; cbn [sort_items]; [constructor|]; apply insert_item_same; auto.
Qed.

Lemma same_items_keys : forall d1 d2,
  map fst d1 = map fst d2 ->
  (forall k b1 b2, In (k, b1) d1 -> In (k, b2) d2 -> core b1 = core b2) ->
  Forall2 same_item d1 d2.
Proof.
  induction d1 as [|[k1 b1] d1 IH]; intros [|[k2 b2] d2] Hk Hc; try discriminate;
    constructor.
  - injection Hk as -> _; split; [reflexivity|].
    apply (Hc k2); left; reflexivity.
  - injection Hk as _ Hk; apply IH; [exact Hk|].
    intros k b b' H1 H2; apply (Hc k); right; assumption.
Qed.

Lemma build_get_core b1 b2 a :
  core b1 = core b2 -> In a report_attrs -> build_get b1 a = build_get b2 a.
Proof.
  destruct b1, b2; unfold core; cbn; intros H; injection H as -> -> -> -> -> -> -> -> ->.
  intros [<-|[<-|[<-|[<-|[<-|[<-|[]]]]]]]; reflexivity.
Qed.

Lemma build_report_row_firstn get delta :
  firstn (length report_attrs) (build_report_row get delta) = build_report_row get None.
Proof.
  unfold build_report_row; cbn [truthy]; rewrite app_nil_r.
  set (l := map _ report_attrs).
  assert (Hl : length l = length report_attrs) by apply length_map.
  rewrite <- Hl, firstn_app, Nat.sub_diag, firstn_O, app_nil_r.
  apply firstn_all.
Qed.

(** X13: whatever base is chosen, the first six columns of the report are
    the report without a base. *)
Theorem report_base_columns E root base_set w rows data bs :
  report E root base_set = (w, Ok rows) ->
  create_report_data E root = Ok (data, bs) ->
  map (firstn (length report_attrs)) rows = render data None.
Proof.
  intros Hr Hc.
  destruct (report_ok_shape _ _ _ _ _ Hr) as (data' & bs' & d' & Hc' & -> & Hok' & Hkeys & Hcore & _).
  rewrite Hc in Hc'; injection Hc' as <- <-.
  assert (Hs : Forall2 same_item d' data).
  { apply same_items_keys; [exact Hkeys|].
    intros k b1 b0 H1 H0.
    destruct (Hcore k b0 H0) as (b & Hb & Hcb).
    rewrite <- Hcb; f_equal.
    apply (dict_get_nodup_in k b1 d') in H1; [|apply Hok'].
    apply (dict_get_nodup_in k b d') in Hb; [|apply Hok'].
    congruence. }
  unfold render; cbn [map]; rewrite build_report_row_firstn; f_equal.
  apply sort_items_same in Hs.
  induction Hs as [|[k1 b1] [k0 b0] l1 l0 [_ Hc1] _ IH]; [reflexivity|].
  cbn [map snd]; rewrite IH, build_report_row_firstn; f_equal.
  unfold build_report_row; cbn [truthy app]; rewrite !app_nil_r.
  apply map_ext_in; intros a Ha; cbn in Hc1; rewrite (build_get_core _ _ a Hc1 Ha).
  reflexivity.
Qed.

Lemma build_report_row_len get delta :
  length (build_report_row get delta)
  = length report_attrs + (if truthy delta then length delta_attrs else 0).
Proof.
  unfold build_report_row; rewrite length_app, !length_map.
  destruct (truthy delta); [rewrite length_map|]; reflexivity.
Qed.

(** X14: all rows of [data.csv], the header included, have the same
    width: six columns, or ten when a base is used. *)
Theorem report_rows_width E root base_set w rows :
  report E root base_set = (w, Ok rows) ->
  exists n, (n = length report_attrs \/ n = length report_attrs + length delta_attrs)
    /\ forall row, In row rows -> length row = n.
Proof.
  intros Hr.
  destruct (report_ok_shape _ _ _ _ _ Hr) as (data & bs & d' & _ & -> & _).
  set (sel := select_base base_set bs).
  exists (length report_attrs + (if truthy sel then length delta_attrs else 0)).
  split; [destruct (truthy sel); [right|left; apply Nat.add_0_r]; reflexivity|].
  unfold render; intros row [<-|Hin]; [apply build_report_row_len|].
  apply in_map_iff in Hin as [kb [<- _]]; apply build_report_row_len.
Qed.

Section Split.
Variable sep : ascii -> bool.

Lemma str_app_assoc (a b c : string) : (a ++ b) ++ c = a ++ (b ++ c).
Proof. induction a; simpl; congruence. Qed.

Lemma str_app_nil_r (a : string) : a ++ "" = a.
Proof. induction a; simpl; congruence. Qed.

Lemma split_runs_word w s cur :
  all_chars (fun c => negb (sep c)) w = true ->
  split_runs sep (w ++ s) cur false = split_runs sep s (cur ++ w) false.
Proof.
  revert cur; induction w as [|c w IH]; intros cur Hw; simpl in *.
  - rewrite str_app_nil_r; reflexivity.
  - apply andb_true_iff in Hw as [Hc Hw]; apply negb_true_iff in Hc; rewrite Hc.
    rewrite IH by exact Hw; rewrite str_app_assoc; reflexivity.
Qed.

Lemma split_runs_run_in r s :
  all_chars sep r = true -> split_runs sep (r ++ s) "" true = split_runs sep s "" true.
Proof.
  induction r as [|c r IH]; intros Hr; simpl in *; [reflexivity|].
  apply andb_true_iff in Hr as [Hc Hr]; rewrite Hc; apply IH, Hr.
Qed.

Lemma split_runs_run r s cur :
  r <> "" -> all_chars sep r = true ->
  split_runs sep (r ++ s) cur false = cur :: split_runs sep s "" true.
Proof.
  destruct r as [|c r]; intros Hne Hr; [congruence|simpl in *].
  apply andb_true_iff in Hr as [Hc Hr]; rewrite Hc, split_runs_run_in by exact Hr.
  reflexivity.
Qed.

Lemma split_runs_start s :
  (s = "" \/ exists c s', s = String c s' /\ sep c = false) ->
  split_runs sep s "" true = split_runs sep s "" false.
Proof. intros [->|(c & s' & -> & Hc)]; simpl; [|rewrite Hc]; reflexivity. Qed.

Lemma split_runs_weave : forall rps p0 cur,
  weave_ok sep p0 rps ->
  split_runs sep (weave p0 rps) cur false = (cur ++ p0) :: map snd rps.
Proof.
  induction rps as [|[r p] rest IH]; intros p0 cur Hok; simpl in *.
  - rewrite <- (str_app_nil_r p0) at 1.
    rewrite split_runs_word by apply Hok; reflexivity.
  - destruct Hok as (Hp0 & Hr & Hrs & Hint & Hok).
    rewrite split_runs_word by exact Hp0.
    rewrite split_runs_run by assumption.
    rewrite split_runs_start.
    + rewrite IH by exact Hok; reflexivity.
    + destruct rest as [|rp rest'].
      * destruct p as [|c p']; [left; reflexivity|right].
        destruct Hok as [Hp _]; simpl in Hp; apply andb_true_iff in Hp as [Hc _].
        exists c, (weave p' []); split; [reflexivity|].
        apply negb_true_iff, Hc.
      * destruct p as [|c p']; [exfalso; exact (Hint ltac:(discriminate) eq_refl)|right].
        destruct Hok as [Hp _]; simpl in Hp; apply andb_true_iff in Hp as [Hc _].
        destruct rp as [r' p''].
        exists c, (p' ++ r' ++ weave p'' rest'); split; [reflexivity|].
        apply negb_true_iff, Hc.
Qed.

Lemma weave_exists : forall s, exists p0 rps, weave_ok sep p0 rps /\ s = weave p0 rps.
Proof.
  induction s as [|c s IH].
  - exists "", []; simpl; auto.
  - destruct IH as (p0 & rps & Hok & ->).
    destruct (sep c) eqn:Hc.
    + destruct p0 as [|c0 p0'].
      * destruct rps as [|[r p] rest].
        -- exists "", [(String c "", "")]; simpl; rewrite Hc; repeat split; auto; discriminate.
        -- exists "", ((String c r, p) :: rest); simpl in *.
           destruct Hok as (_ & Hrn & Hr & Hint & Hok).
           rewrite Hc, Hr; repeat split; auto; discriminate.
      * exists "", ((String c "", String c0 p0') :: rps); simpl; rewrite Hc.
        repeat split; auto; discriminate.
    + exists (String c p0), rps.
      destruct rps as [|[r p] rest]; simpl in *; rewrite Hc; simpl;
        (split; [|reflexivity]); tauto.
Qed.

Lemma re_split_runs_iff s ps :
  re_split_runs sep s = ps
  <-> exists p0 rps, ps = p0 :: map snd rps /\ weave_ok sep p0 rps /\ s = weave p0 rps.
Proof.
  unfold re_split_runs; split.
  - intros <-; destruct (weave_exists s) as (p0 & rps & Hok & ->).
    exists p0, rps; rewrite split_runs_weave by exact Hok; auto.
  - intros (p0 & rps & -> & Hok & ->); apply split_runs_weave, Hok.
Qed.
End Split.

Section SplitEdges.
Variable sep : ascii -> bool.

Lemma last_char_app a b :
  last_char (a ++ b) = match last_char b with Some c => Some c | None => last_char a end.
Proof.
  induction a as [|c a IH]; simpl; [destruct (last_char b); reflexivity|].
  rewrite IH; destruct (last_char b), (last_char a); reflexivity.
Qed.

Lemma all_chars_last f s c : all_chars f s = true -> last_char s = Some c -> f c = true.
Proof.
  induction s as [|c0 s IH]; simpl; [discriminate|].
  intros H; apply andb_true_iff in H as [H0 H].
  destruct (last_char s) as [c'|]; intros E; injection E as <-; auto.
Qed.

Lemma weave_empty p0 rps : weave_ok sep p0 rps -> weave p0 rps = "" <-> p0 = "" /\ rps = [].
Proof.
  destruct rps as [|[r p] rest]; simpl; [tauto|].
  intros (_ & Hr & _); split; [|intros [_ H]; discriminate H].
  destruct p0, r; simpl; try discriminate; congruence.
Qed.

Lemma weave_starts p0 rps :
  weave_ok sep p0 rps ->
  starts_with_sep sep (weave p0 rps) = true <-> p0 = "" /\ rps <> [].
Proof.
  intros Hok; destruct p0 as [|c p0'].
  - destruct rps as [|[r p] rest]; simpl in *; [split; [discriminate|tauto]|].
    destruct Hok as (_ & Hr & Hrs & _).
    destruct r as [|c r]; [congruence|simpl in *].
    apply andb_true_iff in Hrs as [Hc _]; rewrite Hc; split; [|reflexivity].
    intros _; split; [reflexivity|discriminate].
  - assert (Hp0 : all_chars (fun c => negb (sep c)) (String c p0') = true)
      by (destruct rps as [|[r p] rest]; apply Hok).
    simpl in Hp0; apply andb_true_iff in Hp0 as [Hc _].
    destruct rps as [|[r p] rest]; simpl; apply negb_true_iff in Hc; rewrite Hc;
      split; try discriminate; intros [H _]; discriminate H.
Qed.

Lemma weave_ends p0 rps :
  weave_ok sep p0 rps ->
  ends_with_sep sep (weave p0 rps) = true <-> rps <> [] /\ last (map snd rps) "x" = "".
Proof.
  revert p0; induction rps as [|[r p] rest IH]; intros p0 Hok; simpl in *.
  - unfold ends_with_sep; destruct Hok as [Hp0 _].
    destruct (last_char p0) as [c|] eqn:E; [|split; [discriminate|tauto]].
    apply (all_chars_last _ _ _ Hp0) in E; apply negb_true_iff in E; rewrite E.
    split; [discriminate|tauto].
  - destruct Hok as (Hp0 & Hr & Hrs & Hint & Hok).
    destruct rest as [|rp rest'].
    + destruct Hok as [Hp _]; simpl.
      unfold ends_with_sep; rewrite !last_char_app.
      destruct (last_char p) as [c|] eqn:E.
      * pose proof (all_chars_last _ _ _ Hp E) as Hc; apply negb_true_iff in Hc.
        rewrite Hc; split; [discriminate|intros [_ ->]; discriminate E].
      * destruct p as [|c p]; [|simpl in E; destruct (last_char p); discriminate E].
        destruct (last_char r) as [c|] eqn:Er.
        -- rewrite (all_chars_last _ _ _ Hrs Er); split; [|reflexivity].
           intros _; split; [discriminate|reflexivity].
        -- destruct r as [|c r]; [congruence|simpl in Er; destruct (last_char r); discriminate Er].
    + unfold ends_with_sep in *; rewrite !last_char_app.
      assert (Hne : weave p (rp :: rest') <> "").
      { intros H; apply (weave_empty _ _ Hok) in H as [_ H]; discriminate H. }
      destruct (last_char (weave p (rp :: rest'))) as [c|] eqn:E.
      * pose proof (IH p Hok) as HI; rewrite E in HI.
        change (last (map snd ((r, p) :: rp :: rest')) "x")
          with (last (map snd (rp :: rest')) "x").
        rewrite HI; split; intros [_ H]; split; auto; discriminate.
      * destruct (weave p (rp :: rest')) as [|c' w]; [congruence|].
        simpl in E; destruct (last_char w); discriminate E.
Qed.

Lemma weave_in_empty p0 rps :
  weave_ok sep p0 rps ->
  In "" (p0 :: map snd rps) <-> p0 = "" \/ (rps <> [] /\ last (map snd rps) "x" = "").
Proof.
  revert p0; induction rps as [|[r p] rest IH]; intros p0 Hok.
  - cbn [map]; split; [intros [H|[]]; left; auto|intros [H|[H _]]; [left; auto|congruence]].
  - destruct Hok as (_ & _ & _ & Hint & Hok).
    specialize (IH p Hok).
    change (map snd ((r, p) :: rest)) with (p :: map snd rest).
    assert (Hl : last (p :: map snd rest) "x"
                 = match rest with [] => p | _ => last (map snd rest) "x" end)
      by (destruct rest; reflexivity).
    rewrite Hl; split.
    + intros [H|H]; [left; auto|right; split; [discriminate|]].
      apply IH in H; destruct rest as [|rp rest'].
      * destruct H as [H|[H _]]; [auto|congruence].
      * destruct H as [H|[_ H]]; [exfalso; apply (Hint ltac:(discriminate)); auto|exact H].
    + intros [H|[_ H]]; [left; auto|right; apply IH].
      destruct rest as [|rp rest']; [left; exact H|right; split; [discriminate|exact H]].
Qed.

End SplitEdges.

Lemma concat_weave g n ns : String.concat g (n :: ns) = weave n (map (fun m => (g, m)) ns).
Proof.
  revert n; induction ns as [|m ns IH]; intros n; [reflexivity|].
  simpl; rewrite <- IH; reflexivity.
Qed.

(** X1: [re.split('[\s,]+', boards)] yields an empty board name exactly
    when [boards] is empty, starts with a separator or ends with one. *)
Theorem board_list_empty_name boards :
  In "" (board_list boards)
  <-> boards = "" \/ starts_with_sep is_board_sep boards = true
      \/ ends_with_sep is_board_sep boards = true.
Proof.
  unfold board_list.
  destruct (proj1 (re_split_runs_iff is_board_sep boards _) eq_refl)
    as (p0 & rps & -> & Hok & ->).
  rewrite (weave_in_empty _ _ _ Hok), (weave_empty _ _ _ Hok),
    (weave_starts _ _ _ Hok), (weave_ends _ _ _ Hok).
  split.
  - intros [->|H]; [|right; right; exact H].
    destruct rps; [left; auto|right; left; split; [reflexivity|discriminate]].
  - intros [[-> _]|[[-> _]|H]]; [left|left|right]; auto.
Qed.

(** X2: board names without separators, joined by a non-empty run of
    separators, are split back into the same names. *)
Theorem board_list_join g names :
  names <> [] ->
  Forall (fun n => n <> "" /\ all_chars (fun c => negb (is_board_sep c)) n = true) names ->
  g <> "" -> all_chars is_board_sep g = true ->
  board_list (String.concat g names) = names.
Proof.
  intros Hne Hn Hg Hgs; destruct names as [|n ns]; [congruence|].
  unfold board_list; apply re_split_runs_iff.
  exists n, (map (fun m => (g, m)) ns); split; [rewrite map_map; simpl; rewrite map_id; reflexivity|].
  split; [|apply concat_weave].
  clear Hne; revert n Hn; induction ns as [|m ns IH]; intros n Hn;
    inversion Hn as [|? ? [Hn0 Hn1] Hns]; subst; simpl.
  - split; [exact Hn1|exact I].
  - inversion Hns as [|? ? [Hm0 Hm1] _]; subst.
    split; [exact Hn1|split; [exact Hg|split; [exact Hgs|split]]].
    + intros _; exact Hm0.
    + apply IH; exact Hns.
Qed.



Lemma fs_wf_child d n e : fs_wf d -> dir_child n (dir_subdirs d) = Some e -> fs_wf e.
Proof.
  destruct d as [fl ss]; simpl; intros [_ Hall] H.
  induction ss as [|[m e'] ss IH]; simpl in *; [discriminate|].
  destruct Hall as [Hw Hall]; destruct (String.eqb m n); [injection H as <-; exact Hw|auto].
Qed.

Lemma fs_resolve_wf p d e : fs_wf d -> fs_resolve p d = inr (NDir e) -> fs_wf e.
Proof.
  revert d; induction p as [|n p IH]; intros d Hw; simpl.
  - intros H; injection H as <-; exact Hw.
  - unfold child_node; destruct (dir_child n (dir_subdirs d)) as [d'|] eqn:Hc.
    + apply IH; eapply fs_wf_child; eauto.
    + destruct (find_file n (dir_files d)); [destruct p|]; discriminate.
Qed.

Lemma dir_child_set_child n d' ss : dir_child n (set_child n d' ss) = Some d'.
Proof.
  induction ss as [|[m e] ss IH]; simpl; [rewrite String.eqb_refl; reflexivity|].
  destruct (String.eqb_spec m n) as [->|Hne]; simpl;
    [rewrite String.eqb_refl; reflexivity|].
  apply String.eqb_neq in Hne; rewrite Hne; exact IH.
Qed.

Lemma dir_child_app_new n d ss :
  dir_child n ss = None -> dir_child n (ss ++ [(n, d)]) = Some d.
Proof.
  induction ss as [|[m e] ss IH]; simpl; [rewrite String.eqb_refl; reflexivity|].
  destruct (String.eqb m n); [discriminate|exact IH].
Qed.

Lemma dir_child_notin n ss : ~ In n (map fst ss) -> dir_child n ss = None.
Proof.
  induction ss as [|[m e] ss IH]; simpl; intros H; [reflexivity|].
  destruct (String.eqb_spec m n) as [->|_]; [tauto|auto].
Qed.

Lemma dir_child_remove n ss : NoDup (map fst ss) -> dir_child n (remove_child n ss) = None.
Proof.
  induction ss as [|[m e] ss IH]; simpl; intros Hnd; [reflexivity|].
  inversion Hnd as [|? ? Hm Hnd']; subst.
  destruct (String.eqb_spec m n) as [->|Hne].
  - apply dir_child_notin, Hm.
  - simpl; apply String.eqb_neq in Hne; rewrite Hne; auto.
Qed.

Lemma fs_resolve_app a b d :
  fs_resolve (a ++ b) d =
  match fs_resolve a d with
  | inr (NDir e) => fs_resolve b e
  | inr (NFile c) => match b with [] => inr (NFile c) | _ => inl FS.NotADirectoryError end
  | inl e => inl e
  end.
Proof.
  revert d; induction a as [|n a IH]; intros d; [reflexivity|].
  cbn [app fs_resolve]; destruct (child_node d n) as [[c|e]|]; [|apply IH|reflexivity].
  destruct a, b; reflexivity.
Qed.

Lemma fs_resolve_modify f p q d e :
  fs_resolve p d = inr (NDir e) ->
  fs_resolve p (fs_modify f (p ++ q) d) = inr (NDir (fs_modify f q e)).
Proof.
  revert d; induction p as [|n p IH]; intros d; simpl.
  - intros H; injection H as <-; reflexivity.
  - destruct d as [fl ss]; unfold child_node; simpl.
    destruct (dir_child n ss) as [d'|] eqn:Hc.
    + intros H; simpl; unfold child_node; simpl; rewrite dir_child_set_child; auto.
    + destruct (find_file n fl); [destruct p|]; discriminate.
Qed.

Lemma fs_resolve_modify_here f p d e :
  fs_resolve p d = inr (NDir e) -> fs_resolve p (fs_modify f p d) = inr (NDir (f e)).
Proof. intros H; rewrite <- (app_nil_r p) at 2; apply (fs_resolve_modify f p [] d e H). Qed.

Lemma fresh_dirs_resolve p q : fs_resolve p (fresh_dirs (p ++ q)) = inr (NDir (fresh_dirs q)).
Proof.
  induction p as [|n p IH]; [reflexivity|].
  simpl; unfold child_node; simpl; rewrite String.eqb_refl; exact IH.
Qed.

Lemma mkdir_parents_cons n q d :
  q <> [] ->
  mkdir_parents_abs (n :: q) d =
  match child_node d n with
  | Some (NDir d') =>
      match mkdir_parents_abs q d' with
      | inl e => inl e
      | inr d'' => inr (Dir (dir_files d) (set_child n d'' (dir_subdirs d)))
      end
  | Some (NFile _) => inl FS.NotADirectoryError
  | None => inr (Dir (dir_files d) (dir_subdirs d ++ [(n, fresh_dirs q)]))
  end.
Proof. destruct q; [congruence|]; simpl; destruct (child_node d n) as [[]|]; reflexivity. Qed.

(** [mkdir] of [p ++ [b]] where [p] is missing or an empty directory. *)
Lemma mkdir_parents_new p b d d' :
  (forall e, fs_resolve p d = inr (NDir e) -> e = Dir [] []) ->
  mkdir_parents_abs (p ++ [b]) d = inr d' ->
  fs_resolve p d' = inr (NDir (Dir [] [(b, Dir [] [])])).
Proof.
  revert d d'; induction p as [|n p IH]; intros d d' Hp.
  - simpl; rewrite (Hp d eq_refl); intros H; injection H as <-; reflexivity.
  - cbn [app]; rewrite mkdir_parents_cons by (destruct p; discriminate).
    destruct (child_node d n) as [[c|e]|] eqn:Hc; [discriminate| |].
    + destruct (mkdir_parents_abs (p ++ [b]) e) as [err|e'] eqn:Hm; [discriminate|].
      intros H; injection H as <-.
      simpl; unfold child_node; simpl; rewrite dir_child_set_child.
      apply (IH e e'); [|exact Hm].
      intros e0 He0; apply Hp; simpl; rewrite Hc; exact He0.
    + intros H; injection H as <-.
      simpl; unfold child_node; simpl.
      unfold child_node in Hc; destruct (dir_child n (dir_subdirs d)) eqn:Hdc;
        [discriminate|].
      rewrite dir_child_app_new by exact Hdc.
      apply fresh_dirs_resolve.
Qed.

Lemma norm_aux_snoc acc l n :
  n <> ".." -> norm_aux acc (l ++ [n]) = (norm_aux acc l ++ [n])%list.
Proof.
  intros Hn; revert acc; induction l as [|x l IH]; intros acc; simpl.
  - apply String.eqb_neq in Hn; rewrite Hn; reflexivity.
  - destruct (String.eqb x ".."); apply IH.
Qed.

Lemma os_path_name cwd p n :
  n <> ".." -> parse_path n = {| p_root := ""; p_parts := [n] |} ->
  os_path cwd (path_div_str p n) = (os_path cwd p ++ [n])%list.
Proof.
  intros Hn Hp; unfold os_path, path_div_str, path_div; rewrite Hp; cbn [p_root p_parts].
  rewrite String.eqb_refl; cbn [p_root p_parts].
  rewrite app_assoc; apply norm_aux_snoc, Hn.
Qed.

Lemma fs_write_snoc p n c d :
  fs_write_abs (p ++ [n]) c d =
  match fs_resolve p d with
  | inl e => inl e
  | inr (NFile _) => inl FS.NotADirectoryError
  | inr (NDir e) =>
      match dir_child n (dir_subdirs e) with
      | Some _ => inl FS.IsADirectoryError
      | None => inr (fs_modify (fun e => Dir (set_file n c (dir_files e)) (dir_subdirs e)) p d)
      end
  end.
Proof.
  unfold fs_write_abs; rewrite removelast_last, last_last.
  destruct p; reflexivity.
Qed.

Lemma compile_into_fresh A cwd buildset sketch board srd fs0 fs' res :
  (forall e, fs_resolve (os_path cwd srd) fs0 = inr (NDir e) -> e = Dir [] []) ->
  compile_into_abs A cwd buildset sketch board srd fs0 = (fs', Compiled res) ->
  exists out,
    run_arduino A (os_path cwd (path_div_str srd "build")) board (os_path cwd sketch)
      = Some (res, out)
    /\ fs_resolve (os_path cwd srd) fs'
       = inr (NDir (Dir [("build.log", None);
                         ("build.json", Some (build_record buildset sketch board res))]
                        [("build", out)])).
Proof.
  intros Hp; unfold compile_into_abs.
  rewrite !(os_path_name cwd srd) by (reflexivity || discriminate).
  set (P := os_path cwd srd) in *.
  destruct (mkdir_parents_abs (P ++ ["build"]) fs0) as [e|fs1] eqn:Hm; [discriminate|].
  pose proof (mkdir_parents_new _ _ _ _ Hp Hm) as H1.
  rewrite fs_write_snoc, H1.
  replace (dir_child "build.log" (dir_subdirs (Dir [] [("build", Dir [] [])])))
    with (@None dir) by reflexivity.
  set (fs2 := fs_modify _ P fs1).
  assert (H2 : fs_resolve P fs2
               = inr (NDir (Dir [("build.log", None)] [("build", Dir [] [])])))
    by (unfold fs2; rewrite (fs_resolve_modify_here _ P fs1 _ H1); reflexivity).
  destruct (run_arduino A (P ++ ["build"]) board (os_path cwd sketch)) as [[r out]|];
    [|discriminate].
  set (fs3 := fs_modify (fun _ => out) (P ++ ["build"]) fs2).
  assert (H3 : fs_resolve P fs3
               = inr (NDir (Dir [("build.log", None)] [("build", out)])))
    by (unfold fs3; rewrite (fs_resolve_modify _ P ["build"] fs2 _ H2); reflexivity).
  rewrite fs_write_snoc, H3.
  replace (dir_child "build.json" (dir_subdirs (Dir [("build.log", None)] [("build", out)])))
    with (@None dir) by reflexivity.
  intros H; injection H as <- <-.
  exists out; split; [reflexivity|].
  rewrite (fs_resolve_modify_here _ P fs3 _ H3); reflexivity.
Qed.

Lemma rmtree_gone p d d' :
  fs_wf d -> rmtree_abs p d = inr d' ->
  forall e, fs_resolve p d' = inr (NDir e) -> e = Dir [] [].
Proof.
  intros Hw; unfold rmtree_abs.
  destruct (fs_resolve p d) as [err|[c|e0]] eqn:Hr; try discriminate.
  destruct p as [|n p'] eqn:Hp.
  - intros H; injection H as <-; intros e H; injection H as <-; reflexivity.
  - rewrite <- Hp in *.
    assert (Hsplit : p = (removelast p ++ [last p ""])%list)
      by (apply app_removelast_last; rewrite Hp; discriminate).
    remember (removelast p) as q; remember (last p "") as x.
    rewrite Hsplit, fs_resolve_app in Hr.
    destruct (fs_resolve q d) as [err|[c|e1]] eqn:Hpar;
      [discriminate|discriminate|].
    intros H; injection H as <-.
    intros e; rewrite Hsplit, fs_resolve_app.
    rewrite (fs_resolve_modify_here _ _ _ _ Hpar); simpl.
    unfold child_node; simpl.
    rewrite dir_child_remove.
    + destruct (find_file x (dir_files e1)); discriminate.
    + destruct e1 as [fl ss]; apply (fs_resolve_wf _ _ _ Hw Hpar).
Qed.

Lemma do_compile_record_dir A cwd results_dir buildset force sketch board fs fs' res :
  fs_wf fs ->
  do_compile_abs A cwd results_dir buildset force sketch board fs = (fs', Compiled res) ->
  let srd := sketch_result_dir results_dir buildset sketch board in
  exists out,
    run_arduino A (os_path cwd (path_div_str srd "build")) board (os_path cwd sketch)
      = Some (res, out)
    /\ fs_resolve (os_path cwd srd) fs'
       = inr (NDir (Dir [("build.log", None);
                         ("build.json", Some (build_record buildset sketch board res))]
                        [("build", out)])).
Proof.
  intros Hw; unfold do_compile_abs; cbv zeta.
  set (srd := sketch_result_dir results_dir buildset sketch board).
  assert (Hrm : forall fs1, rmtree_abs (os_path cwd srd) fs = inr fs1 ->
            compile_into_abs A cwd buildset sketch board srd fs1 = (fs', Compiled res) ->
            exists out,
              run_arduino A (os_path cwd (path_div_str srd "build")) board (os_path cwd sketch)
                = Some (res, out)
              /\ fs_resolve (os_path cwd srd) fs'
                 = inr (NDir (Dir [("build.log", None);
                                   ("build.json", Some (build_record buildset sketch board res))]
                                  [("build", out)]))).
  { intros fs1 Hr Hc; apply (compile_into_fresh _ _ _ _ _ _ fs1); [|exact Hc].
    exact (rmtree_gone _ _ _ Hw Hr). }
  destruct (fs_exists (os_path cwd srd) fs) eqn:Hex.
  - destruct (negb (fs_exists (os_path cwd (path_div_str srd "build.json")) fs)), force;
      try discriminate;
      destruct (rmtree_abs (os_path cwd srd) fs) as [e|fs1] eqn:Hr; try discriminate; eauto.
  - apply compile_into_fresh.
    intros e He; unfold fs_exists in Hex; rewrite He in Hex; discriminate.
Qed.













Lemma norm_aux_plain acc r :
  ~ In ".." r -> norm_aux acc r = (rev acc ++ r)%list.
Proof.
  revert acc; induction r as [|x r IH]; intros acc Hr; simpl; [rewrite app_nil_r; reflexivity|].
  assert (Hx : x <> "..") by (intros ->; apply Hr; left; reflexivity).
  apply String.eqb_neq in Hx; rewrite Hx, IH by (intros H; apply Hr; right; exact H).
  simpl; rewrite <- app_assoc; reflexivity.
Qed.











Lemma os_path_div_empty cwd p : os_path cwd (path_div_str p "") = os_path cwd p.
Proof.
  unfold os_path, path_div_str, path_div; cbn [parse_path p_root p_parts String.eqb].
  destruct p as [r ps]; simpl; rewrite app_nil_r; reflexivity.
Qed.

Lemma sketch_result_dir_board cwd results_dir buildset sketch b :
  plain_name b ->
  os_path cwd (sketch_result_dir results_dir buildset sketch b)
  = (os_path cwd (sketch_result_dir results_dir buildset sketch "") ++ [b])%list.
Proof.
  intros [Hb1 Hb2]; unfold sketch_result_dir.
  rewrite os_path_name, os_path_div_empty by assumption; reflexivity.
Qed.

(** The property X7 for the one-step operations. *)
Lemma empty_board_abs_gone A cwd results_dir buildset force sketch fs fs' res b :
  fs_wf fs ->
  do_compile_abs A cwd results_dir buildset force sketch "" fs = (fs', Compiled res) ->
  plain_name b -> ~ In b ["build"; "build.log"; "build.json"] ->
  fs_exists (os_path cwd (sketch_result_dir results_dir buildset sketch b)) fs' = false.
Proof.
  intros Hwf Hdc Hb Hn.
  destruct (do_compile_record_dir _ _ _ _ _ _ _ _ _ _ Hwf Hdc) as (out & _ & Hres).
  cbv zeta in Hres; unfold fs_exists.
  rewrite sketch_result_dir_board, fs_resolve_app, Hres by exact Hb.
  cbn [fs_resolve]; unfold child_node; cbn [dir_child dir_subdirs dir_files find_file].
  destruct (String.eqb_spec "build" b) as [<-|_]; [elim Hn; left; reflexivity|].
  destruct (String.eqb_spec "build.log" b) as [<-|_]; [elim Hn; right; left; reflexivity|].
  destruct (String.eqb_spec "build.json" b) as [<-|_]; [elim Hn; right; right; left; reflexivity|].
  reflexivity.
Qed.

Lemma json_missing_empty p fs0 :
  (forall e, fs_resolve p fs0 = inr (NDir e) -> e = Dir [] []) ->
  fs_exists (p ++ ["build.json"]) fs0 = false.
Proof.
  intros Hp; unfold fs_exists; rewrite fs_resolve_app.
  destruct (fs_resolve p fs0) as [e|[c|e]]; try reflexivity.
  rewrite (Hp e eq_refl); reflexivity.
Qed.

Lemma compile_into_raised A cwd buildset sketch board srd fs0 fs' err :
  (forall e, fs_resolve (os_path cwd srd) fs0 = inr (NDir e) -> e = Dir [] []) ->
  compile_into_abs A cwd buildset sketch board srd fs0 = (fs', Raised err) ->
  fs_exists (os_path cwd srd ++ ["build.json"]) fs' = false.
Proof.
  intros Hp; unfold compile_into_abs.
  rewrite !(os_path_name cwd srd) by (reflexivity || discriminate).
  set (P := os_path cwd srd) in *.
  destruct (mkdir_parents_abs (P ++ ["build"]) fs0) as [e|fs1] eqn:Hm;
    [intros H; injection H as <- _; apply json_missing_empty, Hp|].
  pose proof (mkdir_parents_new _ _ _ _ Hp Hm) as H1.
  rewrite fs_write_snoc, H1.
  replace (dir_child "build.log" (dir_subdirs (Dir [] [("build", Dir [] [])])))
    with (@None dir) by reflexivity.
  set (fs2 := fs_modify _ P fs1).
  assert (H2 : fs_resolve P fs2
               = inr (NDir (Dir [("build.log", None)] [("build", Dir [] [])])))
    by (unfold fs2; rewrite (fs_resolve_modify_here _ P fs1 _ H1); reflexivity).
  destruct (run_arduino A (P ++ ["build"]) board (os_path cwd sketch)) as [[r out]|];
    [|intros H; injection H as <- _; unfold fs_exists; rewrite fs_resolve_app, H2;
      reflexivity].
  set (fs3 := fs_modify (fun _ => out) (P ++ ["build"]) fs2).
  assert (H3 : fs_resolve P fs3
               = inr (NDir (Dir [("build.log", None)] [("build", out)])))
    by (unfold fs3; rewrite (fs_resolve_modify _ P ["build"] fs2 _ H2); reflexivity).
  rewrite fs_write_snoc, H3.
  replace (dir_child "build.json" (dir_subdirs (Dir [("build.log", None)] [("build", out)])))
    with (@None dir) by reflexivity.
  discriminate.
Qed.

Lemma compile_into_not_skipped A cwd buildset sketch board srd fs0 :
  snd (compile_into_abs A cwd buildset sketch board srd fs0) <> Skipped.
Proof.
  unfold compile_into_abs.
  destruct (mkdir_parents_abs _ fs0); [discriminate|].
  destruct (fs_write_abs _ _ _); [discriminate|].
  destruct (run_arduino _ _ _ _) as [[r out]|]; [|discriminate].
  destruct (fs_write_abs _ _ _); discriminate.
Qed.

(** The property X6 for the one-step operations. *)
Lemma do_compile_abs_raised A cwd results_dir buildset force sketch board fs fs' err :
  fs_wf fs ->
  do_compile_abs A cwd results_dir buildset force sketch board fs = (fs', Raised err) ->
  let srd := sketch_result_dir results_dir buildset sketch board in
  fs_exists (os_path cwd (path_div_str srd "build.json")) fs' = false
  /\ forall A' force',
       snd (do_compile_abs A' cwd results_dir buildset force' sketch board fs') <> Skipped.
Proof.
  intros Hwf Hdc srd.
  assert (Hj : fs_exists (os_path cwd (path_div_str srd "build.json")) fs' = false).
  { revert Hdc; unfold do_compile_abs; fold srd; cbv zeta.
    rewrite (os_path_name cwd srd "build.json") by (reflexivity || discriminate).
    assert (Hrm : (match rmtree_abs (os_path cwd srd) fs with
                   | inl e => (fs, Raised e)
                   | inr fs1 => compile_into_abs A cwd buildset sketch board srd fs1
                   end) = (fs', Raised err) -> fs_exists (os_path cwd srd) fs = true ->
                  fs_exists (os_path cwd srd ++ ["build.json"]) fs' = false).
    { destruct (rmtree_abs (os_path cwd srd) fs) as [e|fs1] eqn:Hr.
      - intros H Hex; injection H as <- _.
        unfold rmtree_abs in Hr; unfold fs_exists in *; rewrite fs_resolve_app.
        destruct (fs_resolve (os_path cwd srd) fs) as [e'|[c|e']];
          [discriminate|reflexivity|destruct (os_path cwd srd); discriminate].
      - intros H _; exact (compile_into_raised _ _ _ _ _ _ _ _ _ (rmtree_gone _ _ _ Hwf Hr) H). }
    destruct (fs_exists (os_path cwd srd) fs) eqn:Hex.
    - destruct (fs_exists (os_path cwd srd ++ ["build.json"]) fs), force;
        simpl; try discriminate; intros H; exact (Hrm H eq_refl).
    - intros H; refine (compile_into_raised _ _ _ _ _ _ _ _ _ _ H).
      intros e He; unfold fs_exists in Hex; rewrite He in Hex; discriminate. }
  split; [exact Hj|].
  intros A' force'; unfold do_compile_abs; fold srd; cbv zeta; rewrite Hj; simpl.
  destruct (fs_exists (os_path cwd srd) fs');
    [destruct (rmtree_abs (os_path cwd srd) fs'); [discriminate|]|];
    apply compile_into_not_skipped.
Qed.


(** ** The operations on paths without ['..'] *)

Lemma walk_from_clean loc cs d :
  ~ In ".." cs ->
  walk_from loc cs d =
  match fs_resolve (loc ++ cs) d with
  | inl e => inl e
  | inr n => inr ((loc ++ cs)%list, n)
  end.
Proof.
  revert loc; induction cs as [|c cs IH]; intros loc Hn.
  - cbn [walk_from]; rewrite app_nil_r; reflexivity.
  - assert (Hc : c <> "..") by (intros ->; apply Hn; left; reflexivity).
    assert (Hcs : ~ In ".." cs) by (intros H; apply Hn; right; exact H).
    cbn [walk_from]; apply String.eqb_neq in Hc; rewrite Hc.
    replace (loc ++ c :: cs)%list with ((loc ++ [c]) ++ cs)%list
      by (rewrite <- app_assoc; reflexivity).
    destruct (fs_resolve (loc ++ [c]) d) as [e|[f|e]] eqn:Hr;
      [rewrite fs_resolve_app, Hr; reflexivity| |apply IH, Hcs].
    rewrite fs_resolve_app, Hr; destruct cs; [rewrite app_nil_r|]; reflexivity.
Qed.

Lemma comps_clean cwd p :
  ~ In ".." cwd -> ~ In ".." (p_parts p) -> ~ In ".." (path_comps cwd p).
Proof.
  unfold path_comps, path_anchor; intros H1 H2 H; apply in_app_or in H.
  destruct (String.eqb (p_root p) ""), H as [H|H]; auto.
Qed.

Lemma os_path_clean cwd p : ~ In ".." (path_comps cwd p) -> os_path cwd p = path_comps cwd p.
Proof. intros H; unfold os_path; rewrite norm_aux_plain; [reflexivity|exact H]. Qed.

Lemma os_stat_clean cwd p d :
  ~ In ".." (path_comps cwd p) ->
  os_stat cwd p d =
  match fs_resolve (path_comps cwd p) d with
  | inl e => inl e
  | inr n => inr (path_comps cwd p, n)
  end.
Proof. intros H; unfold os_stat; rewrite walk_from_clean by exact H; reflexivity. Qed.

Lemma path_exists_clean cwd p d :
  ~ In ".." (path_comps cwd p) -> path_exists cwd p d = fs_exists (os_path cwd p) d.
Proof.
  intros H; unfold path_exists, fs_exists; rewrite os_stat_clean, os_path_clean by exact H.
  destruct (fs_resolve _ d); reflexivity.
Qed.

Lemma path_is_dir_clean cwd p d :
  ~ In ".." (path_comps cwd p) ->
  path_is_dir cwd p d
  = match fs_resolve (path_comps cwd p) d with inr (NDir _) => true | _ => false end.
Proof.
  intros H; unfold path_is_dir; rewrite os_stat_clean by exact H.
  destruct (fs_resolve _ d) as [e|[f|e]]; reflexivity.
Qed.

Lemma path_div_name p n :
  parse_path n = {| p_root := ""; p_parts := [n] |} ->
  path_div_str p n = {| p_root := p_root p; p_parts := (p_parts p ++ [n])%list |}.
Proof. intros H; unfold path_div_str, path_div; rewrite H; reflexivity. Qed.

(** The path [{| p_root := root; p_parts := ps ++ [n] |}] seen from [cwd]. *)
Lemma path_comps_snoc cwd root ps n :
  path_comps cwd {| p_root := root; p_parts := (ps ++ [n])%list |}
  = (path_comps cwd {| p_root := root; p_parts := ps |} ++ [n])%list.
Proof. unfold path_comps, path_anchor; cbn [p_root p_parts]; apply app_assoc. Qed.

Lemma path_parent_snoc root ps n :
  path_parent {| p_root := root; p_parts := (ps ++ [n])%list |}
  = {| p_root := root; p_parts := ps |}.
Proof.
  unfold path_parent; cbn [p_parts p_root].
  destruct (ps ++ [n])%list eqn:E; [destruct ps; discriminate|].
  rewrite <- E, removelast_last; reflexivity.
Qed.

Lemma os_mkdir_snoc cwd root ps n d :
  os_mkdir cwd {| p_root := root; p_parts := (ps ++ [n])%list |} d =
  match os_stat cwd {| p_root := root; p_parts := ps |} d with
  | inl e => inl e
  | inr (_, NFile _) => inl FS.NotADirectoryError
  | inr (loc, NDir e) =>
      if String.eqb n ".." then inl FS.FileExistsError
      else
        match child_node e n with
        | Some _ => inl FS.FileExistsError
        | None =>
            inr (fs_modify (fun e => Dir (dir_files e) (dir_subdirs e ++ [(n, Dir [] [])]))
                           loc d)
        end
  end.
Proof.
  unfold os_mkdir; rewrite path_parent_snoc; cbn [p_parts].
  destruct (ps ++ [n])%list eqn:E; [destruct ps; discriminate|].
  rewrite <- E, last_last; reflexivity.
Qed.

Lemma os_rmdir_snoc cwd root ps n d :
  os_rmdir cwd {| p_root := root; p_parts := (ps ++ [n])%list |} d =
  match os_stat cwd {| p_root := root; p_parts := ps |} d with
  | inl e => inl e
  | inr (_, NFile _) => inl FS.NotADirectoryError
  | inr (loc, NDir e) =>
      if String.eqb n ".." then inl FS.OSError
      else
        match child_node e n with
        | None => inl FS.FileNotFoundError
        | Some (NFile _) => inl FS.NotADirectoryError
        | Some (NDir (Dir [] [])) =>
            inr (fs_modify (fun e => Dir (dir_files e) (remove_child n (dir_subdirs e))) loc d)
        | Some (NDir _) => inl FS.OSError
        end
  end.
Proof.
  unfold os_rmdir; rewrite path_parent_snoc; cbn [p_parts].
  destruct (ps ++ [n])%list eqn:E; [destruct ps; discriminate|].
  rewrite <- E, last_last; reflexivity.
Qed.

Lemma open_write_snoc cwd root ps n c d :
  open_write cwd {| p_root := root; p_parts := (ps ++ [n])%list |} c d =
  match os_stat cwd {| p_root := root; p_parts := ps |} d with
  | inl e => inl e
  | inr (_, NFile _) => inl FS.NotADirectoryError
  | inr (loc, NDir e) =>
      if String.eqb n ".." then inl FS.IsADirectoryError
      else
        match dir_child n (dir_subdirs e) with
        | Some _ => inl FS.IsADirectoryError
        | None => inr (fs_modify (fun e => Dir (set_file n c (dir_files e)) (dir_subdirs e))
                                 loc d)
        end
  end.
Proof.
  unfold open_write; rewrite path_parent_snoc; cbn [p_parts].
  destruct (ps ++ [n])%list eqn:E; [destruct ps; discriminate|].
  rewrite <- E, last_last; reflexivity.
Qed.

Lemma ppath_snoc p :
  p_parts p <> [] ->
  exists ps n, p = {| p_root := p_root p; p_parts := (ps ++ [n])%list |}.
Proof.
  intros H; destruct p as [r parts]; cbn [p_parts p_root] in *.
  exists (removelast parts), (last parts ""); rewrite <- app_removelast_last by exact H.
  reflexivity.
Qed.

Lemma not_in_snoc (x n : string) ps : ~ In x (ps ++ [n])%list -> ~ In x ps /\ n <> x.
Proof.
  intros H; split; [intros Hi; apply H, in_or_app; left; exact Hi|].
  intros ->; apply H, in_or_app; right; left; reflexivity.
Qed.

Lemma open_write_clean cwd p c d :
  ~ In ".." cwd -> ~ In ".." (p_parts p) -> p_parts p <> [] ->
  open_write cwd p c d = fs_write_abs (os_path cwd p) c d.
Proof.
  intros H1 H2 H3.
  rewrite (os_path_clean _ _ (comps_clean _ _ H1 H2)).
  destruct (ppath_snoc p H3) as (ps & n & E); rewrite E in *; cbn [p_parts] in H2.
  destruct (not_in_snoc _ _ _ H2) as [Hps Hn].
  rewrite open_write_snoc, path_comps_snoc.
  rewrite os_stat_clean by (apply comps_clean; assumption).
  unfold fs_write_abs; rewrite removelast_last, last_last.
  destruct (path_comps cwd {| p_root := p_root p; p_parts := ps |} ++ [n])%list eqn:Ec;
    [destruct (path_comps _ _); discriminate|].
  apply String.eqb_neq in Hn; rewrite Hn.
  destruct (fs_resolve _ d) as [e|[f|e]]; reflexivity.
Qed.

Lemma set_child_set_child n x y ss : set_child n x (set_child n y ss) = set_child n x ss.
Proof.
  induction ss as [|[m e] ss IH]; simpl; [rewrite String.eqb_refl; reflexivity|].
  destruct (String.eqb m n) eqn:E; simpl; rewrite E; [reflexivity|rewrite IH; reflexivity].
Qed.

Lemma remove_child_set_child n x ss :
  dir_child n ss <> None -> remove_child n (set_child n x ss) = remove_child n ss.
Proof.
  induction ss as [|[m e] ss IH]; simpl; [intros H; elim H; reflexivity|].
  destruct (String.eqb m n) eqn:E; simpl; rewrite E; [reflexivity|].
  intros H; rewrite IH by exact H; reflexivity.
Qed.

Lemma fs_modify_comp g f q z d :
  fs_modify g q (fs_modify f (q ++ z) d) = fs_modify (fun e => g (fs_modify f z e)) q d.
Proof.
  revert d; induction q as [|m q IH]; intros [fl ss]; [reflexivity|].
  cbn [app fs_modify].
  destruct (dir_child m ss) as [d'|] eqn:Hc; [|cbn [fs_modify]; rewrite Hc; reflexivity].
  cbn [fs_modify]; rewrite dir_child_set_child, set_child_set_child, IH; reflexivity.
Qed.

Lemma fs_modify_ext_at f g q d e :
  fs_resolve q d = inr (NDir e) -> f e = g e -> fs_modify f q d = fs_modify g q d.
Proof.
  revert d; induction q as [|m q IH]; intros [fl ss] Hr Hfg.
  - injection Hr as <-; exact Hfg.
  - cbn [fs_resolve] in Hr; unfold child_node in Hr; cbn [dir_subdirs dir_files] in Hr.
    cbn [fs_modify]; destruct (dir_child m ss) as [d'|]; [|reflexivity].
    rewrite (IH d' Hr Hfg); reflexivity.
Qed.

Lemma fs_resolve_snoc_dir q n d e :
  fs_resolve (q ++ [n]) d = inr (NDir e) ->
  exists fl ss, fs_resolve q d = inr (NDir (Dir fl ss)) /\ dir_child n ss = Some e.
Proof.
  intros H; rewrite fs_resolve_app in H.
  destruct (fs_resolve q d) as [err|[c|[fl ss]]]; try discriminate H.
  exists fl, ss; split; [reflexivity|].
  cbn [fs_resolve] in H; unfold child_node in H; cbn [dir_subdirs dir_files] in H.
  destruct (dir_child n ss) as [d'|]; [cbn in H; congruence|].
  destruct (find_file n fl); discriminate H.
Qed.

Lemma rmtree_clean cwd p d :
  ~ In ".." cwd -> ~ In ".." (p_parts p) -> p_parts p <> [] ->
  rmtree cwd p d
  = match rmtree_abs (os_path cwd p) d with
    | inl e => (d, Some e)
    | inr d' => (d', None)
    end.
Proof.
  intros H1 H2 H3.
  pose proof (comps_clean _ _ H1 H2) as Hc.
  rewrite (os_path_clean _ _ Hc).
  unfold rmtree, rmtree_abs; rewrite (os_stat_clean _ _ _ Hc).
  destruct (fs_resolve (path_comps cwd p) d) as [e|[f|e]] eqn:Hr; try reflexivity.
  destruct (ppath_snoc p H3) as (ps & n & E); rewrite E in *; cbn [p_parts] in H2.
  destruct (not_in_snoc _ _ _ H2) as [Hps Hn].
  rewrite path_comps_snoc in *.
  set (q := path_comps cwd {| p_root := p_root p; p_parts := ps |}) in *.
  destruct (fs_resolve_snoc_dir _ _ _ _ Hr) as (fl & ss & Hq & Hn').
  rewrite os_rmdir_snoc, os_stat_clean by (apply comps_clean; assumption); fold q.
  rewrite (fs_resolve_modify _ q [n] d _ Hq).
  cbn [fs_modify]; rewrite Hn'.
  unfold child_node; cbn [dir_subdirs dir_files]; rewrite dir_child_set_child.
  apply String.eqb_neq in Hn; rewrite Hn.
  destruct (q ++ [n])%list eqn:Eq; [destruct q; discriminate|rewrite <- Eq].
  rewrite removelast_last, last_last, fs_modify_comp.
  f_equal.
  apply (fs_modify_ext_at _ _ _ _ _ Hq); cbv beta; cbn [fs_modify dir_files dir_subdirs].
  rewrite Hn'; cbn [fs_modify dir_files dir_subdirs].
  rewrite remove_child_set_child by congruence; reflexivity.
Qed.

Lemma fs_resolve_err p d e :
  fs_resolve p d = inl e -> e = FS.FileNotFoundError \/ e = FS.NotADirectoryError.
Proof.
  revert d; induction p as [|n p IH]; intros d H; [discriminate H|].
  cbn [fs_resolve] in H; destruct (child_node d n) as [[c|d']|].
  - destruct p; [discriminate H|injection H as <-; right; reflexivity].
  - exact (IH d' H).
  - injection H as <-; left; reflexivity.
Qed.

Lemma mkdir_abs_exists p d n0 :
  fs_resolve p d = inr n0 -> mkdir_parents_abs p d = inl FS.FileExistsError.
Proof.
  revert d; induction p as [|m p IH]; intros d H; [reflexivity|].
  cbn [fs_resolve] in H; destruct p as [|m' p'].
  - cbn [mkdir_parents_abs]; destruct (child_node d m) as [[c|e]|]; [reflexivity|reflexivity|discriminate H].
  - rewrite mkdir_parents_cons by discriminate.
    destruct (child_node d m) as [[c|e]|]; [discriminate H|rewrite (IH e H); reflexivity|discriminate H].
Qed.

Lemma mkdir_abs_snoc_dir q n d e :
  fs_resolve q d = inr (NDir e) ->
  mkdir_parents_abs (q ++ [n]) d =
  match child_node e n with
  | Some _ => inl FS.FileExistsError
  | None => inr (fs_modify (fun e => Dir (dir_files e) (dir_subdirs e ++ [(n, Dir [] [])])%list) q d)
  end.
Proof.
  revert d; induction q as [|m q IH]; intros d H.
  - injection H as <-; cbn [app mkdir_parents_abs].
    destruct (child_node d n) as [[c|e]|]; reflexivity.
  - cbn [app]; rewrite mkdir_parents_cons by (destruct q; discriminate).
    cbn [fs_resolve] in H.
    destruct (child_node d m) as [[c|d']|] eqn:Hc; [destruct q; discriminate H| |discriminate H].
    rewrite (IH d' H).
    destruct d as [fl ss]; unfold child_node in Hc; cbn [dir_subdirs dir_files] in Hc.
    destruct (dir_child m ss) as [d0|] eqn:Hd;
      [injection Hc as ->|destruct (find_file m fl); discriminate Hc].
    cbn [fs_modify]; rewrite Hd.
    destruct (child_node e n); reflexivity.
Qed.

Lemma mkdir_abs_snoc_notdir q n d :
  (fs_resolve q d = inl FS.NotADirectoryError \/ exists c, fs_resolve q d = inr (NFile c)) ->
  mkdir_parents_abs (q ++ [n]) d = inl FS.NotADirectoryError.
Proof.
  revert d; induction q as [|m q IH]; intros d H.
  - destruct H as [H|[c H]]; discriminate H.
  - cbn [app]; rewrite mkdir_parents_cons by (destruct q; discriminate).
    cbn [fs_resolve] in H.
    destruct (child_node d m) as [[c|d']|]; [reflexivity|rewrite (IH d' H); reflexivity|].
    destruct H as [H|[c H]]; discriminate H.
Qed.

Lemma fresh_dirs_add q n :
  fs_modify (fun e => Dir (dir_files e) (dir_subdirs e ++ [(n, Dir [] [])])%list) q (fresh_dirs q)
  = fresh_dirs (q ++ [n]).
Proof.
  induction q as [|m q IH]; [reflexivity|].
  cbn [app fresh_dirs fs_modify dir_child]; rewrite String.eqb_refl.
  cbn [set_child]; rewrite String.eqb_refl, IH; reflexivity.
Qed.

Lemma set_child_app_new n x y ss :
  dir_child n ss = None -> set_child n x (ss ++ [(n, y)]) = (ss ++ [(n, x)])%list.
Proof.
  induction ss as [|[m e] ss IH]; simpl; [rewrite String.eqb_refl; reflexivity|].
  destruct (String.eqb m n); [discriminate|intros H; rewrite IH by exact H; reflexivity].
Qed.

Lemma mkdir_abs_snoc_missing q n d :
  fs_resolve q d = inl FS.FileNotFoundError ->
  exists d1, mkdir_parents_abs q d = inr d1
    /\ fs_resolve q d1 = inr (NDir (Dir [] []))
    /\ mkdir_parents_abs (q ++ [n]) d
       = inr (fs_modify (fun e => Dir (dir_files e) (dir_subdirs e ++ [(n, Dir [] [])])%list)
                        q d1).
Proof.
  revert d; induction q as [|m q IH]; intros d H; [discriminate H|].
  cbn [fs_resolve] in H.
  destruct (child_node d m) as [[c|d']|] eqn:Hc.
  - destruct q; discriminate H.
  - destruct (IH d' H) as (d1 & Hm & Hr & Hs).
    assert (Hq : q <> []) by (intros ->; discriminate H).
    exists (Dir (dir_files d) (set_child m d1 (dir_subdirs d))).
    rewrite mkdir_parents_cons, Hc, Hm by exact Hq.
    split; [reflexivity|split].
    + cbn [fs_resolve]; unfold child_node; cbn [dir_subdirs dir_files].
      rewrite dir_child_set_child; exact Hr.
    + cbn [app]; rewrite mkdir_parents_cons, Hc, Hs by (destruct q; discriminate).
      cbn [fs_modify]; rewrite dir_child_set_child, set_child_set_child; reflexivity.
  - destruct d as [fl ss]; unfold child_node in Hc; cbn [dir_subdirs dir_files] in Hc.
    destruct (dir_child m ss) eqn:Hd; [discriminate Hc|].
    destruct (find_file m fl) eqn:Hf; [discriminate Hc|].
    assert (Hc' : child_node (Dir fl ss) m = None)
      by (unfold child_node; cbn [dir_subdirs dir_files]; rewrite Hd, Hf; reflexivity).
    exists (Dir fl (ss ++ [(m, fresh_dirs q)])).
    split; [cbn [mkdir_parents_abs]; rewrite Hc'; reflexivity|split].
    + cbn [fs_resolve]; unfold child_node; cbn [dir_subdirs dir_files].
      rewrite dir_child_app_new by exact Hd.
      pose proof (fresh_dirs_resolve q []) as F; rewrite app_nil_r in F; exact F.
    + cbn [app mkdir_parents_abs]; rewrite Hc'.
      cbn [fs_modify]; rewrite dir_child_app_new by exact Hd.
      rewrite set_child_app_new, fresh_dirs_add by exact Hd; reflexivity.
Qed.

Lemma mkdir_parents_rev_clean cwd root rparts eo d :
  ~ In ".." cwd -> ~ In ".." rparts ->
  (exists e, fs_resolve (path_anchor cwd {| p_root := root; p_parts := [] |}) d = inr (NDir e)) ->
  mkdir_parents_rev cwd root rparts eo d
  = match mkdir_parents_abs (path_comps cwd {| p_root := root; p_parts := rev rparts |}) d with
    | inr d' => (d', None)
    | inl e =>
        if eo && path_is_dir cwd {| p_root := root; p_parts := rev rparts |} d
        then (d, None) else (d, Some e)
    end.
Proof.
  intros H1; revert eo d; induction rparts as [|n r IH]; intros eo d H2 [e0 He0].
  - cbn [rev]; unfold path_comps at 1; cbn [p_parts]; rewrite app_nil_r.
    rewrite (mkdir_abs_exists _ _ _ He0); reflexivity.
  - assert (Hn : n <> "..") by (intros ->; apply H2; left; reflexivity).
    assert (Hr : ~ In ".." (rev r))
      by (intros Hin; apply H2; right; apply in_rev, Hin).
    cbn [rev mkdir_parents_rev].
    rewrite os_mkdir_snoc, os_stat_clean by (apply comps_clean; assumption).
    rewrite path_comps_snoc.
    set (q := path_comps cwd {| p_root := root; p_parts := rev r |}).
    apply String.eqb_neq in Hn; rewrite Hn.
    destruct (fs_resolve q d) as [err|[c|e]] eqn:Hq.
    + destruct (fs_resolve_err _ _ _ Hq) as [->| ->].
      * destruct (mkdir_abs_snoc_missing _ n _ Hq) as (d1 & Hm & Hr1 & Hs).
        rewrite Hs, IH by (eauto; intros Hin; apply H2; right; exact Hin).
        fold q; rewrite Hm.
        unfold mkdir_plain; rewrite os_mkdir_snoc, os_stat_clean by (apply comps_clean; assumption).
        fold q; rewrite Hr1, Hn; reflexivity.
      * rewrite mkdir_abs_snoc_notdir by (left; exact Hq); reflexivity.
    + rewrite mkdir_abs_snoc_notdir by (right; eauto); reflexivity.
    + rewrite (mkdir_abs_snoc_dir _ _ _ _ Hq); destruct (child_node e n); reflexivity.
Qed.

Lemma mkdir_parents_clean cwd p d :
  ~ In ".." cwd -> ~ In ".." (p_parts p) ->
  (exists e, fs_resolve (path_anchor cwd p) d = inr (NDir e)) ->
  mkdir_parents cwd p d
  = match mkdir_parents_abs (os_path cwd p) d with
    | inl e => (d, Some e)
    | inr d' => (d', None)
    end.
Proof.
  intros H1 H2 H3; rewrite (os_path_clean _ _ (comps_clean _ _ H1 H2)).
  destruct p as [root ps]; unfold mkdir_parents; cbn [p_root p_parts] in *.
  rewrite mkdir_parents_rev_clean by
    (first [exact H1 | intros Hin; apply H2, in_rev, Hin | exact H3]).
  rewrite rev_involutive; destruct (mkdir_parents_abs _ d); reflexivity.
Qed.

Lemma comps_div_clean cwd p n :
  ~ In ".." cwd -> ~ In ".." (p_parts p) ->
  parse_path n = {| p_root := ""; p_parts := [n] |} -> n <> ".." ->
  ~ In ".." (path_comps cwd (path_div_str p n)).
Proof.
  intros H1 H2 Hp Hn; apply comps_clean; [exact H1|].
  rewrite path_div_name by exact Hp; cbn [p_parts].
  intros Hin; apply in_app_or in Hin as [Hin|[Hin|[]]]; [exact (H2 Hin)|exact (Hn Hin)].
Qed.

Lemma compile_into_eq A cwd buildset sketch board srd fs0 :
  ~ In ".." cwd -> ~ In ".." (p_parts srd) ->
  (exists e, fs_resolve (path_anchor cwd srd) fs0 = inr (NDir e)) ->
  compile_into A cwd buildset sketch board srd fs0
  = compile_into_abs A cwd buildset sketch board srd fs0.
Proof.
  intros H1 H2 H3; unfold compile_into, compile_into_abs.
  assert (Hd : forall n, parse_path n = {| p_root := ""; p_parts := [n] |} -> n <> ".." ->
            ~ In ".." (p_parts (path_div_str srd n)) /\ p_parts (path_div_str srd n) <> []
            /\ path_anchor cwd (path_div_str srd n) = path_anchor cwd srd).
  { intros n Hp Hn; rewrite path_div_name by exact Hp; cbn [p_parts p_root]; split; [|split].
    - intros Hin; apply in_app_or in Hin as [Hin|[Hin|[]]];
        [exact (H2 Hin)|exact (Hn Hin)].
    - destruct (p_parts srd); discriminate.
    - reflexivity. }
  destruct (Hd "build" eq_refl ltac:(discriminate)) as (Hb1 & Hb2 & Hb3).
  destruct (Hd "build.log" eq_refl ltac:(discriminate)) as (Hl1 & Hl2 & _).
  destruct (Hd "build.json" eq_refl ltac:(discriminate)) as (Hj1 & Hj2 & _).
  rewrite mkdir_parents_clean by (first [exact H1|exact Hb1|rewrite Hb3; exact H3]).
  destruct (mkdir_parents_abs _ fs0) as [e|fs1]; [reflexivity|].
  rewrite open_write_clean by assumption.
  destruct (fs_write_abs _ None fs1) as [e|fs2]; [reflexivity|].
  destruct (run_arduino _ _ _ _) as [[res out]|]; [|reflexivity].
  rewrite open_write_clean by assumption; reflexivity.
Qed.

Lemma rmtree_abs_anchor a ps d d' e :
  ps <> [] -> fs_resolve a d = inr (NDir e) -> rmtree_abs (a ++ ps) d = inr d' ->
  exists e', fs_resolve a d' = inr (NDir e').
Proof.
  intros Hps Ha; unfold rmtree_abs.
  destruct (fs_resolve (a ++ ps) d) as [err|[c|e1]]; try discriminate.
  destruct (a ++ ps)%list eqn:E; [apply app_eq_nil in E; destruct E; contradiction|].
  rewrite <- E; intros H; injection H as <-.
  rewrite removelast_app by exact Hps.
  eexists; apply fs_resolve_modify, Ha.
Qed.

Lemma anchor_ok cwd p fs :
  cwd_ok cwd fs -> exists e, fs_resolve (path_anchor cwd p) fs = inr (NDir e).
Proof.
  intros [_ [e He]]; unfold path_anchor.
  destruct (String.eqb (p_root p) ""); [exists e; exact He|exists fs; reflexivity].
Qed.

(** On a record directory without ['..'], from an existing working
    directory, [do_compile] does what [do_compile_abs] does. *)
Lemma do_compile_abs_eq A cwd results_dir buildset force sketch board fs :
  cwd_ok cwd fs ->
  ~ In ".." (p_parts (sketch_result_dir results_dir buildset sketch board)) ->
  p_parts (sketch_result_dir results_dir buildset sketch board) <> [] ->
  do_compile A cwd results_dir buildset force sketch board fs
  = do_compile_abs A cwd results_dir buildset force sketch board fs.
Proof.
  intros Hcwd H2 H3; pose proof (proj1 Hcwd) as H1.
  unfold do_compile, do_compile_abs; cbv zeta.
  set (srd := sketch_result_dir results_dir buildset sketch board) in *.
  pose proof (comps_clean _ _ H1 H2) as Hc.
  rewrite (path_exists_clean _ _ _ Hc).
  rewrite (path_exists_clean _ _ _ (comps_div_clean _ _ "build.json" H1 H2 eq_refl
                                     ltac:(discriminate))).
  rewrite (rmtree_clean _ _ _ H1 H2 H3).
  rewrite (compile_into_eq _ _ _ _ _ _ fs H1 H2 (anchor_ok _ _ _ Hcwd)).
  destruct (rmtree_abs (os_path cwd srd) fs) as [e|fs1] eqn:Hr; [reflexivity|].
  rewrite (compile_into_eq _ _ _ _ _ _ fs1 H1 H2); [reflexivity|].
  destruct (anchor_ok _ srd _ Hcwd) as [e He].
  rewrite (os_path_clean _ _ Hc) in Hr; unfold path_comps in Hr.
  exact (rmtree_abs_anchor _ _ _ _ _ H3 He Hr).
Qed.

Lemma compile_into_never_skips A cwd buildset sketch board srd fs0 :
  snd (compile_into A cwd buildset sketch board srd fs0) <> Skipped.
Proof.
  unfold compile_into.
  destruct (mkdir_parents _ _ fs0) as [fs1 [e|]]; [discriminate|].
  destruct (open_write _ _ _ _); [discriminate|].
  destruct (run_arduino _ _ _ _) as [[r out]|]; [|discriminate].
  destruct (open_write _ _ _ _); discriminate.
Qed.


Lemma parts_sketch_result_dir_board results_dir buildset sketch b :
  plain_name b ->
  p_parts (sketch_result_dir results_dir buildset sketch b)
  = (p_parts (sketch_result_dir results_dir buildset sketch "") ++ [b])%list.
Proof.
  intros [Hb _]; unfold sketch_result_dir.
  rewrite path_div_name by exact Hb; cbn [p_parts].
  unfold path_div_str at 2, path_div at 2; cbn [parse_path p_root p_parts String.eqb].
  rewrite app_nil_r; reflexivity.
Qed.

(** X3: when [do_compile] compiles, for a record directory without
    ['..'] seen from an existing working directory, the compiler was run on
    the directory [build] of the record directory, and [os.stat] of the
    record directory then finds, at its real path, exactly [build.log],
    [build.json] with the new record and [build] as the compiler left it:
    nothing of an older build remains. *)
Theorem do_compile_fresh A cwd results_dir buildset force sketch board fs fs' res :
  let srd := sketch_result_dir results_dir buildset sketch board in
  fs_wf fs -> cwd_ok cwd fs -> ~ In ".." (p_parts srd) -> p_parts srd <> [] ->
  do_compile A cwd results_dir buildset force sketch board fs = (fs', Compiled res) ->
  exists out,
    run_arduino A (os_path cwd (path_div_str srd "build")) board (os_path cwd sketch)
      = Some (res, out)
    /\ os_stat cwd srd fs'
       = inr (os_path cwd srd,
              NDir (Dir [("build.log", None);
                         ("build.json", Some (build_record buildset sketch board res))]
                        [("build", out)])).
Proof.
  cbv zeta; intros Hw Hcwd Hn Hne Hdc.
  rewrite do_compile_abs_eq in Hdc by assumption.
  pose proof (do_compile_record_dir _ _ _ _ _ _ _ _ _ _ Hw Hdc) as Hrec; cbv zeta in Hrec.
  destruct Hrec as (out & Hrun & Hres).
  exists out; split; [exact Hrun|].
  pose proof (comps_clean _ _ (proj1 Hcwd) Hn) as Hc.
  rewrite (os_stat_clean _ _ _ Hc), <- (os_path_clean _ _ Hc), Hres; reflexivity.
Qed.



(** X6: with the same conditions as X3, when [do_compile] raises,
    [build.json] of the record directory is missing afterwards, so the next
    [do_compile] of the same sketch and board, with or without [--force],
    does not skip. *)
Theorem do_compile_raised_retried A cwd results_dir buildset force sketch board fs fs' err :
  let srd := sketch_result_dir results_dir buildset sketch board in
  fs_wf fs -> cwd_ok cwd fs -> ~ In ".." (p_parts srd) -> p_parts srd <> [] ->
  do_compile A cwd results_dir buildset force sketch board fs = (fs', Raised err) ->
  path_exists cwd (path_div_str srd "build.json") fs' = false
  /\ forall A' force',
       snd (do_compile A' cwd results_dir buildset force' sketch board fs') <> Skipped.
Proof.
  cbv zeta; intros Hw Hcwd Hn Hne Hdc.
  rewrite do_compile_abs_eq in Hdc by assumption.
  pose proof (do_compile_abs_raised _ _ _ _ _ _ _ _ _ _ Hw Hdc) as Hab; cbv zeta in Hab.
  destruct Hab as [Hj _].
  set (srd := sketch_result_dir results_dir buildset sketch board) in *.
  assert (Hj' : path_exists cwd (path_div_str srd "build.json") fs' = false).
  { rewrite (path_exists_clean _ _ _ (comps_div_clean _ _ "build.json" (proj1 Hcwd) Hn eq_refl
                                       ltac:(discriminate))).
    exact Hj. }
  split; [exact Hj'|].
  intros A' force'; unfold do_compile; cbv zeta; fold srd; rewrite Hj'; cbn [negb].
  destruct (path_exists cwd srd fs');
    [destruct (rmtree cwd srd fs') as [fs1 [e|]]; [discriminate|]|];
    apply compile_into_never_skips.
Qed.

(** X7: a compile for the board [''] (what a trailing comma in [--boards]
    gives) uses the sketch directory of the buildset as its record
    directory: with the same conditions as X3 for it, afterwards the record
    directory of every other board of that sketch is gone. *)
Theorem empty_board_wipes A cwd results_dir buildset force sketch fs fs' res b :
  let srd := sketch_result_dir results_dir buildset sketch "" in
  fs_wf fs -> cwd_ok cwd fs -> ~ In ".." (p_parts srd) -> p_parts srd <> [] ->
  do_compile A cwd results_dir buildset force sketch "" fs = (fs', Compiled res) ->
  plain_name b -> ~ In b ["build"; "build.log"; "build.json"] ->
  path_exists cwd (sketch_result_dir results_dir buildset sketch b) fs' = false.
Proof.
  cbv zeta; intros Hw Hcwd Hn Hne Hdc Hb Hbn.
  rewrite do_compile_abs_eq in Hdc by assumption.
  rewrite path_exists_clean.
  - exact (empty_board_abs_gone _ _ _ _ _ _ _ _ _ b Hw Hdc Hb Hbn).
  - apply comps_clean; [exact (proj1 Hcwd)|].
    rewrite parts_sketch_result_dir_board by exact Hb.
    intros Hin; apply in_app_or in Hin as [Hin|[Hin|[]]];
      [exact (Hn Hin)|exact (proj2 Hb Hin)].
Qed.

(** ** Witnesses *)


Ltac fs_wf_tac := vm_compute; repeat split; repeat constructor; simpl; intuition discriminate.

Lemma sample_fs_wf : fs_wf sample_fs.
Proof. fs_wf_tac. Qed.

Lemma sample_fs_uno_wf : fs_wf sample_fs_uno.
Proof. fs_wf_tac. Qed.

Lemma failed_builds_not_measured_witness :
  create_report_data good_env tree_failed
  = create_report_data (sample_env ProcNonZero None) tree_failed.
Proof.
  apply failed_builds_not_measured.
  intros p r H; vm_compute in H; destruct H as [H|[]]; injection H as _ <-; discriminate.
Defined.

Lemma report_data_all_parsed_witness :
  Forall (fun pc => exists r, snd pc = Some r) (find_builds tree_base_next).
Proof.
  apply Forall_forall; intros [p c] H.
  exact (report_data_all_parsed _ _ _ _ tree_base_next_data p c H).
Defined.

Lemma missing_hash_data_ok : dataset_ok missing_hash_data.
Proof.
  split; [repeat constructor; simpl; intuition discriminate|].
  intros k b [H|[H|[]]]; injection H as <- <-; reflexivity.
Qed.

Lemma base_next_data_ok : dataset_ok base_next_data.
Proof.
  split; [repeat constructor; simpl; intuition discriminate|].
  intros k b [H|[H|[]]]; injection H as <- <-; reflexivity.
Qed.

Lemma base_leonardo_data_ok : dataset_ok base_leonardo_data.
Proof.
  split; [repeat constructor; simpl; intuition discriminate|].
  intros k b [H|[H|[]]]; injection H as <- <-; reflexivity.
Qed.

Lemma delta_missing_size_keyerror_witness :
  exists w, add_delta_info missing_hash_data "base" = (w, Err KeyError).
Proof.
  apply (delta_missing_size_keyerror _ _ ("next", "blink", "uno") (sample_build "next" "uno")
           (measured (raw_blink "base" "uno" 0) OK (Some 924%Z) (Some 9%Z) None)
           missing_hash_data_ok);
    [right; left; reflexivity|discriminate|reflexivity|reflexivity|reflexivity
    |right; left; reflexivity].
Defined.

Lemma base_records_annotated_witness :
  exists w d', add_delta_info base_next_data "base" = (w, Ok d')
    /\ exists b, dict_get ("base", "blink", "uno") d' = Some b
       /\ core b = core (sample_build "base" "uno")
       /\ is_base b = Some true /\ delta_status_f b = Some Is_base
       /\ (status_f (sample_build "base" "uno") = Some OK ->
             delta_program_size b = Some 0%Z /\ delta_data_size b = Some 0%Z)
       /\ (status_f (sample_build "base" "uno") <> Some OK ->
             delta_program_size b = delta_program_size (sample_build "base" "uno")
             /\ delta_data_size b = delta_data_size (sample_build "base" "uno")).
Proof.
  destruct (add_delta_info base_next_data "base") as [w [d'|e]] eqn:Ha;
    [|vm_compute in Ha; discriminate].
  exists w, d'; split; [reflexivity|].
  exact (base_records_annotated _ _ _ _ _ _ base_next_data_ok Ha (or_introl eq_refl) eq_refl).
Defined.

Lemma delta_warnings_witness :
  exists w d', add_delta_info base_leonardo_data "base" = (w, Ok d')
    /\ w = [no_base_warning (sample_build "next" "leonardo")].
Proof.
  destruct (add_delta_info base_leonardo_data "base") as [w [d'|e]] eqn:Ha;
    [|vm_compute in Ha; discriminate].
  exists w, d'; split; [reflexivity|].
  rewrite (delta_warnings _ _ _ _ base_leonardo_data_ok Ha); vm_compute; reflexivity.
Defined.

Lemma report_base_columns_witness :
  exists w rows, report good_env tree_base_next (Some "base") = (w, Ok rows)
    /\ map (firstn (length report_attrs)) rows = render base_next_data None.
Proof.
  destruct (report good_env tree_base_next (Some "base")) as [w [rows|e]] eqn:Hr;
    [|vm_compute in Hr; discriminate].
  exists w, rows; split; [reflexivity|].
  exact (report_base_columns _ _ _ _ _ _ _ Hr tree_base_next_data).
Defined.

Lemma report_rows_width_witness :
  exists w rows, report good_env tree_base_next (Some "base") = (w, Ok rows)
    /\ exists n, (n = length report_attrs \/ n = length report_attrs + length delta_attrs)
       /\ forall row, In row rows -> length row = n.
Proof.
  destruct (report good_env tree_base_next (Some "base")) as [w [rows|e]] eqn:Hr;
    [|vm_compute in Hr; discriminate].
  exists w, rows; split; [reflexivity|].
  exact (report_rows_width _ _ _ _ _ Hr).
Defined.

Lemma board_list_join_witness :
  board_list (String.concat ", " ["arduino:avr:uno"; "arduino:avr:mega"])
  = ["arduino:avr:uno"; "arduino:avr:mega"].
Proof.
  apply board_list_join; [discriminate| |discriminate|reflexivity].
  repeat constructor; discriminate.
Defined.

Lemma do_compile_fresh_witness :
  let srd := sketch_result_dir (parse_path "result") "base" sample_sketch "uno" in
  exists out,
    run_arduino sample_arduino (os_path ["home"] (path_div_str srd "build")) "uno"
      (os_path ["home"] sample_sketch) = Some (0%Z, out)
    /\ os_stat ["home"] srd sample_fs_uno
       = inr (os_path ["home"] srd,
              NDir (Dir [("build.log", None);
                         ("build.json", Some (build_record "base" sample_sketch "uno" 0))]
                        [("build", out)])).
Proof.
  exact (do_compile_fresh sample_arduino ["home"] (parse_path "result") "base" false
           sample_sketch "uno" sample_fs sample_fs_uno 0%Z sample_fs_wf
           ltac:(split; [vm_compute; intuition discriminate|eexists; reflexivity])
           ltac:(vm_compute; intuition discriminate)
           ltac:(vm_compute; discriminate)
           ltac:(vm_compute; reflexivity)).
Defined.



Lemma empty_board_wipes_witness :
  path_exists ["home"] (sketch_result_dir (parse_path "result") "base" sample_sketch "uno")
    (fst (sample_run sample_arduino false "" sample_fs_uno)) = false.
Proof.
  apply (empty_board_wipes sample_arduino ["home"] (parse_path "result") "base" false
           sample_sketch sample_fs_uno _ 0%Z "uno" sample_fs_uno_wf).
  - split; [vm_compute; intuition discriminate|eexists; reflexivity].
  - vm_compute; intuition discriminate.
  - vm_compute; discriminate.
  - vm_compute; reflexivity.
  - split; [reflexivity|discriminate].
  - vm_compute; intuition discriminate.
Defined.

Lemma do_compile_raised_retried_witness :
  path_exists ["home"]
    (path_div_str (sketch_result_dir (parse_path "result") "base" sample_sketch "uno")
       "build.json")
    (fst (sample_run missing_arduino false "uno" sample_fs)) = false
  /\ snd (sample_run sample_arduino false "uno"
          (fst (sample_run missing_arduino false "uno" sample_fs))) <> Skipped.
Proof.
  destruct (do_compile_raised_retried missing_arduino ["home"] (parse_path "result") "base"
              false sample_sketch "uno" sample_fs _ FS.FileNotFoundError sample_fs_wf
              ltac:(split; [vm_compute; intuition discriminate|eexists; reflexivity])
              ltac:(vm_compute; intuition discriminate)
              ltac:(vm_compute; discriminate)
              ltac:(vm_compute; reflexivity)) as [H1 H2].
  exact (conj H1 (H2 sample_arduino false)).
Defined.
